(** * InfiniFuse: the NBT codec and the region-file allocator

    A shallow embedding of [minecraft/nbt.py] and [minecraft/chunk.py].
    Python integers are [Z]; [bytes], [bytearray] and the mapped file are
    [list byte]; a raised exception is the [Raise] outcome of [result]. *)

From Stdlib Require Import ZArith List Lia Bool Ascii String DecimalString FinFun.
From Stdlib.Strings Require Import Byte.
Import ListNotations.
Local Open Scope Z_scope.

(** ** Outcomes of a Python call *)

Inductive exn : Set :=
| StopIteration | StructError | OverflowError | TypeError | ValueError
| IndexError | KeyError | AttributeError | UnicodeError | FileNotFoundError
| OSError
| OutOfFuel     (* the fuel of a loop of the embedding ran out *)
| Unmodelled.   (* the outcome lies outside the embedding: float arithmetic,
                   SNBT rendering, or a bare Python [str] where a tag stands *)

Inductive result (A : Type) : Type :=
| Ok (a : A)
| Raise (e : exn).
Arguments Ok {A} a.
Arguments Raise {A} e.

Definition bind {A B} (c : result A) (k : A -> result B) : result B :=
  match c with
  | Ok a => k a
  | Raise e => Raise e
  end.

Notation "x <- c ;; k" := (bind c (fun x => k))
  (at level 61, c at next level, right associativity).
Notation "' p <- c ;; k" := (bind c (fun x => let 'p := x in k))
  (at level 61, p pattern, c at next level, right associativity).

(** Loops that may raise. *)
Section Loops.
Context {A B : Type}.

Section Map.
Variable f : A -> result B.
Fixpoint mapM (l : list A) : result (list B) :=
  match l with
  | [] => Ok []
  | x :: l' => y <- f x ;; ys <- mapM l' ;; Ok (y :: ys)
  end.
End Map.

Section Fold.
Variable f : A -> B -> result A.
Fixpoint foldM (l : list B) (a : A) : result A :=
  match l with
  | [] => Ok a
  | x :: l' => a' <- f a x ;; foldM l' a'
  end.
End Fold.
End Loops.

(** [range(n)] *)
Definition range (n : nat) : list Z := map Z.of_nat (seq 0 n).

(** ** Bytes and big-endian integers *)

Definition Z_of_byte (b : byte) : Z := Z.of_N (Byte.to_N b).

Definition byte_of_Z (z : Z) : byte :=
  match Byte.of_N (Z.to_N (z mod 256)) with
  | Some b => b
  | None => x00
  end.

Definition len {A} (l : list A) : Z := Z.of_nat (List.length l).

(** [int.from_bytes(bs, 'big')] *)
Definition int_from_bytes (bs : list byte) : Z :=
  fold_left (fun acc b => acc * 256 + Z_of_byte b) bs 0.

Fixpoint be_bytes (n : nat) (v : Z) : list byte :=
  match n with
  | O => []
  | S n' => byte_of_Z (v / 256 ^ Z.of_nat n') :: be_bytes n' v
  end.

(** [v.to_bytes(n, 'big')]: OverflowError on a negative or too large [v]. *)
Definition int_to_bytes (v : Z) (n : nat) : result (list byte) :=
  if (0 <=? v) && (v <? 256 ^ Z.of_nat n) then Ok (be_bytes n v)
  else Raise OverflowError.

(** ** Python lists and slices *)

(** The item at position [p] of a list, if there is one. *)
Definition item_at {A} (l : list A) (p : Z) : option A :=
  if p <? 0 then None else nth_error l (Z.to_nat p).

(** A bound of a slice of [l]: a negative bound counts from the end. *)
Definition slice_bound {A} (l : list A) (i : Z) : Z :=
  if i <? 0 then Z.max 0 (i + len l) else i.

(** [l[a:b]]: a bound past the end takes what there is. *)
Definition py_slice {A} (l : list A) (a b : Z) : list A :=
  let a' := slice_bound l a in
  let b' := slice_bound l b in
  firstn (Z.to_nat (b' - a')) (skipn (Z.to_nat a') l).

(** [l[a:]] *)
Definition py_slice_from {A} (l : list A) (a : Z) : list A :=
  skipn (Z.to_nat (slice_bound l a)) l.

(** [l[:b]] *)
Definition py_slice_to {A} (l : list A) (b : Z) : list A :=
  firstn (Z.to_nat (slice_bound l b)) l.

(** [l[i]]: a negative index counts from the end. *)
Definition py_getitem {A} (l : list A) (i : Z) : result A :=
  match item_at l (if i <? 0 then i + len l else i) with
  | Some x => Ok x
  | None => Raise IndexError
  end.

(** [l[i] = x] *)
Definition py_setitem {A} (l : list A) (i : Z) (x : A) : result (list A) :=
  let i' := if i <? 0 then i + len l else i in
  match item_at l i' with
  | Some _ => Ok (firstn (Z.to_nat i') l ++ x :: skipn (S (Z.to_nat i')) l)
  | None => Raise IndexError
  end.

(** ** The mapped region file *)

Definition mmap := list byte.

(** [MCA[i]] *)
Definition mmap_get (m : mmap) (i : Z) : result Z :=
  b <- py_getitem m i ;;
  Ok (Z_of_byte b).

Definition splice (m : mmap) (a : Z) (data : list byte) : mmap :=
  firstn (Z.to_nat a) m ++ data ++ skipn (Z.to_nat (a + len data)) m.

(** [MCA[a:b] = data]: a [data] of another length than the slice is
    refused. *)
Definition mmap_set_slice (m : mmap) (a b : Z) (data : list byte) : result mmap :=
  if len data =? len (py_slice m a b) then Ok (splice m (slice_bound m a) data)
  else Raise IndexError.

(** [MCA[a:] = data] *)
Definition mmap_set_from (m : mmap) (a : Z) (data : list byte) : result mmap :=
  if len data =? len (py_slice_from m a) then Ok (splice m (slice_bound m a) data)
  else Raise IndexError.

(** [MCA[i] = v]: [v] is a byte. *)
Definition mmap_set (m : mmap) (i : Z) (v : Z) : result mmap :=
  let i' := if i <? 0 then i + len m else i in
  match item_at m i' with
  | None => Raise IndexError
  | Some _ =>
    if (v <? 0) || (255 <? v) then Raise ValueError
    else Ok (splice m i' [byte_of_Z v])
  end.

(** [MCA.resize(n)]: the file is truncated or extended with zero bytes. *)
Definition mmap_resize (m : mmap) (n : Z) : result mmap :=
  if n <=? 0 then Raise OSError
  else if n <=? len m then Ok (firstn (Z.to_nat n) m)
  else Ok (m ++ repeat x00 (Z.to_nat (n - len m))).

(** ** Chunk.write on the mapped file (chunk.py, lines 158-203) *)

Section RegionFile.

(** [compression.compress], a collaborator outside the repository's core. *)
Variable compress : list byte -> Z -> list byte.

(** [header = (4 * (xPos + zPos * 32)) % 1024] *)
Definition header_of (xPos zPos : Z) : Z := (4 * (xPos + zPos * 32)) mod 1024.

(** [int.from_bytes(MCA[i*4 : i*4+3], 'big')] *)
Definition entry_offset (MCA : mmap) (i : Z) : Z :=
  int_from_bytes (py_slice MCA (i * 4) (i * 4 + 3)).

(** [int.from_bytes(MCA[i*4:i*4+3], 'big') + MCA[i*4+3]] *)
Definition entry_end (MCA : mmap) (i : Z) : result Z :=
  let o := entry_offset MCA i in
  c <- mmap_get MCA (i * 4 + 3) ;;
  Ok (o + c).

(** Lines 160-168: the offset and the compression scheme of the slot. *)
Definition find_slot (MCA : mmap) (header : Z) : result (Z * Z) :=
  let offset := int_from_bytes (py_slice MCA header (header + 3)) in
  if offset =? 0 then
    ends <- mapM (entry_end MCA) (range 1024) ;;
    Ok (fold_left Z.max ends 2, 2)
  else
    compression <- mmap_get MCA (4096 * offset + 4) ;;
    Ok (offset, compression).

(** The offset field of an entry after the loop of lines 181-185. *)
Definition bumped (offset sectorChange oldOffset : Z) : Z :=
  if oldOffset >? offset then oldOffset + sectorChange else oldOffset.

(** Lines 181-185: one turn of the loop over the location table. *)
Definition bump_entry (offset sectorChange : Z) (MCA : mmap) (i : Z) : result mmap :=
  let oldOffset := entry_offset MCA i in
  if oldOffset >? offset then
    b <- int_to_bytes (oldOffset + sectorChange) 3 ;;
    mmap_set_slice MCA (i * 4) (i * 4 + 3) b
  else Ok MCA.

(** Lines 188-192: the bytes after the slot follow the new sector count. *)
Definition move_following (offset oldSectorCount sectorChange : Z) (MCA : mmap)
  : result mmap :=
  let oldStart := 4096 * (offset + oldSectorCount) in
  let newStart := oldStart + 4096 * sectorChange in
  let data := py_slice_from MCA oldStart in
  MCA' <- mmap_resize MCA (len MCA + sectorChange * 4096) ;;
  mmap_set_from MCA' newStart data.

(** Lines 179-192. *)
Definition resize_slot (offset oldSectorCount sectorChange : Z) (MCA : mmap)
  : result mmap :=
  if sectorChange =? 0 then Ok MCA
  else
    MCA' <- foldM (bump_entry offset sectorChange) (range 1024) MCA ;;
    move_following offset oldSectorCount sectorChange MCA'.

(** Lines 195-203: the slot's header entries and its payload. *)
Definition commit_slot (header offset newSectorCount timestamp length compression : Z)
    (chunkData : list byte) (MCA : mmap) : result mmap :=
  ob <- int_to_bytes offset 3 ;;
  MCA <- mmap_set_slice MCA header (header + 3) ob ;;
  MCA <- mmap_set MCA (header + 3) newSectorCount ;;
  tb <- int_to_bytes timestamp 4 ;;
  MCA <- mmap_set_slice MCA (header + 4096) (header + 4100) tb ;;
  let offset := offset * 4096 in
  lb <- int_to_bytes length 4 ;;
  MCA <- mmap_set_slice MCA offset (offset + 4) lb ;;
  MCA <- mmap_set MCA (offset + 4) compression ;;
  mmap_set_slice MCA (offset + 5) (offset + length + 4) chunkData.

(** The body of the [with mmap.mmap(...) as MCA] block of [Chunk.write]:
    [xPos], [zPos] are the chunk's coordinates, [nbt] is [self.to_bytes()]
    and [timestamp] the clock read at line 148. *)
Definition write_mapped (xPos zPos : Z) (nbt : list byte) (timestamp : Z)
    (MCA : mmap) : result mmap :=
  let header := header_of xPos zPos in
  '(offset, compression) <- find_slot MCA header ;;
  let chunkData := compress nbt compression in
  let length := len chunkData + 1 in
  oldSectorCount <- mmap_get MCA (header + 3) ;;
  let newSectorCount := 1 + length / 4096 in
  let sectorChange := newSectorCount - oldSectorCount in
  MCA <- resize_slot offset oldSectorCount sectorChange MCA ;;
  commit_slot header offset newSectorCount timestamp length compression chunkData MCA.

(** Lines 145-156 around it: a closed chunk is refused, a missing file is
    created with an empty header, and an empty file cannot be mapped. *)
Definition write_file (closed : bool) (xPos zPos : Z) (nbt : list byte)
    (timestamp : Z) (file : option (list byte)) : result (list byte) :=
  if closed then Raise ValueError
  else
    let contents := match file with
                    | None => repeat x00 (Z.to_nat 8192)
                    | Some f => f
                    end in
    match contents with
    | [] => Raise ValueError
    | _ => write_mapped xPos zPos nbt timestamp contents
    end.

(** Lines 113-127 of [Chunk.open]: the slot of the chunk is read, or the
    chunk is reported missing.  The result is the timestamp, the compression
    scheme and the compressed payload. *)
Definition open_mapped (chunkX chunkZ : Z) (MCA : mmap) : result (Z * Z * list byte) :=
  let header := header_of chunkX chunkZ in
  let offset := 4096 * int_from_bytes (py_slice MCA header (header + 3)) in
  sectorCount <- mmap_get MCA (header + 3) ;;
  let timestamp := int_from_bytes (py_slice MCA (header + 4096) (header + 4100)) in
  if (sectorCount >? 0) && (offset >=? 2) then
    let length := int_from_bytes (py_slice MCA offset (offset + 4)) in
    compression <- mmap_get MCA (offset + 4) ;;
    let chunkData := py_slice MCA (offset + 5) (offset + length + 4) in
    Ok (timestamp, compression, chunkData)
  else Raise FileNotFoundError.

End RegionFile.
(** ** Python strings and UTF-8 *)

(** A Python [str] is the sequence of its code points. *)
Definition str := list Z.

(** An ASCII literal of the source as a [str]. *)
Definition lit (s : string) : str :=
  map (fun a => Z.of_nat (nat_of_ascii a)) (list_ascii_of_string s).

Fixpoint str_eqb (a b : str) : bool :=
  match a, b with
  | [], [] => true
  | x :: a', y :: b' => (x =? y) && str_eqb a' b'
  | _, _ => false
  end.

(** [str(n)] for an integer [n] *)
Definition str_of_int (n : Z) : str := lit (NilZero.string_of_int (Z.to_int n)).

(** [sep.join(parts)] *)
Fixpoint join (sep : str) (parts : list str) : str :=
  match parts with
  | [] => []
  | [p] => p
  | p :: rest => p ++ sep ++ join sep rest
  end.

Definition surrogate (c : Z) : bool := (55296 <=? c) && (c <=? 57343).

(** The UTF-8 encoding of one code point; a lone surrogate is refused. *)
Definition encode_code_point (c : Z) : result (list byte) :=
  if c <? 0 then Raise ValueError
  else if c <? 128 then Ok [byte_of_Z c]
  else if c <? 2048 then
    Ok [byte_of_Z (192 + c / 64); byte_of_Z (128 + c mod 64)]
  else if c <? 65536 then
    if surrogate c then Raise UnicodeError
    else Ok [byte_of_Z (224 + c / 4096); byte_of_Z (128 + (c / 64) mod 64);
             byte_of_Z (128 + c mod 64)]
  else if c <? 1114112 then
    Ok [byte_of_Z (240 + c / 262144); byte_of_Z (128 + (c / 4096) mod 64);
        byte_of_Z (128 + (c / 64) mod 64); byte_of_Z (128 + c mod 64)]
  else Raise ValueError.

(** [str.encode(s)], UTF-8 *)
Fixpoint str_encode (s : str) : result (list byte) :=
  match s with
  | [] => Ok []
  | c :: s' => b <- encode_code_point c ;; r <- str_encode s' ;; Ok (b ++ r)
  end.

Definition continuation (x : Z) : bool := (128 <=? x) && (x <? 192).

(** [bs.decode(encoding='utf-8')], strict: overlong forms, surrogates, code
    points past U+10FFFF and truncated sequences are refused. *)
Fixpoint bytes_decode (bs : list byte) : result str :=
  match bs with
  | [] => Ok []
  | b0 :: r0 =>
    let x0 := Z_of_byte b0 in
    if x0 <? 128 then s <- bytes_decode r0 ;; Ok (x0 :: s)
    else if x0 <? 194 then Raise UnicodeError
    else if x0 <? 224 then
      match r0 with
      | b1 :: r1 =>
        let x1 := Z_of_byte b1 in
        if continuation x1
        then s <- bytes_decode r1 ;; Ok ((x0 - 192) * 64 + (x1 - 128) :: s)
        else Raise UnicodeError
      | _ => Raise UnicodeError
      end
    else if x0 <? 240 then
      match r0 with
      | b1 :: b2 :: r2 =>
        let x1 := Z_of_byte b1 in
        let x2 := Z_of_byte b2 in
        let c := (x0 - 224) * 4096 + (x1 - 128) * 64 + (x2 - 128) in
        if continuation x1 && continuation x2 && (2048 <=? c) && negb (surrogate c)
        then s <- bytes_decode r2 ;; Ok (c :: s)
        else Raise UnicodeError
      | _ => Raise UnicodeError
      end
    else if x0 <? 245 then
      match r0 with
      | b1 :: b2 :: b3 :: r3 =>
        let x1 := Z_of_byte b1 in
        let x2 := Z_of_byte b2 in
        let x3 := Z_of_byte b3 in
        let c := (x0 - 240) * 262144 + (x1 - 128) * 4096 + (x2 - 128) * 64 + (x3 - 128) in
        if continuation x1 && continuation x2 && continuation x3
           && (65536 <=? c) && (c <? 1114112)
        then s <- bytes_decode r3 ;; Ok (c :: s)
        else Raise UnicodeError
      | _ => Raise UnicodeError
      end
    else Raise UnicodeError
  end.

(** ** The [struct] formats of the source *)

Inductive fmt : Set :=
| fmt_B | fmt_h | fmt_i | fmt_q   (* 'B', '>h', '>i', '>q' *)
| fmt_H | fmt_I | fmt_Q           (* their [.upper()] *)
| fmt_f | fmt_d.                  (* '>f', '>d' *)

Definition calcsize (f : fmt) : nat :=
  match f with
  | fmt_B => 1
  | fmt_h | fmt_H => 2
  | fmt_i | fmt_I | fmt_f => 4
  | fmt_q | fmt_Q | fmt_d => 8
  end%nat.

Definition signed (f : fmt) : bool :=
  match f with
  | fmt_h | fmt_i | fmt_q => true
  | _ => false
  end.

(** [struct.pack(f, v)].  A float is carried as its IEEE-754 bit pattern, so
    that '>f' and '>d' pack the pattern as it is; an integer outside the range
    of the format raises struct.error. *)
Definition pack (f : fmt) (v : Z) : result (list byte) :=
  let m := 256 ^ Z.of_nat (calcsize f) in
  let lo := if signed f then - (m / 2) else 0 in
  let hi := if signed f then m / 2 else m in
  if (lo <=? v) && (v <? hi) then Ok (be_bytes (calcsize f) v)
  else Raise StructError.

(** [struct.unpack(f, bs)[0]] *)
Definition unpack (f : fmt) (bs : list byte) : result Z :=
  let m := 256 ^ Z.of_nat (calcsize f) in
  let u := int_from_bytes bs in
  if negb (Nat.eqb (List.length bs) (calcsize f)) then Raise StructError
  else if signed f && (m / 2 <=? u) then Ok (u - m)
  else Ok u.

(** ** The tag classes *)

(** The concrete subclasses of [TAG_Number]; the first four are the
    subclasses of [TAG_Integer], the last two of [TAG_Decimal]. *)
Inductive number_cls : Set :=
| TAG_Byte | TAG_Short | TAG_Int | TAG_Long | TAG_Float | TAG_Double.

(** The concrete subclasses of [TAG_Array]. *)
Inductive array_cls : Set :=
| TAG_Byte_Array | TAG_Int_Array | TAG_Long_Array.

Inductive cls : Set :=
| TAG_End
| TAG_Number (c : number_cls)
| TAG_Array (c : array_cls)
| TAG_String
| TAG_List
| TAG_Compound.

Coercion TAG_Number : number_cls >-> cls.
Coercion TAG_Array : array_cls >-> cls.

Definition number_cls_eqb (a b : number_cls) : bool :=
  match a, b with
  | TAG_Byte, TAG_Byte | TAG_Short, TAG_Short | TAG_Int, TAG_Int
  | TAG_Long, TAG_Long | TAG_Float, TAG_Float | TAG_Double, TAG_Double => true
  | _, _ => false
  end.

Definition array_cls_eqb (a b : array_cls) : bool :=
  match a, b with
  | TAG_Byte_Array, TAG_Byte_Array | TAG_Int_Array, TAG_Int_Array
  | TAG_Long_Array, TAG_Long_Array => true
  | _, _ => false
  end.

Definition cls_eqb (a b : cls) : bool :=
  match a, b with
  | TAG_End, TAG_End | TAG_String, TAG_String | TAG_List, TAG_List
  | TAG_Compound, TAG_Compound => true
  | TAG_Number x, TAG_Number y => number_cls_eqb x y
  | TAG_Array x, TAG_Array y => array_cls_eqb x y
  | _, _ => false
  end.

(** The class attribute [ID]. *)
Definition ID (c : cls) : Z :=
  match c with
  | TAG_End => 0
  | TAG_Number TAG_Byte => 1
  | TAG_Number TAG_Short => 2
  | TAG_Number TAG_Int => 3
  | TAG_Number TAG_Long => 4
  | TAG_Number TAG_Float => 5
  | TAG_Number TAG_Double => 6
  | TAG_Array TAG_Byte_Array => 7
  | TAG_String => 8
  | TAG_List => 9
  | TAG_Compound => 10
  | TAG_Array TAG_Int_Array => 11
  | TAG_Array TAG_Long_Array => 12
  end.

(** The class attribute [fmt]. *)
Definition fmt_of (c : number_cls) : fmt :=
  match c with
  | TAG_Byte => fmt_B
  | TAG_Short => fmt_h
  | TAG_Int => fmt_i
  | TAG_Long => fmt_q
  | TAG_Float => fmt_f
  | TAG_Double => fmt_d
  end.

(** [self.fmt.upper()] of the subclasses of [TAG_Integer]. *)
Definition fmt_upper (c : number_cls) : fmt :=
  match c with
  | TAG_Byte => fmt_B
  | TAG_Short => fmt_H
  | TAG_Int => fmt_I
  | TAG_Long => fmt_Q
  | TAG_Float => fmt_f
  | TAG_Double => fmt_d
  end.

Definition is_integer (c : number_cls) : bool :=
  match c with
  | TAG_Float | TAG_Double => false
  | _ => true
  end.

(** The class attributes [elementType] and [prefix] of the arrays. *)
Definition array_elementType (c : array_cls) : number_cls :=
  match c with
  | TAG_Byte_Array => TAG_Byte
  | TAG_Int_Array => TAG_Int
  | TAG_Long_Array => TAG_Long
  end.

Definition array_prefix (c : array_cls) : str :=
  match c with
  | TAG_Byte_Array => lit "B;"
  | TAG_Int_Array => lit "I;"
  | TAG_Long_Array => lit "L;"
  end.

(** [TAG.from_ID]: the classes sorted by [ID], indexed by [value]. *)
Definition IDtable : list cls :=
  [TAG_End; TAG_Number TAG_Byte; TAG_Number TAG_Short; TAG_Number TAG_Int;
   TAG_Number TAG_Long; TAG_Number TAG_Float; TAG_Number TAG_Double;
   TAG_Array TAG_Byte_Array; TAG_String; TAG_List; TAG_Compound;
   TAG_Array TAG_Int_Array; TAG_Array TAG_Long_Array].

Definition from_ID (value : Z) : result cls := py_getitem IDtable value.

(** ** Tags *)

(** An instance of a tag class.  A number holds the value that its [_value]
    bytes encode (for [TAG_Float] and [TAG_Double], the bit pattern of the
    float); a sequence holds the Python list [self.value], whose elements
    [insert] does not constrain; a Compound holds the dict [self.value] in
    insertion order. *)
#[warnings="-register-all"]
Inductive tag : Type :=
| T_End
| T_Number (c : number_cls) (value : Z)
| T_String (value : str)
| T_Array (c : array_cls) (value : list tag)
| T_List (value : list tag)
| T_Compound (value : list (str * tag)).

(** [type(t)] *)
Definition type_of (t : tag) : cls :=
  match t with
  | T_End => TAG_End
  | T_Number c _ => TAG_Number c
  | T_String _ => TAG_String
  | T_Array c _ => TAG_Array c
  | T_List _ => TAG_List
  | T_Compound _ => TAG_Compound
  end.

(** [isinstance(t, TAG_Compound)] *)
Definition is_Compound (t : tag) : bool :=
  match t with
  | T_Compound _ => true
  | _ => false
  end.

(** *** The dict of a Compound *)

Section Dict.
Context {V : Type}.

(** [d[k]] *)
Fixpoint dict_get (d : list (str * V)) (k : str) : result V :=
  match d with
  | [] => Raise KeyError
  | (k', v) :: d' => if str_eqb k' k then Ok v else dict_get d' k
  end.

(** [d[k] = v]: an existing key keeps its place. *)
Fixpoint dict_set (d : list (str * V)) (k : str) (v : V) : list (str * V) :=
  match d with
  | [] => [(k, v)]
  | (k', v') :: d' =>
    if str_eqb k' k then (k', v) :: d' else (k', v') :: dict_set d' k v
  end.

Fixpoint dict_has (d : list (str * V)) (k : str) : bool :=
  match d with
  | [] => false
  | (k', _) :: d' => str_eqb k' k || dict_has d' k
  end.

(** The keys of a dict are distinct. *)
Fixpoint dict_ok (d : list (str * V)) : bool :=
  match d with
  | [] => true
  | (k, _) :: d' => negb (dict_has d' k) && dict_ok d'
  end.
End Dict.

(** *** Conversions between tags: [cls(value)] *)

(** [int(value)], through the [__int__] wrapper of [TAG_Number]. *)
Definition int_of (value : tag) : result Z :=
  match value with
  | T_Number c v => if is_integer c then Ok v else Raise Unmodelled
  | _ => Raise TypeError
  end.

(** [repr(t)], which is [t.to_snbt()] but for a Compound.
    [TAG_Number.to_snbt] reads [self.suffixes], an attribute that no class
    has (the class attribute is [suffix]). *)
Fixpoint to_snbt (t : tag) : result str :=
  match t with
  | T_End => Ok []
  | T_Number _ _ => Raise AttributeError
  | T_String s =>
    (* a double quote is code point 34, a backslash 92 *)
    Ok ([34] ++ flat_map (fun c => if c =? 34 then [92; 34] else [c]) s ++ [34])
  | T_Array c l =>
    parts <- mapM to_snbt l ;;
    Ok (lit "[" ++ array_prefix c ++ join (lit ",") parts ++ lit "]")
  | T_List l =>
    parts <- mapM to_snbt l ;;
    Ok (lit "[" ++ join (lit ",") parts ++ lit "]")
  | T_Compound d =>
    parts <- mapM (fun kv => r <- to_snbt (snd kv) ;; Ok (fst kv ++ lit ":" ++ r)) d ;;
    Ok (lit "{" ++ join (lit ",") parts ++ lit "}")
  end.

(** [str(t)]: the [__str__] wrapper of a number, [TAG_String.__str__], and
    [repr] for the other classes. *)
Definition str_of (t : tag) : result str :=
  match t with
  | T_Number c v => if is_integer c then Ok (str_of_int v) else Raise Unmodelled
  | T_String s => Ok s
  | _ => to_snbt t
  end.

(** [cls(v)] for a number class and a Python number [v]: the setter of
    [value] packs it. *)
Definition Number_new (c : number_cls) (v : Z) : result tag :=
  _ <- pack (fmt_of c) v ;;
  Ok (T_Number c v).

(** [cls(value)] for a number class and a tag. *)
Definition Number_init (c : number_cls) (value : tag) : result tag :=
  if is_integer c then v <- int_of value ;; Number_new c v
  else
    match value with
    | T_Number c' b => if number_cls_eqb c' c then Number_new c b else Raise Unmodelled
    | _ => Raise TypeError
    end.

(** [TAG_String(s)] for a Python [str]: the setter encodes it behind a
    [TAG_Short] of its byte length. *)
Definition String_new (s : str) : result tag :=
  newValue <- str_encode s ;;
  _ <- Number_new TAG_Short (len newValue) ;;
  Ok (T_String s).

(** [TAG_String(value)] for a tag. *)
Definition String_init (value : tag) : result tag :=
  s <- str_of value ;;
  String_new s.

(** [for i in value] where every [i] is a tag.  Iterating a String or a
    Compound yields bare [str]s. *)
Definition iter_tags (value : tag) : result (list tag) :=
  match value with
  | T_Array _ l | T_List l => Ok l
  | T_String [] | T_Compound [] => Ok []
  | T_String _ | T_Compound _ => Raise Unmodelled
  | T_End | T_Number _ _ => Raise TypeError
  end.

(** [TAG_List.elementType] *)
Definition List_elementType (value : list tag) : cls :=
  match value with
  | [] => TAG_End
  | e :: _ => type_of e
  end.

Section Append.
(** [cls(value)], to be defined below. *)
Variable construct : cls -> tag -> result tag.

(** [TAG_MutableSequence.append] on [self.value], where [elementType] is
    [self.elementType]: the converted value is appended, unless the
    conversion raises. *)
Definition MutableSequence_append_to (elementType : cls) (value : list tag)
    (v : tag) : result (list tag) :=
  v' <- construct elementType v ;;
  Ok (value ++ [v']).

(** [TAG_List.append] on [self.value].  The appended [v] is a tag, so that
    [isinstance(value, TAG_Abstract)] holds and line 566 is not reached. *)
Definition List_append_to (value : list tag) (v : tag) : result (list tag) :=
  if cls_eqb (List_elementType value) TAG_End then Ok (value ++ [v])
  else MutableSequence_append_to (List_elementType value) value v.
End Append.

(** [cls(value)] for a class and a tag [value]. *)
Fixpoint construct (c : cls) (value : tag) {struct value} : result tag :=
  match c with
  | TAG_End => Ok T_End
  | TAG_Number n => Number_init n value
  | TAG_String => String_init value
  | TAG_Array a =>
    l <- iter_tags value ;;
    l' <- foldM (MutableSequence_append_to
                   (fun _ => Number_init (array_elementType a))
                   (array_elementType a)) l [] ;;
    Ok (T_Array a l')
  | TAG_List =>
    match value with
    | T_Array _ l | T_List l =>
      l' <- foldM (List_append_to construct) l [] ;;
      Ok (T_List l')
    | _ =>
      l <- iter_tags value ;;
      Ok (T_List l)
    end
  | TAG_Compound =>
    match value with
    | T_Compound d => Ok (T_Compound d)
    | T_End | T_Number _ _ => Raise TypeError
    | _ => Raise Unmodelled
    end
  end.

(** [TAG_MutableSequence.__init__(value)] for a Python list of tags. *)
Definition List_new (value : list tag) : result tag :=
  l <- foldM (List_append_to construct) value [] ;;
  Ok (T_List l).

Definition Array_new (a : array_cls) (value : list tag) : result tag :=
  l <- foldM (MutableSequence_append_to construct (array_elementType a)) value [] ;;
  Ok (T_Array a l).

(** *** The methods of the mutable sequences

    A method that mutates [self] returns the object after the call and the
    outcome of the call. *)

Definition method (A : Type) : Type := tag * result A.

(** [self.elementType] *)
Definition elementType (self : tag) : result cls :=
  match self with
  | T_List l => Ok (List_elementType l)
  | T_Array a _ => Ok (TAG_Number (array_elementType a))
  | _ => Raise AttributeError
  end.

(** [self.append(value)] *)
Definition append (self : tag) (value : tag) : method unit :=
  match self with
  | T_List l =>
    match List_append_to construct l value with
    | Ok l' => (T_List l', Ok tt)
    | Raise e => (self, Raise e)
    end
  | T_Array a l =>
    match MutableSequence_append_to construct (array_elementType a) l value with
    | Ok l' => (T_Array a l', Ok tt)
    | Raise e => (self, Raise e)
    end
  | _ => (self, Raise AttributeError)
  end.

(** [self.insert(key, value)]:
    [self.value = self[:key] + [value] + self[key:]] *)
Definition insert (self : tag) (key : Z) (value : tag) : method unit :=
  match self with
  | T_List l => (T_List (py_slice_to l key ++ [value] ++ py_slice_from l key), Ok tt)
  | T_Array a l => (T_Array a (py_slice_to l key ++ [value] ++ py_slice_from l key), Ok tt)
  | _ => (self, Raise AttributeError)
  end.

(** [self[key] = value]:
    [self.value[key] = self.elementType(value)] *)
Definition setitem (self : tag) (key : Z) (value : tag) : method unit :=
  match self with
  | T_List l =>
    match v <- construct (List_elementType l) value ;; py_setitem l key v with
    | Ok l' => (T_List l', Ok tt)
    | Raise e => (self, Raise e)
    end
  | T_Array a l =>
    match v <- construct (array_elementType a) value ;; py_setitem l key v with
    | Ok l' => (T_Array a l', Ok tt)
    | Raise e => (self, Raise e)
    end
  | _ => (self, Raise TypeError)
  end.

(** ** The binary codec *)

(** Modelled from the spec: [util.read_bytes], which is not under src/.
    [read_bytes(iterable, n)] takes the next [n] bytes of the iterator, and a
    numeric tag consumes exactly its fixed width.  An exhausted iterator
    raises StopIteration, the exception that [TAG_Compound.from_bytes]
    catches; a negative [n] takes nothing, as a loop over [range(n)] does.
    The result is the bytes read and the rest of the iterator. *)
Definition read_bytes (iterator : list byte) (n : Z) : result (list byte * list byte) :=
  if len iterator <? n then Raise StopIteration
  else Ok (firstn (Z.to_nat n) iterator, skipn (Z.to_nat n) iterator).

(** [TAG_Number.from_bytes], returning the tag and the rest of the iterator;
    [len(cls())] is the size of the format. *)
Definition Number_from_bytes (c : number_cls) (iterator : list byte)
  : result (tag * list byte) :=
  '(byteValue, rest) <- read_bytes iterator (Z.of_nat (calcsize (fmt_of c))) ;;
  v <- unpack (fmt_of c) byteValue ;;
  t <- Number_new c v ;;
  Ok (t, rest).

(** [TAG_String.from_bytes] *)
Definition String_from_bytes (iterator : list byte) : result (tag * list byte) :=
  '(byteLength, rest) <- Number_from_bytes TAG_Short iterator ;;
  n <- int_of byteLength ;;
  '(byteValue, rest) <- read_bytes rest n ;;
  s <- bytes_decode byteValue ;;
  t <- String_new s ;;
  Ok (t, rest).

(** [t.to_bytes()] of a number: the [_value] that the setter packed. *)
Definition Number_to_bytes (c : number_cls) (v : Z) : result (list byte) :=
  pack (fmt_of c) v.

(** [TAG_String(s).to_bytes()] *)
Definition String_to_bytes (s : str) : result (list byte) :=
  newValue <- str_encode s ;;
  n <- Number_to_bytes TAG_Short (len newValue) ;;
  Ok (n ++ newValue).

Section Encode.
(** [element.to_bytes()] *)
Variable to_bytes : tag -> result (list byte).

(** The loop of [TAG_MutableSequence.to_bytes]. *)
Fixpoint elements_to_bytes (value : list tag) : result (list byte) :=
  match value with
  | [] => Ok []
  | element :: value' =>
    b <- to_bytes element ;;
    let e := if is_Compound element then [x00] else [] in
    r <- elements_to_bytes value' ;;
    Ok (b ++ e ++ r)
  end.

(** [TAG_MutableSequence.to_bytes] *)
Definition MutableSequence_to_bytes (value : list tag) : result (list byte) :=
  encoded <- Number_to_bytes TAG_Int (len value) ;;
  r <- elements_to_bytes value ;;
  Ok (encoded ++ r).

(** The loop of [TAG_Compound.to_bytes]. *)
Fixpoint items_to_bytes (value : list (str * tag)) : result (list byte) :=
  match value with
  | [] => Ok []
  | (element, item) :: value' =>
    i <- Number_to_bytes TAG_Byte (ID (type_of item)) ;;
    n <- String_to_bytes element ;;
    b <- to_bytes item ;;
    let e := if is_Compound item then [x00] else [] in
    r <- items_to_bytes value' ;;
    Ok (i ++ n ++ b ++ e ++ r)
  end.
End Encode.

(** [t.to_bytes()] *)
Fixpoint to_bytes (t : tag) : result (list byte) :=
  match t with
  | T_End => Ok [x00]
  | T_Number c v => Number_to_bytes c v
  | T_String s => String_to_bytes s
  | T_Array _ l => MutableSequence_to_bytes to_bytes l
  | T_List l =>
    i <- Number_to_bytes TAG_Byte (ID (List_elementType l)) ;;
    r <- MutableSequence_to_bytes to_bytes l ;;
    Ok (i ++ r)
  | T_Compound d => items_to_bytes to_bytes d
  end.

Section Decode.
(** [cls.from_bytes(iterator)] *)
Variable from_bytes : cls -> list byte -> result (tag * list byte).

(** The comprehension of [decode_bytes]. *)
Fixpoint elements_from_bytes (elementType : cls) (n : nat) (iterator : list byte)
  : result (list tag * list byte) :=
  match n with
  | O => Ok ([], iterator)
  | S n' =>
    '(e, rest) <- from_bytes elementType iterator ;;
    '(l, rest) <- elements_from_bytes elementType n' rest ;;
    Ok (e :: l, rest)
  end.

(** [TAG_MutableSequence.decode_bytes] *)
Definition decode_bytes (iterator : list byte) (elementType : cls)
  : result (list tag * list byte) :=
  '(length, rest) <- Number_from_bytes TAG_Int iterator ;;
  n <- int_of length ;;
  elements_from_bytes elementType (Z.to_nat n) rest.

(** The [while True] loop of [TAG_Compound.from_bytes]; [fuel] bounds the
    turns of the loop. *)
Fixpoint items_from_bytes (fuel : nat) (iterator : list byte) (value : list (str * tag))
  : result (list (str * tag) * list byte) :=
  match fuel with
  | O => Raise OutOfFuel
  | S fuel' =>
    match Number_from_bytes TAG_Byte iterator with
    | Raise StopIteration => Ok (value, iterator)
    | Raise e => Raise e
    | Ok (i, rest) =>
      n <- int_of i ;;
      itemType <- from_ID n ;;
      if cls_eqb itemType TAG_End then Ok (value, rest)
      else
        '(itemName, rest) <- String_from_bytes rest ;;
        match itemName with
        | T_String name =>
          '(itemValue, rest) <- from_bytes itemType rest ;;
          items_from_bytes fuel' rest (dict_set value name itemValue)
        | _ => Raise AttributeError
        end
    end
  end.
End Decode.

(** [cls.from_bytes(iterator)], returning the tag and the rest of the
    iterator; [fuel] bounds the nesting of the calls and the turns of the
    loop over the items of a Compound. *)
Fixpoint from_bytes (fuel : nat) (c : cls) (iterator : list byte)
  : result (tag * list byte) :=
  match fuel with
  | O => Raise OutOfFuel
  | S fuel' =>
    match c with
    | TAG_End => Ok (T_End, iterator)
    | TAG_Number n => Number_from_bytes n iterator
    | TAG_String => String_from_bytes iterator
    | TAG_Array a =>
      '(l, rest) <- decode_bytes (from_bytes fuel') iterator (array_elementType a) ;;
      t <- Array_new a l ;;
      Ok (t, rest)
    | TAG_List =>
      '(i, rest) <- Number_from_bytes TAG_Byte iterator ;;
      n <- int_of i ;;
      elementType <- from_ID n ;;
      '(l, rest) <- decode_bytes (from_bytes fuel') rest elementType ;;
      t <- List_new l ;;
      Ok (t, rest)
    | TAG_Compound =>
      '(value, rest) <- items_from_bytes (from_bytes fuel') fuel' iterator [] ;;
      Ok (T_Compound value, rest)
    end
  end.

(** The tag that [cls.from_bytes(data)] returns. *)
Definition decode (fuel : nat) (c : cls) (data : list byte) : result tag :=
  '(t, _) <- from_bytes fuel c data ;;
  Ok t.
(** ** The tags that the round trip is about *)

(** [isinstance(t, TAG_End)] *)
Definition is_End (t : tag) : bool :=
  match t with
  | T_End => true
  | _ => false
  end.

(** The bit pattern [v] of a float of class [c] is a NaN: the exponent is all
    ones and the fraction is not zero.  Python's [==] is false on a NaN. *)
Definition is_nan (c : number_cls) (v : Z) : bool :=
  match c with
  | TAG_Float => ((v / 2 ^ 23) mod 256 =? 255) && negb (v mod 2 ^ 23 =? 0)
  | TAG_Double => ((v / 2 ^ 52) mod 2048 =? 2047) && negb (v mod 2 ^ 52 =? 0)
  | _ => false
  end.

(** The value of a number that its class can hold, a NaN apart. *)
Definition number_ok (c : number_cls) (v : Z) : bool :=
  match pack (fmt_of c) v with
  | Ok _ => negb (is_nan c v)
  | Raise _ => false
  end.

(** A [str] that [TAG_String] can hold: it encodes, in at most 32767 bytes. *)
Definition str_ok (s : str) : bool :=
  match str_encode s with
  | Ok e => len e <=? 32767
  | Raise _ => false
  end.

(** A tag as the constructors build it, with no End inside a List or a
    Compound and no NaN: the numbers are in the range of their class, the
    strings and the names fit a [TAG_String], an Array holds numbers of its
    element class, the elements of a List have the class of the first one, the
    sequences have fewer than 2^31 elements, and the names of a Compound are
    distinct. *)
Fixpoint storable (t : tag) : bool :=
  match t with
  | T_End => true
  | T_Number c v => number_ok c v
  | T_String s => str_ok s
  | T_Array a l =>
    (len l <? 2 ^ 31)
    && forallb (fun e => match e with
                         | T_Number c v =>
                           number_cls_eqb c (array_elementType a) && number_ok c v
                         | _ => false
                         end) l
  | T_List l =>
    (len l <? 2 ^ 31)
    && forallb (fun e => negb (is_End e)
                         && cls_eqb (type_of e) (List_elementType l)
                         && storable e) l
  | T_Compound d =>
    dict_ok d
    && forallb (fun kv => str_ok (fst kv) && negb (is_End (snd kv))
                          && storable (snd kv)) d
  end.

(** The End byte that [to_bytes] of a container writes after a Compound. *)
Definition terminator (t : tag) : list byte :=
  if is_Compound t then [x00] else [].

(** Fuel that suffices to decode the bytes of a tag. *)
Fixpoint fuel_for (t : tag) : nat :=
  match t with
  | T_Array _ l | T_List l => S (list_max (map fuel_for l))
  | T_Compound d =>
    S (Nat.max (S (List.length d)) (list_max (map (fun kv => fuel_for (snd kv)) d)))
  | _ => 1
  end.

(** The round trip of one tag: its bytes exist, and with enough fuel
    [from_bytes] returns the tag from them, both when the End byte of a
    Compound and the rest of a stream follow and when nothing follows. *)
Definition round_trips (t : tag) : Prop :=
  storable t = true -> is_End t = false ->
  exists b, to_bytes t = Ok b /\
    forall fuel, (fuel_for t <= fuel)%nat ->
      (forall rest,
         from_bytes fuel (type_of t) (b ++ terminator t ++ rest) = Ok (t, rest)) /\
      from_bytes fuel (type_of t) b = Ok (t, []).
(** ** Chunk.get_block (chunk.py, lines 70-104) *)

(** [t[key]] for a [str] key: only a Compound is subscriptable by a name. *)
Definition getitem (t : tag) (key : str) : result tag :=
  match t with
  | T_Compound d => dict_get d key
  | _ => Raise TypeError
  end.

(** [t[i]] for an integer [i]. *)
Definition getitem_int (t : tag) (i : Z) : result tag :=
  match t with
  | T_Array _ l | T_List l => py_getitem l i
  | T_Compound _ => Raise KeyError
  | T_String s => _ <- py_getitem s i ;; Raise Unmodelled
  | T_End | T_Number _ _ => Raise TypeError
  end.

(** [len(t)] *)
Definition tag_len (t : tag) : result Z :=
  match t with
  | T_Array _ l | T_List l => Ok (len l)
  | T_Compound d => Ok (len d)
  | T_String s => Ok (len s)
  | T_Number c _ => Ok (Z.of_nat (calcsize (fmt_of c)))
  | T_End => Raise TypeError
  end.

(** [t == n] for an integer [n]:
    [self.value.__eq__(self.valueType(other))] *)
Definition eq_int (t : tag) (n : Z) : result bool :=
  match t with
  | T_Number c v => if is_integer c then Ok (v =? n) else Raise Unmodelled
  | T_String s => Ok (str_eqb s (str_of_int n))
  | T_Array _ _ | T_List _ | T_Compound _ => Raise TypeError
  | T_End => Raise AttributeError
  end.

(** [t.unsigned], a property of [TAG_Integer]:
    [struct.unpack(self.fmt.upper(), self._value)[0]] *)
Definition unsigned (t : tag) : result Z :=
  match t with
  | T_Number c v =>
    if is_integer c then
      _value <- pack (fmt_of c) v ;;
      unpack (fmt_upper c) _value
    else Raise AttributeError
  | _ => Raise AttributeError
  end.

(** [n.bit_length()] *)
Definition bit_length (n : Z) : Z :=
  if n =? 0 then 0 else Z.log2 (Z.abs n) + 1.

(** Modelled from the spec: [util.get_bits], which is not under src/.
    [get_bits(num, start, end)] is the field of [end - start] bits of [num]
    that ends at bit [end], bits counted from the least significant one, so
    that the window that ends at bit 64 of a 64-bit word is its top. *)
Definition get_bits (num start end_ : Z) : Z :=
  Z.land (Z.shiftr num start) (Z.ones (end_ - start)).

(** [TAG.Compound({'Name':TAG.String('minecraft:air')})] *)
Definition air : tag :=
  T_Compound [(lit "Name", T_String (lit "minecraft:air"))].

Record Chunk : Type := {
  timestamp : Z;          (* epoch seconds of the last edit *)
  value : tag;            (* the NBT data *)
  folder : option str;    (* the folder of the .mca files *)
  closed : bool
}.

(** The [for section in ...] loop: the first section whose ['Y'] is
    [sectionID], or [None] when the loop runs into its [else]. *)
Fixpoint find_section (sections : list tag) (sectionID : Z) : result (option tag) :=
  match sections with
  | [] => Ok None
  | section :: rest =>
    Y <- getitem section (lit "Y") ;;
    found <- eq_int Y sectionID ;;
    if found then Ok (Some section) else find_section rest sectionID
  end.

(** [self.get_block(x, y, z)].  The two [print] calls write to the standard
    output, which is not modelled, but [print(section['BlockStates'])] first
    takes the [str] of the tag, and that can raise. *)
Definition get_block (self : Chunk) (x y z : Z) : result tag :=
  if negb ((0 <=? x) && (x <=? 15)) || negb ((0 <=? y) && (y <=? 255))
     || negb ((0 <=? z) && (z <=? 15))
  then Raise IndexError
  else
    let sectionID := y / 16 in
    let y := y mod 16 in
    root <- getitem (value self) (lit "") ;;
    Level <- getitem root (lit "Level") ;;
    Sections <- getitem Level (lit "Sections") ;;
    sections <- iter_tags Sections ;;
    found <- find_section sections sectionID ;;
    match found with
    | None => Ok air
    | Some section =>
      match Palette <- getitem section (lit "Palette") ;; tag_len Palette with
      | Raise KeyError => Ok air
      | Raise e => Raise e
      | Ok n =>
        let bitLen := Z.max 4 (bit_length n) in
        let blocksPerEntry := 64 / bitLen in
        let block := y * 16 * 16 + z * 16 + x in
        let index := block / blocksPerEntry in
        let subIndex := block mod blocksPerEntry in
        BlockStates <- getitem section (lit "BlockStates") ;;
        _ <- str_of BlockStates ;;
        let lastBit := 64 - subIndex * bitLen in
        BlockStates <- getitem section (lit "BlockStates") ;;
        entry <- getitem_int BlockStates index ;;
        num <- unsigned entry ;;
        let blockStateID := get_bits num (lastBit - bitLen) lastBit in
        Palette <- getitem section (lit "Palette") ;;
        getitem_int Palette blockStateID
      end
    end.

(** Lines 91-102 without the two [print] calls: the palette index of the
    block, from the length [n] of the palette and the packed [BlockStates]. *)
Definition block_state_ID (n : Z) (BlockStates : tag) (x y z : Z) : result Z :=
  let bitLen := Z.max 4 (bit_length n) in
  let blocksPerEntry := 64 / bitLen in
  let block := (y mod 16) * 16 * 16 + z * 16 + x in
  let index := block / blocksPerEntry in
  let subIndex := block mod blocksPerEntry in
  let lastBit := 64 - subIndex * bitLen in
  entry <- getitem_int BlockStates index ;;
  num <- unsigned entry ;;
  Ok (get_bits num (lastBit - bitLen) lastBit).

(** The coordinates that [get_block] accepts. *)
Definition in_chunk (x y z : Z) : bool :=
  (0 <=? x) && (x <=? 15) && (0 <=? y) && (y <=? 255) && (0 <=? z) && (z <=? 15).

(** A section that the loop of [get_block] can test: a Compound whose ['Y']
    is an integer tag. *)
Definition section_ok (section : tag) : bool :=
  match getitem section (lit "Y") with
  | Ok (T_Number c _) => is_integer c
  | _ => false
  end.

(** [section['Y'] == sectionID] *)
Definition section_is (sectionID : Z) (section : tag) : result bool :=
  Y <- getitem section (lit "Y") ;;
  eq_int Y sectionID.
(** ** Sample region files *)

(** A [compress] that stores the data as it is, whatever the scheme. *)
Definition store_raw (data : list byte) (scheme : Z) : list byte := data.

Definition zeros (n : Z) : list byte := repeat x00 (Z.to_nat n).

(** The file that [Chunk.write] creates: an empty header. *)
Definition empty_region : mmap := zeros 8192.

(** Chunk (0, 0) in sector 2 and chunk (1, 0) in sector 3, one sector each;
    the entry of chunk (0, 8), at byte 1024 of the location table, is zero. *)
Definition two_chunk_region : mmap :=
  [x00; x00; x02; x01; x00; x00; x03; x01] ++ zeros 8184
  ++ [x00; x00; x00; x02; x03; x01] ++ zeros 4090
  ++ [x00; x00; x00; x02; x03; xaa] ++ zeros 4090.

(** A header whose first entry has the sector offset 1 and the count 1. *)
Definition sector_1_region : mmap := [x00; x00; x01; x01] ++ zeros 8188.

(** The file that a write leaves, or an empty file if it raises. *)
Definition written (r : result mmap) : mmap :=
  match r with
  | Ok m => m
  | Raise _ => []
  end.

(** [two_chunk_region] after chunk (0, 0) was written with 5000 bytes. *)
Definition grown_region : mmap :=
  written (write_mapped store_raw 0 0 (repeat x07 (Z.to_nat 5000)) 0 two_chunk_region).

(** [empty_region] after a first chunk of two bytes was written. *)
Definition first_region : mmap :=
  written (write_mapped store_raw 0 0 [x01; x02] 7 empty_region).

(** [sector_1_region] after chunk (0, 0) was written with one byte. *)
Definition kept_region : mmap :=
  written (write_mapped store_raw 0 0 [x01] 7 sector_1_region).

(** ** Sample chunks *)

Definition block (name : string) : tag :=
  T_Compound [(lit "Name", T_String (lit name))].

Definition section_of (Y : Z) (entries : list (str * tag)) : tag :=
  T_Compound ((lit "Y", T_Number TAG_Byte Y) :: entries).

Definition chunk_of (sections : list tag) : Chunk :=
  {| timestamp := 0;
     value := T_Compound
                [(lit "", T_Compound
                            [(lit "Level", T_Compound
                                             [(lit "Sections", T_List sections)])])];
     folder := None;
     closed := false |}.

Definition three_blocks : tag :=
  T_List [block "minecraft:stone"; block "minecraft:dirt"; block "minecraft:sand"].

Definition packed_states : tag :=
  T_Array TAG_Long_Array [T_Number TAG_Long 0x1234567812345678].

(** One section, at height 0, with a palette of three blocks. *)
Definition packed_chunk : Chunk :=
  chunk_of [section_of 0 [(lit "Palette", three_blocks);
                          (lit "BlockStates", packed_states)]].

(** One section, at height 0, with an empty palette and no block states. *)
Definition empty_palette_chunk : Chunk :=
  chunk_of [section_of 0 [(lit "Palette", T_List [])]].

(** The same with block states. *)
Definition empty_palette_states_chunk : Chunk :=
  chunk_of [section_of 0 [(lit "Palette", T_List []);
                          (lit "BlockStates", packed_states)]].

(** One section, at height 0, without a palette. *)
Definition bare_chunk : Chunk := chunk_of [section_of 0 []].

(** ** Sample tags *)

(** A Compound with boundary values, a nested Compound, a List of Compounds,
    an empty List and an Array; the Double is +Infinity. *)
Definition sample_tag : tag :=
  T_Compound
    [(lit "b0", T_Number TAG_Byte 0);
     (lit "b255", T_Number TAG_Byte 255);
     (lit "min", T_Number TAG_Long (-9223372036854775808));
     (lit "max", T_Number TAG_Long 9223372036854775807);
     (lit "inf", T_Number TAG_Double 0x7FF0000000000000);
     (lit "Level", T_Compound [(lit "xPos", T_Number TAG_Int (-3));
                               (lit "name", T_String [104; 233; 8364; 128512])]);
     (lit "Sections", T_List [section_of 0 []; section_of 1 [(lit "Palette", three_blocks)]]);
     (lit "none", T_List []);
     (lit "BlockStates", packed_states)].
(** ** Further methods of the tags (nbt.py) *)

(** [del l[i]]: a negative index counts from the end. *)
Definition py_delitem {A} (l : list A) (i : Z) : result (list A) :=
  let i' := if i <? 0 then i + len l else i in
  match item_at l i' with
  | Some _ => Ok (firstn (Z.to_nat i') l ++ skipn (S (Z.to_nat i')) l)
  | None => Raise IndexError
  end.

(** [del self[key]] of a mutable sequence: [del self.value[key]] *)
Definition delitem (self : tag) (key : Z) : method unit :=
  match self with
  | T_List l =>
    match py_delitem l key with
    | Ok l' => (T_List l', Ok tt)
    | Raise e => (self, Raise e)
    end
  | T_Array a l =>
    match py_delitem l key with
    | Ok l' => (T_Array a l', Ok tt)
    | Raise e => (self, Raise e)
    end
  | _ => (self, Raise TypeError)
  end.

(** [self + other] of a mutable sequence, for a tag [other]:
    [type(self)( self.value + [self.elementType(i) for i in other] )].
    The sum is a new tag; [self] is left as it is. *)
Definition add (self other : tag) : result tag :=
  match self with
  | T_List l =>
    items <- iter_tags other ;;
    converted <- mapM (construct (List_elementType l)) items ;;
    List_new (l ++ converted)
  | T_Array a l =>
    items <- iter_tags other ;;
    converted <- mapM (construct (array_elementType a)) items ;;
    Array_new a (l ++ converted)
  | _ => Raise Unmodelled
  end.


(** [s.lstrip(chars)], [s.rstrip(chars)] and [s.strip(chars)] *)
Fixpoint str_lstrip (chars : list Z) (s : str) : str :=
  match s with
  | [] => []
  | c :: s' => if existsb (Z.eqb c) chars then str_lstrip chars s' else s
  end.

Definition str_rstrip (chars : list Z) (s : str) : str :=
  rev (str_lstrip chars (rev s)).

Definition str_strip (chars : list Z) (s : str) : str :=
  str_rstrip chars (str_lstrip chars s).

(** [TAG_String.from_snbt]: [cls(snbt.strip(chars))], where [chars] holds
    the double quote, code point 34, and the apostrophe, code point 39. *)
Definition String_from_snbt (snbt : str) : result tag :=
  String_new (str_strip [34; 39] snbt).


(** ** The bit window of a block (chunk.py, lines 86-101) *)

(** The entry of [BlockStates] and the bits [start], [end] of it that
    [get_block] reads for the block at [x], [y], [z] when the palette has [n]
    entries: [(index, lastBit - bitLen, lastBit)]. *)
Definition bit_window (n x y z : Z) : Z * Z * Z :=
  let bitLen := Z.max 4 (bit_length n) in
  let blocksPerEntry := 64 / bitLen in
  let block := (y mod 16) * 16 * 16 + z * 16 + x in
  let index := block / blocksPerEntry in
  let subIndex := block mod blocksPerEntry in
  let lastBit := 64 - subIndex * bitLen in
  (index, lastBit - bitLen, lastBit).

(** ** The search order of the offsets (merge_worlds.py, lines 49-60) *)

(** [range(a, b)] *)
Definition range_from (a b : Z) : list Z :=
  map (fun i => a + Z.of_nat i) (seq 0 (Z.to_nat (b - a))).

(** The offsets that one turn of the loop over [x] yields; an offset
    [{'x' : x, 'z' : z}] is the pair [(x, z)]. *)
Definition square_column (radius x : Z) : list (Z * Z) :=
  if Z.abs x =? Z.abs radius
  then map (fun z => (x, z)) (range_from (- radius) (radius + 1))
  else [(x, - radius); (x, radius)].

(** The offsets that one turn of the loop over [radius] yields. *)
Definition square (radius : Z) : list (Z * Z) :=
  flat_map (square_column radius) (range_from (- radius) (radius + 1)).

(** [generate_offsets(maxRadius)]: the offsets in the order of their yield. *)
Definition generate_offsets (maxRadius : Z) : list (Z * Z) :=
  flat_map square (range_from 0 maxRadius).

(** ** A write that fills its last sector *)

(** [two_chunk_region] after chunk (0, 0) was written with 4094 bytes, so
    that the length field is 4095. *)
Definition overrun_region : mmap :=
  written (write_mapped store_raw 0 0 (repeat x07 (Z.to_nat 4094)) 0 two_chunk_region).
(** * Properties

    ** Bytes and big-endian integers *)

Lemma Z_of_byte_range (b : byte) : 0 <= Z_of_byte b < 256.
Proof.
  unfold Z_of_byte. pose proof (Byte.to_N_bounded b). lia.
Qed.

Lemma Z_of_byte_of_Z (z : Z) : 0 <= z < 256 -> Z_of_byte (byte_of_Z z) = z.
Proof.
  intros Hz. unfold Z_of_byte, byte_of_Z.
  rewrite Z.mod_small by lia.
  destruct (Byte.of_N (Z.to_N z)) as [b|] eqn:E.
  - apply Byte.to_of_N in E. rewrite E. lia.
  - apply Byte.of_N_None_iff in E. lia.
Qed.

Lemma byte_of_Z_of_byte (b : byte) : byte_of_Z (Z_of_byte b) = b.
Proof.
  unfold byte_of_Z. pose proof (Z_of_byte_range b) as R.
  rewrite Z.mod_small by lia. unfold Z_of_byte.
  rewrite N2Z.id, Byte.of_to_N. reflexivity.
Qed.

Lemma byte_of_Z_mod (z : Z) : Z_of_byte (byte_of_Z z) = z mod 256.
Proof.
  pose proof (Z.mod_pos_bound z 256 ltac:(lia)).
  rewrite <- (Z_of_byte_of_Z (z mod 256)) by lia.
  unfold byte_of_Z. rewrite Z.mod_mod by lia. reflexivity.
Qed.

Lemma len_app {A} (a b : list A) : len (a ++ b) = len a + len b.
Proof. unfold len. rewrite length_app. lia. Qed.

Lemma len_nonneg {A} (l : list A) : 0 <= len l.
Proof. unfold len. lia. Qed.

Lemma fold_int_acc (bs : list byte) (acc : Z) :
  fold_left (fun a b => a * 256 + Z_of_byte b) bs acc
  = acc * 256 ^ len bs + int_from_bytes bs.
Proof.
  unfold int_from_bytes. revert acc.
  induction bs as [|b bs IH]; intros acc; cbn [fold_left].
  - unfold len; simpl. lia.
  - rewrite IH. rewrite (IH (0 * 256 + Z_of_byte b)).
    replace (len (b :: bs)) with (len bs + 1) by (unfold len; simpl List.length; lia).
    rewrite Z.pow_add_r by (pose proof (len_nonneg bs); lia). lia.
Qed.

Lemma int_from_bytes_cons (b : byte) (bs : list byte) :
  int_from_bytes (b :: bs) = Z_of_byte b * 256 ^ len bs + int_from_bytes bs.
Proof.
  unfold int_from_bytes at 1. cbn [fold_left]. rewrite fold_int_acc. lia.
Qed.

Lemma int_from_bytes_range (bs : list byte) : 0 <= int_from_bytes bs < 256 ^ len bs.
Proof.
  induction bs as [|b bs IH].
  - unfold int_from_bytes, len; simpl. lia.
  - rewrite int_from_bytes_cons.
    replace (len (b :: bs)) with (len bs + 1) by (unfold len; simpl List.length; lia).
    rewrite Z.pow_add_r by (pose proof (len_nonneg bs); lia).
    pose proof (Z_of_byte_range b). nia.
Qed.

Lemma length_be_bytes (n : nat) (v : Z) : List.length (be_bytes n v) = n.
Proof. induction n; simpl; congruence. Qed.

Lemma int_from_be_bytes (n : nat) (v : Z) :
  int_from_bytes (be_bytes n v) = v mod 256 ^ Z.of_nat n.
Proof.
  induction n as [|n IH].
  - simpl. unfold int_from_bytes. simpl. rewrite Z.mod_1_r. reflexivity.
  - cbn [be_bytes]. rewrite int_from_bytes_cons, IH, byte_of_Z_mod.
    unfold len. rewrite length_be_bytes.
    rewrite Nat2Z.inj_succ, Z.pow_succ_r by lia.
    set (m := 256 ^ Z.of_nat n).
    assert (Hm : 0 < m) by (apply Z.pow_pos_nonneg; lia).
    rewrite (Z.mul_comm 256 m).
    rewrite Z.rem_mul_r by lia. lia.
Qed.
(** ** Lists, slices and the mapped file *)

Lemma bind_Ok {A B} (c : result A) (k : A -> result B) (b : B) :
  bind c k = Ok b -> exists a, c = Ok a /\ k a = Ok b.
Proof. destruct c; simpl; [eauto | discriminate]. Qed.

Lemma Ok_inj {A} (a b : A) : Ok a = Ok b -> a = b.
Proof. congruence. Qed.

Ltac inv_bind H :=
  let a := fresh "a" in
  let H1 := fresh H in
  let H2 := fresh in
  apply bind_Ok in H; destruct H as (a & H1 & H2); rename H2 into H.

Lemma item_at_range {A} (l : list A) (p : Z) (x : A) :
  item_at l p = Some x -> 0 <= p < len l.
Proof.
  unfold item_at, len. destruct (Z.ltb_spec p 0) as [Hp|Hp]; [discriminate|].
  intros E. assert (nth_error l (Z.to_nat p) <> None) as N by congruence.
  apply nth_error_Some in N. lia.
Qed.

Lemma item_at_outside {A} (l : list A) (p : Z) :
  p < 0 \/ len l <= p -> item_at l p = None.
Proof.
  unfold item_at, len. intros O. destruct (Z.ltb_spec p 0) as [Hp|Hp]; [reflexivity|].
  apply nth_error_None. lia.
Qed.

Lemma item_at_inside {A} (l : list A) (p : Z) :
  0 <= p < len l -> exists x, item_at l p = Some x.
Proof.
  unfold item_at, len. intros I. destruct (Z.ltb_spec p 0) as [Hp|Hp]; [lia|].
  destruct (nth_error l (Z.to_nat p)) eqn:E; [eauto|].
  apply nth_error_None in E. lia.
Qed.

Lemma item_at_ext {A} (l l' : list A) :
  (forall p, item_at l p = item_at l' p) -> l = l'.
Proof.
  intros H. apply nth_error_ext. intros n.
  specialize (H (Z.of_nat n)). unfold item_at in H.
  destruct (Z.ltb_spec (Z.of_nat n) 0); [lia|].
  rewrite Nat2Z.id in H. exact H.
Qed.

Lemma item_at_nat {A} (l : list A) (n : nat) :
  item_at l (Z.of_nat n) = nth_error l n.
Proof.
  unfold item_at. destruct (Z.ltb_spec (Z.of_nat n) 0); [lia|].
  now rewrite Nat2Z.id.
Qed.

Lemma py_getitem_eq {A} (l : list A) (i : Z) :
  0 <= i ->
  py_getitem l i = match item_at l i with
                   | Some x => Ok x
                   | None => Raise IndexError
                   end.
Proof.
  intros Hi. unfold py_getitem. destruct (Z.ltb_spec i 0); [lia|reflexivity].
Qed.

Lemma py_getitem_item_at {A} (l : list A) (i : Z) (x : A) :
  0 <= i -> (py_getitem l i = Ok x <-> item_at l i = Some x).
Proof.
  intros Hi. rewrite py_getitem_eq by assumption.
  destruct (item_at l i); split; congruence.
Qed.

Lemma slice_bound_nonneg {A} (l : list A) (i : Z) : 0 <= i -> slice_bound l i = i.
Proof. intros Hi. unfold slice_bound. destruct (Z.ltb_spec i 0); [lia|reflexivity]. Qed.

Lemma nth_error_splice (m d : list byte) (a k : nat) :
  (a + List.length d <= List.length m)%nat ->
  nth_error (firstn a m ++ d ++ skipn (a + List.length d) m) k
  = if (k <? a)%nat then nth_error m k
    else if (k <? a + List.length d)%nat then nth_error d (k - a)
    else nth_error m k.
Proof.
  intros H.
  rewrite nth_error_app, length_firstn, Nat.min_l by lia.
  destruct (Nat.ltb_spec k a) as [Hk|Hk].
  - rewrite nth_error_firstn. destruct (Nat.ltb_spec k a); [reflexivity|lia].
  - rewrite nth_error_app.
    destruct (Nat.ltb_spec (k - a) (List.length d)) as [Hd|Hd];
      destruct (Nat.ltb_spec k (a + List.length d)); try lia; [reflexivity|].
    rewrite nth_error_skipn. f_equal. lia.
Qed.

Lemma item_at_splice (m d : list byte) (a p : Z) :
  0 <= a -> a + len d <= len m ->
  item_at (splice m a d) p
  = if (a <=? p) && (p <? a + len d) then item_at d (p - a) else item_at m p.
Proof.
  intros Ha Hd. unfold item_at, splice, len in *.
  destruct (Z.ltb_spec p 0) as [Hp|Hp].
  - destruct (Z.leb_spec a p); [lia|reflexivity].
  - replace (Z.to_nat (a + Z.of_nat (List.length d)))
      with (Z.to_nat a + List.length d)%nat by lia.
    rewrite nth_error_splice by lia.
    destruct (Nat.ltb_spec (Z.to_nat p) (Z.to_nat a)).
    + destruct (Z.leb_spec a p); [lia|reflexivity].
    + destruct (Z.leb_spec a p); [|lia]. simpl.
      destruct (Nat.ltb_spec (Z.to_nat p) (Z.to_nat a + List.length d));
        destruct (Z.ltb_spec p (a + Z.of_nat (List.length d))); try lia;
        [|reflexivity].
      destruct (Z.ltb_spec (p - a) 0); [lia|]. f_equal. lia.
Qed.

Lemma len_splice (m d : list byte) (a : Z) :
  0 <= a -> a + len d <= len m -> len (splice m a d) = len m.
Proof.
  intros Ha Hd. unfold splice, len in *.
  rewrite !length_app, length_firstn, length_skipn. lia.
Qed.

Lemma splice_nil (m : mmap) (a : Z) : splice m a [] = m.
Proof.
  unfold splice, len. simpl. rewrite Z.add_0_r. apply firstn_skipn.
Qed.

Lemma len_py_slice_le {A} (l : list A) (a b : Z) :
  0 <= a -> len (py_slice l a b) <= Z.max 0 (len l - a).
Proof.
  intros Ha. unfold py_slice, len. rewrite (slice_bound_nonneg l a Ha).
  rewrite length_firstn, length_skipn. lia.
Qed.

Lemma len_py_slice_from {A} (l : list A) (a : Z) :
  0 <= a -> len (py_slice_from l a) = Z.max 0 (len l - a).
Proof.
  intros Ha. unfold py_slice_from, len. rewrite (slice_bound_nonneg l a Ha).
  rewrite length_skipn. lia.
Qed.

Lemma splice_Ok (m : mmap) (a n : Z) (d : list byte) :
  0 <= a -> len d <= Z.max 0 (len m - a) ->
  len (splice m a d) = len m /\
  (d <> [] -> a + len d <= len m) /\
  forall p, item_at (splice m a d) p
            = if (a <=? p) && (p <? a + len d) then item_at d (p - a)
              else item_at m p.
Proof.
  intros Ha Hd. pose proof (len_nonneg m) as Hm.
  destruct d as [|d0 d].
  - rewrite splice_nil. split; [reflexivity|]. split; [congruence|].
    intros p. unfold len; simpl List.length.
    destruct (Z.leb_spec a p); destruct (Z.ltb_spec p (a + Z.of_nat 0)); try lia; reflexivity.
  - assert (0 < len (d0 :: d)) by (unfold len; simpl List.length; lia).
    split; [apply len_splice; lia|].
    split; [intros _; lia|].
    intros p. apply item_at_splice; lia.
Qed.

(** What a slice assignment that returns has done. *)
Lemma mmap_set_slice_Ok (m m' : mmap) (a b : Z) (d : list byte) :
  mmap_set_slice m a b d = Ok m' -> 0 <= a ->
  len m' = len m /\
  (d <> [] -> a + len d <= len m) /\
  forall p, item_at m' p
            = if (a <=? p) && (p <? a + len d) then item_at d (p - a)
              else item_at m p.
Proof.
  unfold mmap_set_slice. intros H Ha.
  destruct (Z.eqb_spec (len d) (len (py_slice m a b))) as [E|E]; [|discriminate].
  injection H as <-. rewrite (slice_bound_nonneg m a Ha).
  apply (splice_Ok m a 0 d Ha). rewrite E. now apply len_py_slice_le.
Qed.

Lemma mmap_set_from_Ok (m m' : mmap) (a : Z) (d : list byte) :
  mmap_set_from m a d = Ok m' -> 0 <= a ->
  len m' = len m /\
  (d <> [] -> a + len d <= len m) /\
  forall p, item_at m' p
            = if (a <=? p) && (p <? a + len d) then item_at d (p - a)
              else item_at m p.
Proof.
  unfold mmap_set_from. intros H Ha.
  destruct (Z.eqb_spec (len d) (len (py_slice_from m a))) as [E|E]; [|discriminate].
  injection H as <-. rewrite (slice_bound_nonneg m a Ha).
  apply (splice_Ok m a 0 d Ha). rewrite E, len_py_slice_from by assumption. lia.
Qed.

Lemma mmap_set_Ok (m m' : mmap) (i v : Z) :
  mmap_set m i v = Ok m' -> 0 <= i ->
  i < len m /\ 0 <= v <= 255 /\ len m' = len m /\
  forall p, item_at m' p = if p =? i then Some (byte_of_Z v) else item_at m p.
Proof.
  unfold mmap_set. intros H Hi.
  destruct (Z.ltb_spec i 0); [lia|].
  destruct (item_at m i) as [b|] eqn:B; [|discriminate].
  apply item_at_range in B.
  destruct (Z.ltb_spec v 0); [discriminate|].
  destruct (Z.ltb_spec 255 v); [discriminate|]. cbn [orb] in H.
  injection H as <-.
  assert (L : len [byte_of_Z v] = 1) by reflexivity.
  repeat split; try lia.
  - apply len_splice; lia.
  - intros p. rewrite item_at_splice by lia. rewrite L.
    destruct (Z.eqb_spec p i) as [->|N].
    + destruct (Z.leb_spec i i); [|lia]. destruct (Z.ltb_spec i (i + 1)); [|lia].
      cbn [andb]. now rewrite Z.sub_diag.
    + destruct (Z.leb_spec i p); destruct (Z.ltb_spec p (i + 1)); try lia; reflexivity.
Qed.

Lemma mmap_get_item_at (m : mmap) (i v : Z) :
  0 <= i ->
  (mmap_get m i = Ok v <-> exists b, item_at m i = Some b /\ v = Z_of_byte b).
Proof.
  intros Hi. unfold mmap_get. split.
  - intros H. inv_bind H. injection H as <-.
    apply py_getitem_item_at in H0; eauto.
  - intros (b & Hb & ->). apply py_getitem_item_at in Hb; [|assumption].
    now rewrite Hb.
Qed.

(** Two files that agree on a window agree on the slice of that window. *)
Lemma nth_error_py_slice {A} (l : list A) (a b : Z) (k : nat) :
  0 <= a -> 0 <= b ->
  nth_error (py_slice l a b) k
  = if Z.of_nat k <? b - a then item_at l (a + Z.of_nat k) else None.
Proof.
  intros Ha Hb. unfold py_slice.
  rewrite (slice_bound_nonneg l a Ha), (slice_bound_nonneg l b Hb).
  rewrite nth_error_firstn, nth_error_skipn.
  destruct (Nat.ltb_spec k (Z.to_nat (b - a))) as [Hk|Hk];
    destruct (Z.ltb_spec (Z.of_nat k) (b - a)); try lia; [|reflexivity].
  unfold item_at. destruct (Z.ltb_spec (a + Z.of_nat k) 0); [lia|].
  f_equal. lia.
Qed.

Lemma py_slice_ext {A} (l l' : list A) (a b : Z) :
  0 <= a -> 0 <= b ->
  (forall p, a <= p < b -> item_at l p = item_at l' p) ->
  py_slice l a b = py_slice l' a b.
Proof.
  intros Ha Hb H. apply nth_error_ext. intros k.
  rewrite !nth_error_py_slice by assumption.
  destruct (Z.ltb_spec (Z.of_nat k) (b - a)); [|reflexivity].
  apply H. lia.
Qed.

(** The slice of a window that holds [d] is [d]. *)
Lemma py_slice_window (m : mmap) (d : list byte) (a : Z) :
  0 <= a ->
  (forall p, a <= p < a + len d -> item_at m p = item_at d (p - a)) ->
  py_slice m a (a + len d) = d.
Proof.
  intros Ha H. apply nth_error_ext. intros k.
  pose proof (len_nonneg d) as Hd.
  rewrite nth_error_py_slice by lia.
  destruct (Z.ltb_spec (Z.of_nat k) (a + len d - a)) as [Hk|Hk].
  - rewrite H by lia. replace (a + Z.of_nat k - a) with (Z.of_nat k) by lia.
    apply item_at_nat.
  - symmetry. apply nth_error_None. unfold len in Hk. lia.
Qed.
(** ** The steps of Chunk.write *)

Lemma int_to_bytes_Ok (v : Z) (n : nat) (b : list byte) :
  int_to_bytes v n = Ok b ->
  b = be_bytes n v /\ 0 <= v < 256 ^ Z.of_nat n /\ len b = Z.of_nat n
  /\ int_from_bytes b = v.
Proof.
  unfold int_to_bytes. intros H.
  destruct (Z.leb_spec 0 v); [|discriminate].
  destruct (Z.ltb_spec v (256 ^ Z.of_nat n)); [|discriminate].
  injection H as <-. repeat split; try lia.
  - unfold len. now rewrite length_be_bytes.
  - rewrite int_from_be_bytes. apply Z.mod_small. lia.
Qed.

Lemma len_py_slice {A} (l : list A) (a b : Z) :
  0 <= a -> 0 <= b -> len (py_slice l a b) <= Z.max 0 (b - a).
Proof.
  intros Ha Hb. unfold py_slice, len.
  rewrite (slice_bound_nonneg l a Ha), (slice_bound_nonneg l b Hb).
  rewrite length_firstn. lia.
Qed.

Lemma entry_offset_range (m : mmap) (i : Z) :
  0 <= i -> 0 <= entry_offset m i < 256 ^ 3.
Proof.
  intros Hi. unfold entry_offset.
  pose proof (int_from_bytes_range (py_slice m (i * 4) (i * 4 + 3))) as R.
  pose proof (len_py_slice m (i * 4) (i * 4 + 3) ltac:(lia) ltac:(lia)) as L.
  pose proof (len_nonneg (py_slice m (i * 4) (i * 4 + 3))) as N.
  assert (256 ^ len (py_slice m (i * 4) (i * 4 + 3)) <= 256 ^ 3)
    by (apply Z.pow_le_mono_r; lia).
  lia.
Qed.

Lemma entry_offset_ext (m m' : mmap) (i : Z) :
  0 <= i ->
  (forall p, i * 4 <= p < i * 4 + 3 -> item_at m p = item_at m' p) ->
  entry_offset m i = entry_offset m' i.
Proof.
  intros Hi H. unfold entry_offset. f_equal. apply py_slice_ext; [lia|lia|exact H].
Qed.

Lemma bump_entry_Ok (offset change : Z) (m m' : mmap) (i : Z) :
  0 <= i -> bump_entry offset change m i = Ok m' ->
  len m' = len m /\
  (forall p, ~ (i * 4 <= p < i * 4 + 3) -> item_at m' p = item_at m p) /\
  entry_offset m' i = bumped offset change (entry_offset m i).
Proof.
  intros Hi H. unfold bump_entry in H. unfold bumped.
  destruct (entry_offset m i >? offset) eqn:G.
  - inv_bind H. apply int_to_bytes_Ok in H0 as (-> & R & L & V).
    apply mmap_set_slice_Ok in H as (L' & F & I); [|lia].
    split; [exact L'|]. split.
    + intros p Hp. rewrite I. rewrite L.
      destruct (Z.leb_spec (i * 4) p); destruct (Z.ltb_spec p (i * 4 + Z.of_nat 3));
        try reflexivity; lia.
    + unfold entry_offset at 1.
      replace (i * 4 + 3) with (i * 4 + len (be_bytes 3 (entry_offset m i + change)))
        by (rewrite L; lia).
      rewrite py_slice_window; [exact V|lia|].
      intros p Hp. rewrite I.
      destruct (Z.leb_spec (i * 4) p); [|lia].
      destruct (Z.ltb_spec p (i * 4 + len (be_bytes 3 (entry_offset m i + change))));
        [reflexivity|lia].
  - injection H as <-. split; [reflexivity|]. split; reflexivity.
Qed.

Lemma bump_entries_Ok (offset change : Z) (l : list Z) :
  forall m m', NoDup l -> (forall i, In i l -> 0 <= i) ->
  foldM (bump_entry offset change) l m = Ok m' ->
  len m' = len m /\
  (forall p, (forall i, In i l -> ~ (i * 4 <= p < i * 4 + 3)) ->
             item_at m' p = item_at m p) /\
  (forall i, In i l -> entry_offset m' i = bumped offset change (entry_offset m i)).
Proof.
  induction l as [|x l IH]; intros m m' ND Pos H; cbn [foldM] in H.
  - injection H as <-. split; [reflexivity|]. split; [reflexivity|]. intros i [].
  - inv_bind H. inversion ND as [|? ? Nx ND']; subst.
    apply bump_entry_Ok in H0 as (L1 & F1 & E1); [|apply Pos; now left].
    apply IH in H as (L2 & F2 & E2); [|assumption|intros; apply Pos; now right].
    split; [congruence|]. split.
    + intros p Hp. rewrite F2 by (intros i Hi; apply Hp; now right).
      apply F1. apply Hp. now left.
    + intros i [<-|Hi].
      * rewrite <- E1. apply entry_offset_ext; [apply Pos; now left|].
        intros p Hp. apply F2. intros j Hj Hq.
        assert (j = x) by lia. subst j. contradiction.
      * rewrite E2 by assumption. f_equal.
        apply entry_offset_ext; [apply Pos; now right|].
        intros p Hp. apply F1. intros Hq.
        assert (i = x) by lia. subst i. contradiction.
Qed.

Lemma In_range (n : nat) (i : Z) : In i (range n) <-> 0 <= i < Z.of_nat n.
Proof.
  unfold range. rewrite in_map_iff. split.
  - intros (k & <- & Hk). apply in_seq in Hk. lia.
  - intros H. exists (Z.to_nat i). split; [lia|]. apply in_seq. lia.
Qed.

Lemma NoDup_range (n : nat) : NoDup (range n).
Proof.
  unfold range. apply Injective_map_NoDup; [|apply seq_NoDup].
  intros a b. lia.
Qed.

Lemma mmap_resize_Ok (m m' : mmap) (n : Z) :
  mmap_resize m n = Ok m' ->
  0 < n /\ len m' = n /\
  forall p, p < Z.min n (len m) -> item_at m' p = item_at m p.
Proof.
  unfold mmap_resize. intros H.
  destruct (Z.leb_spec n 0); [discriminate|].
  destruct (Z.leb_spec n (len m)) as [Hn|Hn]; injection H as <-.
  - split; [lia|]. split.
    + unfold len in *. rewrite length_firstn. lia.
    + intros p Hp. unfold item_at. destruct (Z.ltb_spec p 0); [reflexivity|].
      rewrite nth_error_firstn.
      destruct (Nat.ltb_spec (Z.to_nat p) (Z.to_nat n)); [reflexivity|lia].
  - split; [lia|]. split.
    + unfold len in *. rewrite length_app, repeat_length. lia.
    + intros p Hp. unfold item_at. destruct (Z.ltb_spec p 0); [reflexivity|].
      rewrite nth_error_app. unfold len in *.
      destruct (Nat.ltb_spec (Z.to_nat p) (List.length m)); [reflexivity|lia].
Qed.

Lemma item_at_py_slice_from {A} (l : list A) (a k : Z) :
  0 <= a -> 0 <= k -> item_at (py_slice_from l a) k = item_at l (a + k).
Proof.
  intros Ha Hk. unfold py_slice_from, item_at.
  rewrite (slice_bound_nonneg l a Ha).
  destruct (Z.ltb_spec k 0); [lia|]. destruct (Z.ltb_spec (a + k) 0); [lia|].
  rewrite nth_error_skipn. f_equal. lia.
Qed.

(** Lines 188-192: the file changes its length by the sector change, the
    bytes before the new start stay and the bytes from the old start on
    move by the sector change. *)
Lemma move_following_Ok (offset oldCount change : Z) (m m' : mmap) :
  0 <= offset + oldCount -> 0 <= offset + oldCount + change ->
  move_following offset oldCount change m = Ok m' ->
  len m' = len m + change * 4096 /\
  (forall p, p < 4096 * (offset + oldCount + change) ->
             p < len m -> p < len m + change * 4096 ->
             item_at m' p = item_at m p) /\
  (forall p, 4096 * (offset + oldCount) <= p ->
             item_at m' (p + change * 4096) = item_at m p).
Proof.
  intros H0 H1 H. unfold move_following in H. inv_bind H.
  apply mmap_resize_Ok in H2 as (Hn & L1 & I1).
  apply mmap_set_from_Ok in H as (L2 & _ & I2); [|lia].
  pose proof (len_py_slice_from m (4096 * (offset + oldCount)) ltac:(lia)) as LD.
  split; [lia|]. split.
  - intros p Hp Hl Hl'. rewrite I2.
    destruct (Z.leb_spec (4096 * (offset + oldCount) + 4096 * change) p); [lia|].
    cbn [andb]. apply I1. lia.
  - intros p Hp. rewrite I2.
    destruct (Z.leb_spec (4096 * (offset + oldCount) + 4096 * change) (p + change * 4096));
      [|lia].
    destruct (Z.ltb_spec (p + change * 4096)
                (4096 * (offset + oldCount) + 4096 * change
                 + len (py_slice_from m (4096 * (offset + oldCount))))) as [Q|Q]; cbn [andb].
    + rewrite item_at_py_slice_from by lia. f_equal. lia.
    + rewrite (item_at_outside m p) by lia.
      apply item_at_outside. lia.
Qed.

Lemma mmap_get_range (m : mmap) (p v : Z) : mmap_get m p = Ok v -> 0 <= v < 256.
Proof.
  unfold mmap_get. intros H. inv_bind H. injection H as <-. apply Z_of_byte_range.
Qed.

Lemma mapM_In_l {A B} (f : A -> result B) (l : list A) :
  forall ys x, mapM f l = Ok ys -> In x l -> exists y, In y ys /\ f x = Ok y.
Proof.
  induction l as [|x0 l IH]; intros ys x H I; cbn [mapM] in H; [destruct I|].
  inv_bind H. inv_bind H. injection H as <-. destruct I as [<-|I].
  - exists a. split; [now left|assumption].
  - destruct (IH _ _ H1 I) as (y & Iy & Hy). exists y. split; [now right|assumption].
Qed.

Lemma mapM_In_r {A B} (f : A -> result B) (l : list A) :
  forall ys y, mapM f l = Ok ys -> In y ys -> exists x, In x l /\ f x = Ok y.
Proof.
  induction l as [|x0 l IH]; intros ys y H I; cbn [mapM] in H.
  - injection H as <-. destruct I.
  - inv_bind H. inv_bind H. injection H as <-. destruct I as [<-|I].
    + exists x0. split; [now left|assumption].
    + destruct (IH _ _ H1 I) as (x & Ix & Hx). exists x. split; [now right|assumption].
Qed.

Lemma fold_max_spec (l : list Z) :
  forall a, let r := fold_left Z.max l a in
  a <= r /\ (forall x, In x l -> x <= r) /\ (r = a \/ In r l).
Proof.
  induction l as [|x l IH]; intros a; cbn [fold_left].
  - split; [lia|]. split; [intros x []|now left].
  - specialize (IH (Z.max a x)). cbv zeta in IH.
    destruct IH as (A1 & A2 & A3).
    split; [lia|]. split.
    + intros y [<-|Hy]; [lia|auto].
    + destruct A3 as [E|I]; [|right; now right].
      destruct (Z.max_spec a x) as [(_ & M)|(_ & M)].
      * right. left. congruence.
      * left. congruence.
Qed.

(** Lines 160-168: what the offset and the scheme of the slot are. *)
Lemma find_slot_Ok (MCA : mmap) (h offset compression : Z) :
  find_slot MCA h = Ok (offset, compression) ->
  let field := int_from_bytes (py_slice MCA h (h + 3)) in
  (field = 0 /\ compression = 2 /\ 2 <= offset /\
   (forall i, 0 <= i < 1024 -> exists e, entry_end MCA i = Ok e /\ e <= offset) /\
   (offset = 2 \/ exists i, 0 <= i < 1024 /\ entry_end MCA i = Ok offset))
  \/ (field <> 0 /\ offset = field /\ mmap_get MCA (4096 * field + 4) = Ok compression).
Proof.
  unfold find_slot. intros H. cbv zeta.
  destruct (Z.eqb_spec (int_from_bytes (py_slice MCA h (h + 3))) 0) as [E|E].
  - left. inv_bind H. injection H as <- <-.
    destruct (fold_max_spec a 2) as (M1 & M2 & M3).
    split; [assumption|]. split; [reflexivity|]. split; [assumption|]. split.
    + intros i Hi.
      assert (In i (range 1024)) as I by (apply In_range; lia).
      destruct (mapM_In_l _ _ _ _ H0 I) as (e & Ie & He).
      exists e. split; [assumption|]. now apply M2.
    + destruct M3 as [M3|M3]; [now left|right].
      destruct (mapM_In_r _ _ _ _ H0 M3) as (i & Ii & Hi).
      exists i. split; [|assumption]. apply In_range in Ii. lia.
  - right. inv_bind H. injection H as <- <-. auto.
Qed.

Lemma find_slot_offset (MCA : mmap) (h offset compression : Z) :
  find_slot MCA h = Ok (offset, compression) -> 1 <= offset.
Proof.
  intros H. apply find_slot_Ok in H. cbv zeta in H.
  pose proof (int_from_bytes_range (py_slice MCA h (h + 3))).
  destruct H as [(_ & _ & ? & _)|(? & ? & _)]; lia.
Qed.

Lemma header_of_range (x z : Z) :
  0 <= header_of x z < 1024 /\ header_of x z = header_of x z / 4 * 4.
Proof.
  unfold header_of. split; [apply Z.mod_pos_bound; lia|].
  assert ((4 * (x + z * 32)) mod 1024 = 4 * ((x + z * 32) mod 256)) as ->.
  { replace 1024 with (4 * 256) by lia. rewrite Z.mul_mod_distr_l by lia. reflexivity. }
  rewrite (Z.mul_comm 4), Z.div_mul by lia. reflexivity.
Qed.

(** Lines 195-203: every byte of the file after the writes of the slot. *)
Lemma commit_slot_Ok (h o n ts length c : Z) (data : list byte) (m m' : mmap) :
  0 <= h -> 0 <= o ->
  commit_slot h o n ts length c data m = Ok m' ->
  len m' = len m /\ 0 <= o < 256 ^ 3 /\ 0 <= n <= 255 /\ 0 <= length < 256 ^ 4
  /\ h + 4100 <= len m /\
  forall p, item_at m' p =
    if (o * 4096 + 5 <=? p) && (p <? o * 4096 + 5 + len data)
    then item_at data (p - (o * 4096 + 5))
    else if p =? o * 4096 + 4 then Some (byte_of_Z c)
    else if (o * 4096 <=? p) && (p <? o * 4096 + 4)
    then item_at (be_bytes 4 length) (p - o * 4096)
    else if (h + 4096 <=? p) && (p <? h + 4096 + 4)
    then item_at (be_bytes 4 ts) (p - (h + 4096))
    else if p =? h + 3 then Some (byte_of_Z n)
    else if (h <=? p) && (p <? h + 3) then item_at (be_bytes 3 o) (p - h)
    else item_at m p.
Proof.
  intros Hh Ho H. unfold commit_slot in H.
  inv_bind H. apply int_to_bytes_Ok in H0 as (-> & R0 & L0 & _).
  inv_bind H. apply mmap_set_slice_Ok in H0 as (L1 & _ & I1); [|lia].
  inv_bind H. apply mmap_set_Ok in H0 as (_ & R2 & L2 & I2); [|lia].
  inv_bind H. apply int_to_bytes_Ok in H0 as (-> & R3 & L3 & _).
  inv_bind H. apply mmap_set_slice_Ok in H0 as (L4 & F4 & I4); [|lia].
  inv_bind H. apply int_to_bytes_Ok in H0 as (-> & R5 & L5 & _).
  inv_bind H. apply mmap_set_slice_Ok in H0 as (L6 & _ & I6); [|lia].
  inv_bind H. apply mmap_set_Ok in H0 as (_ & R7 & L7 & I7); [|lia].
  apply mmap_set_slice_Ok in H as (L8 & _ & I8); [|lia].
  split; [congruence|]. split; [assumption|]. split; [assumption|].
  split; [assumption|]. split.
  { assert (be_bytes 4 ts <> []) as N by (intros E; rewrite E in L3; discriminate).
    specialize (F4 N). rewrite L3 in F4. lia. }
  intros p. rewrite I8, I7, I6, I4, I2, I1, L0, L3, L5.
  reflexivity.
Qed.
(** ** Chunk.write *)

Section RegionTheorems.

Variable compress : list byte -> Z -> list byte.

Lemma write_mapped_Ok (x z : Z) (nbt : list byte) (ts : Z) (MCA MCA' : mmap) :
  write_mapped compress x z nbt ts MCA = Ok MCA' ->
  exists offset compression oldCount MCA1,
    find_slot MCA (header_of x z) = Ok (offset, compression) /\
    mmap_get MCA (header_of x z + 3) = Ok oldCount /\
    resize_slot offset oldCount
      (1 + (len (compress nbt compression) + 1) / 4096 - oldCount) MCA = Ok MCA1 /\
    commit_slot (header_of x z) offset
      (1 + (len (compress nbt compression) + 1) / 4096) ts
      (len (compress nbt compression) + 1) compression
      (compress nbt compression) MCA1 = Ok MCA'.
Proof.
  unfold write_mapped. intros H.
  inv_bind H. destruct a as (offset, compression).
  inv_bind H. inv_bind H.
  exists offset, compression, a, a0. auto.
Qed.

(** C5: a write that returns has recorded, in the sector-count byte of the
    slot, exactly [1 + (L + 1) // 4096] for the compressed length [L], and has
    stored [L + 1] as the length field of the payload. *)
Theorem write_records_sector_count (x z : Z) (nbt : list byte) (ts : Z)
    (MCA MCA' : mmap) :
  write_mapped compress x z nbt ts MCA = Ok MCA' ->
  exists offset compression,
    find_slot MCA (header_of x z) = Ok (offset, compression) /\
    mmap_get MCA' (header_of x z + 3)
    = Ok (1 + (len (compress nbt compression) + 1) / 4096) /\
    int_from_bytes (py_slice MCA' (offset * 4096) (offset * 4096 + 4))
    = len (compress nbt compression) + 1.
Proof.
  intros H. apply write_mapped_Ok in H as (o & c & old & m1 & F & G & R & C).
  exists o, c. split; [exact F|].
  pose proof (find_slot_offset _ _ _ _ F) as Ho.
  destruct (header_of_range x z) as (Hh & _).
  apply commit_slot_Ok in C as (L & Ro & Rn & Rl & Fit & I); [|lia|lia].
  set (h := header_of x z) in *.
  set (data := compress nbt c) in *.
  pose proof (len_nonneg data) as Hd.
  split.
  - apply mmap_get_item_at; [lia|]. exists (byte_of_Z (1 + (len data + 1) / 4096)).
    split; [|symmetry; apply Z_of_byte_of_Z; lia].
    rewrite I.
    destruct (Z.leb_spec (o * 4096 + 5) (h + 3)); [lia|]. cbn [andb].
    destruct (Z.eqb_spec (h + 3) (o * 4096 + 4)); [lia|].
    destruct (Z.leb_spec (o * 4096) (h + 3)); [lia|]. cbn [andb].
    destruct (Z.leb_spec (h + 4096) (h + 3)); [lia|]. cbn [andb].
    now rewrite Z.eqb_refl.
  - assert (LB : len (be_bytes 4 (len data + 1)) = 4)
      by (unfold len; now rewrite length_be_bytes).
    replace (o * 4096 + 4) with (o * 4096 + len (be_bytes 4 (len data + 1)))
      by (rewrite LB; reflexivity).
    rewrite py_slice_window.
    + rewrite int_from_be_bytes. apply Z.mod_small. exact Rl.
    + lia.
    + intros p Hp. rewrite LB in Hp. rewrite I.
      destruct (Z.leb_spec (o * 4096 + 5) p); [lia|]. cbn [andb].
      destruct (Z.eqb_spec p (o * 4096 + 4)); [lia|].
      destruct (Z.leb_spec (o * 4096) p); [|lia].
      destruct (Z.ltb_spec p (o * 4096 + 4)); [|lia]. reflexivity.
Qed.

(** C3, as amended: the slot is new when its 3-byte offset field is 0, and
    then the offset that a returning write records is the largest of 2 and of
    the ends [offset + sectorCount] of the 1024 entries (2 on an all-zero
    header) and the scheme is 2; when the field is not 0, whatever the sector
    count is, the write keeps the offset and takes the scheme byte of the
    payload in the file. *)
Theorem write_chooses_offset (x z : Z) (nbt : list byte) (ts : Z)
    (MCA MCA' : mmap) :
  write_mapped compress x z nbt ts MCA = Ok MCA' ->
  let h := header_of x z in
  let field := int_from_bytes (py_slice MCA h (h + 3)) in
  exists offset compression,
    int_from_bytes (py_slice MCA' h (h + 3)) = offset /\
    mmap_get MCA' (offset * 4096 + 4) = Ok compression /\
    (field = 0 ->
       compression = 2 /\ 2 <= offset /\
       (forall i, 0 <= i < 1024 -> exists e, entry_end MCA i = Ok e /\ e <= offset) /\
       (offset = 2 \/ exists i, 0 <= i < 1024 /\ entry_end MCA i = Ok offset) /\
       ((forall i, 0 <= i < 1024 -> entry_end MCA i = Ok 0) -> offset = 2)) /\
    (field <> 0 ->
       offset = field /\ mmap_get MCA (4096 * field + 4) = Ok compression).
Proof.
  intros H h field.
  apply write_mapped_Ok in H as (o & c & old & m1 & F & G & R & C).
  exists o, c.
  pose proof (find_slot_offset _ _ _ _ F) as Ho.
  destruct (header_of_range x z) as (Hh & _). fold h in Hh.
  pose proof C as C'.
  apply commit_slot_Ok in C as (L & Ro & Rn & Rl & Fit & I); [|lia|lia].
  fold h in I, Fit.
  set (data := compress nbt c) in *.
  pose proof (len_nonneg data) as Hd.
  split; [|split].
  - assert (LB : len (be_bytes 3 o) = 3) by (unfold len; now rewrite length_be_bytes).
    replace (h + 3) with (h + len (be_bytes 3 o)) by (rewrite LB; reflexivity).
    rewrite py_slice_window.
    + rewrite int_from_be_bytes. apply Z.mod_small. exact Ro.
    + lia.
    + intros p Hp. rewrite LB in Hp. rewrite I.
      destruct (Z.leb_spec (o * 4096 + 5) p); [lia|]. cbn [andb].
      destruct (Z.eqb_spec p (o * 4096 + 4)); [lia|].
      destruct (Z.leb_spec (o * 4096) p); [lia|]. cbn [andb].
      destruct (Z.leb_spec (h + 4096) p); [lia|]. cbn [andb].
      destruct (Z.eqb_spec p (h + 3)); [lia|].
      destruct (Z.leb_spec h p); [|lia].
      destruct (Z.ltb_spec p (h + 3)); [|lia]. reflexivity.
  - unfold commit_slot in C'.
    do 8 inv_bind C'. apply mmap_set_Ok in C'7 as (_ & Rc & _ & _); [|lia].
    apply mmap_get_item_at; [lia|]. exists (byte_of_Z c).
    split; [|symmetry; apply Z_of_byte_of_Z; lia].
    rewrite I.
    destruct (Z.leb_spec (o * 4096 + 5) (o * 4096 + 4)); [lia|]. cbn [andb].
    now rewrite Z.eqb_refl.
  - apply find_slot_Ok in F. cbv zeta in F. fold h in F. fold field in F.
    destruct F as [(F0 & -> & F2 & F3 & F4)|(F0 & -> & F2)].
    + split; [|intros N; contradiction].
      intros _. split; [reflexivity|]. split; [assumption|].
      split; [assumption|]. split; [assumption|].
      intros Z0. destruct F4 as [E|(i & Hi & E)]; [assumption|].
      rewrite (Z0 i Hi) in E. injection E as <-. lia.
    + split; [intros N; contradiction|]. intros _. split; [reflexivity|assumption].
Qed.


End RegionTheorems.
(** ** The theorems on the sample files *)

Lemma write_records_sector_count_witness :
  exists offset compression,
    find_slot empty_region (header_of 0 0) = Ok (offset, compression) /\
    mmap_get first_region (header_of 0 0 + 3)
    = Ok (1 + (len (store_raw [x01; x02] compression) + 1) / 4096) /\
    int_from_bytes (py_slice first_region (offset * 4096) (offset * 4096 + 4))
    = len (store_raw [x01; x02] compression) + 1.
Proof.
  apply (write_records_sector_count store_raw 0 0 [x01; x02] 7 empty_region first_region).
  vm_cast_no_check (eq_refl (Ok first_region)).
Defined.

Lemma write_chooses_offset_witness :
  int_from_bytes (py_slice first_region 0 3) = 2 /\
  int_from_bytes (py_slice kept_region 0 3) = 1.
Proof.
  split.
  - destruct (write_chooses_offset store_raw 0 0 [x01; x02] 7 empty_region first_region)
      as (o & c & E & _ & A & _); [vm_cast_no_check (eq_refl (Ok first_region))|].
    destruct (A eq_refl) as (_ & _ & _ & _ & Z0).
    change (header_of 0 0) with 0 in E. change (0 + 3) with 3 in E.
    rewrite E. apply Z0. intros i Hi.
    assert (F : forallb (fun i => match entry_end empty_region i with
                                  | Ok 0 => true
                                  | _ => false
                                  end) (range 1024) = true)
      by (vm_compute; reflexivity).
    rewrite forallb_forall in F.
    specialize (F i ltac:(apply In_range; lia)).
    destruct (entry_end empty_region i) as [[| |]|]; congruence.
  - destruct (write_chooses_offset store_raw 0 0 [x01] 7 sector_1_region kept_region)
      as (o & c & E & _ & _ & B); [vm_cast_no_check (eq_refl (Ok kept_region))|].
    destruct B as (B & _); [vm_compute; discriminate|].
    change (header_of 0 0) with 0 in E. change (0 + 3) with 3 in E.
    rewrite E, B. vm_compute. reflexivity.
Defined.


(** C3, as stated, fails: the first entry of [sector_1_region] has the sector
    offset 1, below 2, so that the chunk is absent by the format, and the
    largest end of an entry is 2; yet the write keeps the offset 1. *)
Lemma write_keeps_sector_1 :
  entry_offset sector_1_region 0 = 1 /\
  mapM (entry_end sector_1_region) (range 1024) = Ok (2 :: repeat 0 1023) /\
  fold_left Z.max (2 :: repeat 0 1023) 2 = 2 /\
  find_slot sector_1_region (header_of 0 0) = Ok (1, 0) /\
  write_mapped store_raw 0 0 [x01] 7 sector_1_region = Ok kept_region /\
  entry_offset kept_region 0 = 1.
Proof.
  split; [vm_compute; reflexivity|].
  split; [vm_compute; reflexivity|].
  split; [vm_compute; reflexivity|].
  split; [vm_compute; reflexivity|].
  split; [vm_cast_no_check (eq_refl (Ok kept_region))|].
  vm_compute; reflexivity.
Qed.

(** C4: the position of the entry wraps at 1024 bytes, a quarter of the
    location table, so that chunk (0, 8), whose entry is at byte 1024 and is
    zero in [two_chunk_region], is opened from the entry of chunk (0, 0); and
    an entry with the sector offset 1 is read, not reported missing. *)
Theorem open_wraps_header :
  (forall x z, 0 <= header_of x z < 1024) /\
  header_of 0 8 = 0 /\
  4 * (0 mod 32 + 32 * (8 mod 32)) = 1024 /\
  entry_offset two_chunk_region 256 = 0 /\
  open_mapped 0 8 two_chunk_region = Ok (0, 3, [x01]) /\
  open_mapped 0 0 two_chunk_region = Ok (0, 3, [x01]) /\
  open_mapped 0 0 sector_1_region = Ok (0, 0, []).
Proof.
  split; [intros x z; apply header_of_range|].
  repeat split; vm_compute; reflexivity.
Qed.
(** ** UTF-8 *)

Ltac Z_of_byte_small :=
  repeat rewrite Z_of_byte_of_Z by (Z.div_mod_to_equations; lia).

(* [bytes_decode] on the bytes of the goal, which stay folded. *)
Ltac decode_head :=
  repeat match goal with
         | |- context [byte_of_Z ?x] =>
           let b := fresh "b" in
           let E := fresh "E" in
           remember (byte_of_Z x) as b eqn:E
         end;
  cbn [app bytes_decode];
  subst.

Lemma decode_code_point (c : Z) (b r : list byte) :
  encode_code_point c = Ok b ->
  bytes_decode (b ++ r) = (s <- bytes_decode r ;; Ok (c :: s)).
Proof.
  unfold encode_code_point, surrogate.
  destruct (Z.ltb_spec c 0); [discriminate|].
  destruct (Z.ltb_spec c 128).
  { intros HH; apply Ok_inj in HH; subst b. decode_head. Z_of_byte_small.
    destruct (Z.ltb_spec c 128); [reflexivity|lia]. }
  destruct (Z.ltb_spec c 2048).
  { intros HH; apply Ok_inj in HH; subst b. decode_head. unfold continuation. Z_of_byte_small.
    repeat match goal with
           | |- context [?a <? ?b] => destruct (Z.ltb_spec a b);
                                      try (Z.div_mod_to_equations; lia)
           | |- context [?a <=? ?b] => destruct (Z.leb_spec a b);
                                       try (Z.div_mod_to_equations; lia)
           end.
    cbn [andb].
    replace ((192 + c / 64 - 192) * 64 + (128 + c mod 64 - 128)) with c
      by (Z.div_mod_to_equations; lia).
    reflexivity. }
  destruct (Z.ltb_spec c 65536).
  { destruct (Z.leb_spec 55296 c); destruct (Z.leb_spec c 57343); cbn [andb];
      try discriminate.
    all: intros HH; apply Ok_inj in HH; subst b; decode_head; unfold continuation, surrogate;
      Z_of_byte_small.
    all: repeat match goal with
           | |- context [?a <? ?b] => destruct (Z.ltb_spec a b);
                                      try (Z.div_mod_to_equations; lia)
           | |- context [?a <=? ?b] => destruct (Z.leb_spec a b);
                                       try (Z.div_mod_to_equations; lia)
           end.
    all: cbn [andb negb];
      replace ((224 + c / 4096 - 224) * 4096 + (128 + (c / 64) mod 64 - 128) * 64
               + (128 + c mod 64 - 128)) with c in *
        by (Z.div_mod_to_equations; lia);
      reflexivity. }
  destruct (Z.ltb_spec c 1114112); [|discriminate].
  intros HH; apply Ok_inj in HH; subst b. decode_head. unfold continuation. Z_of_byte_small.
  repeat match goal with
         | |- context [?a <? ?b] => destruct (Z.ltb_spec a b);
                                    try (Z.div_mod_to_equations; lia)
         | |- context [?a <=? ?b] => destruct (Z.leb_spec a b);
                                     try (Z.div_mod_to_equations; lia)
         end.
  cbn [andb].
  replace ((240 + c / 262144 - 240) * 262144 + (128 + (c / 4096) mod 64 - 128) * 4096
           + (128 + (c / 64) mod 64 - 128) * 64 + (128 + c mod 64 - 128)) with c in *
    by (Z.div_mod_to_equations; lia).
  reflexivity.
Qed.

(** Decoding undoes encoding. *)
Lemma bytes_decode_str_encode (s : str) :
  forall e, str_encode s = Ok e -> bytes_decode e = Ok s.
Proof.
  induction s as [|c s IH]; intros e H; cbn [str_encode] in H.
  - injection H as <-. reflexivity.
  - inv_bind H. inv_bind H. injection H as <-.
    rewrite (decode_code_point _ _ _ H0), (IH _ H1). reflexivity.
Qed.
(** ** Numbers and strings on the wire *)

Ltac pow256 :=
  repeat match goal with
         | |- context [256 ^ Z.of_nat ?n] =>
           let v := eval vm_compute in (256 ^ Z.of_nat n) in
           change (256 ^ Z.of_nat n) with v
         | H : context [256 ^ Z.of_nat ?n] |- _ =>
           let v := eval vm_compute in (256 ^ Z.of_nat n) in
           change (256 ^ Z.of_nat n) with v in H
         end.

Lemma pack_Ok (f : fmt) (v : Z) (b : list byte) :
  pack f v = Ok b ->
  b = be_bytes (calcsize f) v /\ List.length b = calcsize f.
Proof.
  unfold pack. intros H.
  destruct ((_ <=? v) && (v <? _)); [|discriminate].
  apply Ok_inj in H. subst b. split; [reflexivity|apply length_be_bytes].
Qed.

Lemma unpack_pack (f : fmt) (v : Z) (b : list byte) :
  pack f v = Ok b -> unpack f b = Ok v.
Proof.
  intros H. pose proof (pack_Ok _ _ _ H) as (-> & L).
  unfold unpack. rewrite L, Nat.eqb_refl. cbn [negb].
  rewrite int_from_be_bytes. unfold pack in H.
  destruct f; cbn [calcsize signed andb] in *; pow256;
    change (Z.of_nat 1) with 1 in *; change (256 ^ 1) with 256 in *;
    repeat match goal with
           | H : context [?a <=? ?b] |- _ => destruct (Z.leb_spec a b); cbn [andb] in H
           | H : context [?a <? ?b] |- _ => destruct (Z.ltb_spec a b); cbn [andb] in H
           end; try discriminate;
    repeat match goal with
           | |- context [?a <=? ?b] => destruct (Z.leb_spec a b)
           end;
    f_equal; Z.div_mod_to_equations; lia.
Qed.

Lemma read_bytes_app (b rest : list byte) :
  read_bytes (b ++ rest) (len b) = Ok (b, rest).
Proof.
  unfold read_bytes. rewrite len_app.
  pose proof (len_nonneg rest).
  destruct (Z.ltb_spec (len b + len rest) (len b)); [lia|].
  unfold len. rewrite Nat2Z.id, firstn_app, skipn_app, Nat.sub_diag.
  rewrite firstn_all, skipn_all. cbn [firstn skipn]. now rewrite app_nil_r.
Qed.

Lemma Number_new_Ok (c : number_cls) (v : Z) (b : list byte) :
  pack (fmt_of c) v = Ok b -> Number_new c v = Ok (T_Number c v).
Proof. intros H. unfold Number_new. now rewrite H. Qed.

(** A number comes back from its bytes, and its bytes only are read. *)
Lemma Number_from_bytes_to_bytes (c : number_cls) (v : Z) (b rest : list byte) :
  Number_to_bytes c v = Ok b ->
  Number_from_bytes c (b ++ rest) = Ok (T_Number c v, rest).
Proof.
  unfold Number_to_bytes, Number_from_bytes. intros H.
  pose proof (pack_Ok _ _ _ H) as (_ & L).
  replace (Z.of_nat (calcsize (fmt_of c))) with (len b) by (unfold len; now rewrite L).
  rewrite read_bytes_app. cbn [bind].
  rewrite (unpack_pack _ _ _ H). cbn [bind].
  rewrite (Number_new_Ok _ _ _ H). reflexivity.
Qed.

Lemma pack_h_Ok (n : Z) :
  0 <= n <= 32767 -> pack fmt_h n = Ok (be_bytes 2 n).
Proof.
  intros H. unfold pack. cbn [calcsize signed]. pow256.
  change (65536 / 2) with 32768.
  destruct (Z.leb_spec (Z.opp 32768) n); [|lia].
  destruct (Z.ltb_spec n 32768); [reflexivity|lia].
Qed.

Lemma pack_h_Raise (n : Z) :
  32767 < n -> pack fmt_h n = Raise StructError.
Proof.
  intros H. unfold pack. cbn [calcsize signed]. pow256.
  change (65536 / 2) with 32768.
  destruct (Z.ltb_spec n 32768); [lia|]. now rewrite andb_false_r.
Qed.

(** What [TAG_String.from_bytes] does with a length from 0 to 32767. *)
Lemma String_from_bytes_prefix (n : Z) (bs rest : list byte) :
  0 <= n <= 32767 -> len bs = n ->
  String_from_bytes (be_bytes 2 n ++ bs ++ rest)
  = (s <- bytes_decode bs ;; t <- String_new s ;; Ok (t, rest)).
Proof.
  intros Hn L. unfold String_from_bytes.
  rewrite (Number_from_bytes_to_bytes TAG_Short n (be_bytes 2 n) (bs ++ rest))
    by (apply pack_h_Ok; assumption).
  cbn [bind int_of is_integer]. rewrite <- L, read_bytes_app. reflexivity.
Qed.
(** ** TAG_String *)

Lemma String_new_fits (s : str) (e : list byte) :
  str_encode s = Ok e -> len e <= 32767 -> String_new s = Ok (T_String s).
Proof.
  intros E L. pose proof (len_nonneg e).
  unfold String_new, Number_new. rewrite E. cbn [bind fmt_of].
  rewrite pack_h_Ok by lia. reflexivity.
Qed.

Lemma String_to_bytes_fits (s : str) (e : list byte) :
  str_encode s = Ok e -> len e <= 32767 ->
  to_bytes (T_String s) = Ok (be_bytes 2 (len e) ++ e).
Proof.
  intros E L. pose proof (len_nonneg e).
  cbn [to_bytes]. unfold String_to_bytes, Number_to_bytes. rewrite E.
  cbn [bind fmt_of]. rewrite pack_h_Ok by lia. reflexivity.
Qed.

Lemma String_from_bytes_fits (s : str) (e rest : list byte) :
  str_encode s = Ok e -> len e <= 32767 ->
  String_from_bytes (be_bytes 2 (len e) ++ e ++ rest) = Ok (T_String s, rest).
Proof.
  intros E L. pose proof (len_nonneg e).
  rewrite String_from_bytes_prefix by lia.
  rewrite (bytes_decode_str_encode _ _ E). cbn [bind].
  now rewrite (String_new_fits s e E L).
Qed.

(** C7, as amended: the length of a string is a [TAG_Short], a signed 16-bit
    integer.  [from_bytes] reads it and, for a length from 0 to 32767, exactly
    that many bytes, which it decodes as UTF-8; [to_bytes] is the UTF-8
    encoding behind its length; and a string whose encoding is longer than
    32767 bytes, hence also one longer than 65535, cannot be built. *)
Theorem String_codec (s : str) (e rest : list byte) :
  str_encode s = Ok e ->
  (len e <= 32767 ->
     String_new s = Ok (T_String s) /\
     to_bytes (T_String s) = Ok (be_bytes 2 (len e) ++ e) /\
     String_from_bytes (be_bytes 2 (len e) ++ e ++ rest) = Ok (T_String s, rest)) /\
  (32767 < len e ->
     String_new s = Raise StructError /\
     to_bytes (T_String s) = Raise StructError) /\
  (forall n bs, 0 <= n <= 32767 -> len bs = n ->
     String_from_bytes (be_bytes 2 n ++ bs ++ rest)
     = (s' <- bytes_decode bs ;; t <- String_new s' ;; Ok (t, rest))).
Proof.
  intros E. split; [|split].
  - intros L. split; [now apply String_new_fits with e|].
    split; [now apply String_to_bytes_fits|now apply String_from_bytes_fits].
  - intros L. split.
    + unfold String_new, Number_new. rewrite E. cbn [bind fmt_of].
      now rewrite pack_h_Raise.
    + cbn [to_bytes]. unfold String_to_bytes, Number_to_bytes. rewrite E.
      cbn [bind fmt_of]. now rewrite pack_h_Raise.
  - intros n bs Hn L. now apply String_from_bytes_prefix.
Qed.

Lemma String_codec_witness :
  to_bytes (T_String (lit "hi")) = Ok [x00; x02; x68; x69] /\
  String_from_bytes [x00; x02; x68; x69; x07] = Ok (T_String (lit "hi"), [x07]).
Proof.
  destruct (String_codec (lit "hi") [x68; x69] [x07] eq_refl) as (A & _).
  destruct (A ltac:(vm_compute; discriminate)) as (_ & B & C).
  split; [exact B|exact C].
Defined.

(** C7, as stated, fails: the length bytes ff ff are the [TAG_Short] -1, not
    65535, so that no byte is read and the empty string is returned with the
    rest of the input, where 65535 bytes were to be read. *)
Lemma String_length_is_signed :
  Number_from_bytes TAG_Short [xff; xff; x61] = Ok (T_Number TAG_Short (-1), [x61]) /\
  String_from_bytes [xff; xff; x61] = Ok (T_String [], [x61]) /\
  String_from_bytes [x80; x00; x61] = Ok (T_String [], [x61]).
Proof. repeat split; vm_compute; reflexivity. Qed.

(** ** The mutable sequences *)

Lemma cls_eqb_eq (a b : cls) : cls_eqb a b = true <-> a = b.
Proof.
  split.
  - destruct a as [|[]|[]| | |], b as [|[]|[]| | |]; cbn; congruence.
  - intros <-. destruct a as [|[]|[]| | |]; reflexivity.
Qed.






(** C10: [insert] stores the value itself, between the items before the
    index and the items from the index on, in a List and in every Array, for
    every index (a negative one counts from the end, one past the end stands
    for the end); it neither converts nor checks, where [append] and the
    assignment to an index convert, so that it puts a String in front of a
    List of Int, whose element kind is then String. *)
Theorem insert_stores_value (l1 l2 l : list tag) (key : Z) (value : tag)
    (a : array_cls) :
  insert (T_List (l1 ++ l2)) (len l1) value = (T_List (l1 ++ value :: l2), Ok tt) /\
  insert (T_Array a (l1 ++ l2)) (len l1) value = (T_Array a (l1 ++ value :: l2), Ok tt) /\
  insert (T_List l) key value
  = (T_List (firstn (Z.to_nat (slice_bound l key)) l ++ value
             :: skipn (Z.to_nat (slice_bound l key)) l), Ok tt) /\
  insert (T_Array a l) key value
  = (T_Array a (firstn (Z.to_nat (slice_bound l key)) l ++ value
                :: skipn (Z.to_nat (slice_bound l key)) l), Ok tt) /\
  insert (T_List [T_Number TAG_Int 1]) 0 (T_String (lit "a"))
  = (T_List [T_String (lit "a"); T_Number TAG_Int 1], Ok tt) /\
  elementType (T_List [T_String (lit "a"); T_Number TAG_Int 1]) = Ok TAG_String /\
  append (T_List [T_Number TAG_Int 1]) (T_Number TAG_Byte 5)
  = (T_List [T_Number TAG_Int 1; T_Number TAG_Int 5], Ok tt) /\
  setitem (T_List [T_Number TAG_Int 1]) 0 (T_Number TAG_Byte 5)
  = (T_List [T_Number TAG_Int 5], Ok tt) /\
  setitem (T_List [T_Number TAG_Int 1]) 0 (T_String (lit "a"))
  = (T_List [T_Number TAG_Int 1], Raise TypeError).
Proof.
  assert (S : forall (x y : list tag),
             py_slice_to (x ++ y) (len x) ++ [value] ++ py_slice_from (x ++ y) (len x)
             = x ++ value :: y).
  { intros x y. unfold py_slice_to, py_slice_from.
    rewrite (slice_bound_nonneg _ _ (len_nonneg x)).
    unfold len. rewrite Nat2Z.id.
    rewrite firstn_app, skipn_app, Nat.sub_diag, firstn_all, skipn_all.
    cbn [firstn skipn app]. now rewrite app_nil_r. }
  unfold insert. rewrite !S.
  repeat split; reflexivity.
Qed.
(** ** Chunk.get_block *)

Lemma find_section_total (sectionID : Z) (sections : list tag) :
  forallb section_ok sections = true ->
  exists found, find_section sections sectionID = Ok found /\
    match found with
    | None => forall s, In s sections -> section_is sectionID s = Ok false
    | Some section => In section sections /\ section_is sectionID section = Ok true
    end.
Proof.
  induction sections as [|s sections IH]; intros H.
  - exists None. split; [reflexivity|]. intros s [].
  - cbn [forallb] in H. apply andb_true_iff in H as (Hs & H).
    destruct (IH H) as (found & F & P).
    unfold section_ok in Hs. cbn [find_section]. unfold section_is in *.
    destruct (getitem s (lit "Y")) as [[|c v| | | |]|] eqn:Y; try discriminate.
    cbn [bind eq_int]. rewrite Hs. cbn [bind].
    destruct (v =? sectionID) eqn:E.
    + exists (Some s). split; [reflexivity|]. split; [now left|].
      rewrite Y. cbn [bind eq_int]. now rewrite Hs, E.
    + exists found. split; [exact F|]. destruct found as [section|].
      * destruct P as (I & P). split; [now right|exact P].
      * intros s' [<-|I]; [|now apply P].
        rewrite Y. cbn [bind eq_int]. now rewrite Hs, E.
Qed.

(** [get_block] once the loop over the sections has run. *)
Lemma get_block_found (self : Chunk) (x y z : Z) (root Level Sections : tag)
    (sections : list tag) (found : option tag) :
  in_chunk x y z = true ->
  getitem (value self) (lit "") = Ok root ->
  getitem root (lit "Level") = Ok Level ->
  getitem Level (lit "Sections") = Ok Sections ->
  iter_tags Sections = Ok sections ->
  find_section sections (y / 16) = Ok found ->
  get_block self x y z
  = match found with
    | None => Ok air
    | Some section =>
      match Palette <- getitem section (lit "Palette") ;; tag_len Palette with
      | Raise KeyError => Ok air
      | Raise e => Raise e
      | Ok n =>
        BlockStates <- getitem section (lit "BlockStates") ;;
        _ <- str_of BlockStates ;;
        BlockStates <- getitem section (lit "BlockStates") ;;
        entry <- getitem_int BlockStates
                   (((y mod 16) * 16 * 16 + z * 16 + x)
                    / (64 / Z.max 4 (bit_length n))) ;;
        num <- unsigned entry ;;
        Palette <- getitem section (lit "Palette") ;;
        getitem_int Palette
          (get_bits num
             (64 - ((y mod 16) * 16 * 16 + z * 16 + x)
                   mod (64 / Z.max 4 (bit_length n))
                   * Z.max 4 (bit_length n) - Z.max 4 (bit_length n))
             (64 - ((y mod 16) * 16 * 16 + z * 16 + x)
                   mod (64 / Z.max 4 (bit_length n))
                   * Z.max 4 (bit_length n)))
      end
    end.
Proof.
  intros B R L St I F.
  unfold get_block. unfold in_chunk in B.
  repeat (apply andb_true_iff in B; destruct B as (B & ?)).
  repeat match goal with H : (_ <=? _) = true |- _ => rewrite H; clear H end.
  cbn [andb negb orb].
  rewrite R. cbn [bind]. rewrite L. cbn [bind]. rewrite St. cbn [bind].
  rewrite I. cbn [bind]. rewrite F. cbn [bind]. reflexivity.
Qed.

(** C9, as amended: for coordinates inside the chunk, and sections that are
    Compounds with an integer ['Y'], [get_block] finds the first section at
    the height of the block or none; it returns the air tag when there is
    none, and when the section has no ['Palette'] key.  (An empty palette is
    a palette: the lookup goes on, and raises.) *)
Theorem get_block_air (self : Chunk) (x y z : Z) (root Level Sections : tag)
    (sections : list tag) :
  in_chunk x y z = true ->
  getitem (value self) (lit "") = Ok root ->
  getitem root (lit "Level") = Ok Level ->
  getitem Level (lit "Sections") = Ok Sections ->
  iter_tags Sections = Ok sections ->
  forallb section_ok sections = true ->
  exists found,
    find_section sections (y / 16) = Ok found /\
    match found with
    | None =>
      (forall s, In s sections -> section_is (y / 16) s = Ok false) /\
      get_block self x y z = Ok air
    | Some section =>
      In section sections /\ section_is (y / 16) section = Ok true /\
      (getitem section (lit "Palette") = Raise KeyError ->
       get_block self x y z = Ok air)
    end.
Proof.
  intros B R L St I O.
  destruct (find_section_total (y / 16) sections O) as (found & F & P).
  exists found. split; [exact F|].
  pose proof (get_block_found self x y z root Level Sections sections found
                B R L St I F) as G.
  destruct found as [section|].
  - destruct P as (P1 & P2). split; [exact P1|]. split; [exact P2|].
    intros K. rewrite G, K. reflexivity.
  - split; [exact P|exact G].
Qed.

Lemma get_block_air_witness :
  get_block bare_chunk 3 5 7 = Ok air /\ get_block bare_chunk 3 200 7 = Ok air.
Proof.
  split.
  - destruct (get_block_air bare_chunk 3 5 7 _ _ _ _
                eq_refl eq_refl eq_refl eq_refl eq_refl eq_refl) as (found & F & P).
    cbv in F. apply Ok_inj in F. subst found.
    destruct P as (_ & _ & P). apply P. reflexivity.
  - destruct (get_block_air bare_chunk 3 200 7 _ _ _ _
                eq_refl eq_refl eq_refl eq_refl eq_refl eq_refl) as (found & F & P).
    cbv in F. apply Ok_inj in F. subst found.
    destruct P as (_ & P). exact P.
Defined.

(** C9, as stated, fails: with an empty palette [get_block] does not return
    the air tag; it raises, with block states and without. *)
Lemma get_block_empty_palette_raises :
  getitem (section_of 0 [(lit "Palette", T_List [])]) (lit "Palette") = Ok (T_List []) /\
  get_block empty_palette_chunk 0 0 0 = Raise KeyError /\
  get_block empty_palette_states_chunk 0 0 0 = Raise AttributeError /\
  getitem_int (T_List []) 1 = Raise IndexError.
Proof. repeat split; vm_compute; reflexivity. Qed.

(** The [str] of a sequence that holds a number raises: [to_snbt] takes the
    [repr] of every element, and [TAG_Number.to_snbt] reads [self.suffixes]. *)
Lemma str_of_numbers_raises (a : array_cls) (c : number_cls) (v : Z) (l : list tag) :
  str_of (T_Array a (T_Number c v :: l)) = Raise AttributeError /\
  str_of (T_List (T_Number c v :: l)) = Raise AttributeError.
Proof. split; reflexivity. Qed.

(** C6: whenever the section of the block is there, with a palette and
    with block states whose first entry is a number (the packed Longs of the
    claim), [get_block] does not return the entry of the palette: it raises at
    [print(section['BlockStates'])], before the bits are read. *)
Theorem get_block_raises_at_print (self : Chunk) (x y z : Z)
    (root Level Sections section Palette : tag) (sections l : list tag)
    (n v : Z) (a : array_cls) (c : number_cls) :
  in_chunk x y z = true ->
  getitem (value self) (lit "") = Ok root ->
  getitem root (lit "Level") = Ok Level ->
  getitem Level (lit "Sections") = Ok Sections ->
  iter_tags Sections = Ok sections ->
  find_section sections (y / 16) = Ok (Some section) ->
  getitem section (lit "Palette") = Ok Palette ->
  tag_len Palette = Ok n ->
  getitem section (lit "BlockStates") = Ok (T_Array a (T_Number c v :: l)) ->
  get_block self x y z = Raise AttributeError.
Proof.
  intros B R L St I F P N K.
  rewrite (get_block_found self x y z root Level Sections sections _ B R L St I F).
  rewrite P. cbn [bind]. rewrite N, K. cbn [bind].
  destruct (str_of_numbers_raises a c v l) as (E & _). now rewrite E.
Qed.

(** On a palette of three blocks and the packed Long 0x1234567812345678 the
    index of the first block is the top four bits of the Long, 1, as the
    claim has it; yet the call raises. *)
Lemma get_block_raises_at_print_witness :
  tag_len three_blocks = Ok 3 /\
  Z.max 4 (bit_length 3) = 4 /\
  64 / Z.max 4 (bit_length 3) = 16 /\
  block_state_ID 3 packed_states 0 0 0 = Ok 1 /\
  Z.shiftr 0x1234567812345678 60 = 1 /\
  getitem_int three_blocks 1 = Ok (block "minecraft:dirt") /\
  get_block packed_chunk 0 0 0 = Raise AttributeError.
Proof.
  repeat (split; [vm_compute; reflexivity|]).
  eapply (get_block_raises_at_print packed_chunk 0 0 0); reflexivity.
Defined.
(** ** The round trip through the binary encoding *)

(** Induction on a tag, with the hypothesis on every element of a sequence
    and every value of a Compound. *)
Lemma tag_induction (P : tag -> Prop) :
  P T_End ->
  (forall c v, P (T_Number c v)) ->
  (forall s, P (T_String s)) ->
  (forall a l, Forall P l -> P (T_Array a l)) ->
  (forall l, Forall P l -> P (T_List l)) ->
  (forall d, Forall (fun kv => P (snd kv)) d -> P (T_Compound d)) ->
  forall t, P t.
Proof.
  intros HE HN HS HA HL HC.
  refine (fix IH (t : tag) : P t :=
            match t with
            | T_End => HE
            | T_Number c v => HN c v
            | T_String s => HS s
            | T_Array a l =>
              HA a l ((fix go (l : list tag) : Forall P l :=
                         match l with
                         | [] => Forall_nil P
                         | e :: l' => Forall_cons e (IH e) (go l')
                         end) l)
            | T_List l =>
              HL l ((fix go (l : list tag) : Forall P l :=
                       match l with
                       | [] => Forall_nil P
                       | e :: l' => Forall_cons e (IH e) (go l')
                       end) l)
            | T_Compound d =>
              HC d ((fix go (d : list (str * tag)) : Forall (fun kv => P (snd kv)) d :=
                       match d with
                       | [] => Forall_nil _
                       | kv :: d' => Forall_cons kv (IH (snd kv)) (go d')
                       end) d)
            end).
Qed.

Lemma number_ok_pack (c : number_cls) (v : Z) :
  number_ok c v = true -> exists b, pack (fmt_of c) v = Ok b.
Proof.
  unfold number_ok. destruct (pack (fmt_of c) v); [eauto|discriminate].
Qed.

Lemma str_ok_encode (s : str) :
  str_ok s = true -> exists e, str_encode s = Ok e /\ len e <= 32767.
Proof.
  unfold str_ok. destruct (str_encode s) as [e|]; [|discriminate].
  intros H. exists e. split; [reflexivity|]. now apply Z.leb_le.
Qed.

Lemma from_ID_ID (c : cls) : from_ID (ID c) = Ok c.
Proof. destruct c as [|[]|[]| | |]; reflexivity. Qed.

Lemma pack_ID (c : cls) : pack fmt_B (ID c) = Ok (be_bytes 1 (ID c)).
Proof. destruct c as [|[]|[]| | |]; reflexivity. Qed.

Lemma pack_len (n : Z) : 0 <= n < 2 ^ 31 -> pack fmt_i n = Ok (be_bytes 4 n).
Proof.
  intros H. unfold pack. cbn [calcsize signed]. pow256.
  change (4294967296 / 2) with 2147483648. change (2 ^ 31) with 2147483648 in H.
  destruct (Z.leb_spec (Z.opp 2147483648) n); [|lia].
  destruct (Z.ltb_spec n 2147483648); [reflexivity|lia].
Qed.

(** *** Conversion to the own class *)

Lemma Number_init_same (c : number_cls) (v : Z) :
  number_ok c v = true -> Number_init c (T_Number c v) = Ok (T_Number c v).
Proof.
  intros H. apply number_ok_pack in H as (b & H).
  unfold Number_init, int_of.
  destruct (is_integer c) eqn:I.
  - cbn [bind]. now apply Number_new_Ok with b.
  - assert (number_cls_eqb c c = true) as -> by (destruct c; reflexivity).
    now apply Number_new_Ok with b.
Qed.

Lemma String_new_ok (s : str) : str_ok s = true -> String_new s = Ok (T_String s).
Proof.
  intros H. apply str_ok_encode in H as (e & E & L).
  now apply String_new_fits with e.
Qed.


(** Appending to a non-empty List elements that convert to themselves. *)
Lemma List_append_all (e0 : tag) (l : list tag) :
  is_End e0 = false ->
  Forall (fun e => construct (type_of e0) e = Ok e) l ->
  forall acc, foldM (List_append_to construct) l (e0 :: acc) = Ok (e0 :: acc ++ l).
Proof.
  intros N. induction 1 as [|e l He Hl IH]; intros acc; cbn [foldM].
  - now rewrite app_nil_r.
  - unfold List_append_to at 1. cbn [List_elementType].
    assert (cls_eqb (type_of e0) TAG_End = false) as ->
      by (destruct e0 as [|[]| |[]| |]; try reflexivity; discriminate).
    unfold MutableSequence_append_to. rewrite He. cbn [bind].
    cbn [app]. rewrite (IH (acc ++ [e])). now rewrite <- app_assoc.
Qed.

Lemma Array_append_all (conv : cls -> tag -> result tag) (c : cls) (l : list tag) :
  Forall (fun e => conv c e = Ok e) l ->
  forall acc, foldM (MutableSequence_append_to conv c) l acc = Ok (acc ++ l).
Proof.
  induction 1 as [|e l He Hl IH]; intros acc; cbn [foldM].
  - now rewrite app_nil_r.
  - unfold MutableSequence_append_to at 1. rewrite He.
    cbn [bind]. rewrite IH. now rewrite <- app_assoc.
Qed.

Lemma cls_eqb_refl (c : cls) : cls_eqb c c = true.
Proof. now apply cls_eqb_eq. Qed.

Lemma number_cls_eqb_eq (a b : number_cls) : number_cls_eqb a b = true -> a = b.
Proof. destruct a, b; cbn; congruence. Qed.

(** The elements of a storable Array. *)
Lemma storable_Array (a : array_cls) (l : list tag) :
  storable (T_Array a l) = true ->
  0 <= len l < 2 ^ 31 /\
  Forall (fun e => exists v, e = T_Number (array_elementType a) v
                             /\ number_ok (array_elementType a) v = true) l.
Proof.
  cbn [storable]. intros H. apply andb_true_iff in H as (L & F).
  split; [pose proof (len_nonneg l); apply Z.ltb_lt in L; lia|].
  apply Forall_forall. intros e I. rewrite forallb_forall in F.
  specialize (F e I). destruct e as [|c v| | | |]; try discriminate.
  apply andb_true_iff in F as (C & N). apply number_cls_eqb_eq in C. subst c. eauto.
Qed.

(** The elements of a storable List. *)
Lemma storable_List (l : list tag) :
  storable (T_List l) = true ->
  0 <= len l < 2 ^ 31 /\
  Forall (fun e => is_End e = false /\ type_of e = List_elementType l
                   /\ storable e = true) l.
Proof.
  cbn [storable]. intros H. apply andb_true_iff in H as (L & F).
  split; [pose proof (len_nonneg l); apply Z.ltb_lt in L; lia|].
  apply Forall_forall. intros e I. rewrite forallb_forall in F.
  specialize (F e I). apply andb_true_iff in F as (F & S).
  apply andb_true_iff in F as (E & C). apply cls_eqb_eq in C.
  apply negb_true_iff in E. auto.
Qed.

(** The items of a storable Compound. *)
Lemma storable_Compound (d : list (str * tag)) :
  storable (T_Compound d) = true ->
  dict_ok d = true /\
  Forall (fun kv => str_ok (fst kv) = true /\ is_End (snd kv) = false
                    /\ storable (snd kv) = true) d.
Proof.
  cbn [storable]. intros H. apply andb_true_iff in H as (L & F).
  split; [exact L|].
  apply Forall_forall. intros e I. rewrite forallb_forall in F.
  specialize (F e I). apply andb_true_iff in F as (F & S).
  apply andb_true_iff in F as (K & E). apply negb_true_iff in E. auto.
Qed.

Lemma construct_List (l : list tag) :
  construct TAG_List (T_List l)
  = (l' <- foldM (List_append_to construct) l [] ;; Ok (T_List l')).
Proof. reflexivity. Qed.

Lemma construct_Array (a : array_cls) (l : list tag) :
  construct (TAG_Array a) (T_Array a l)
  = (l' <- foldM (MutableSequence_append_to
                    (fun _ => Number_init (array_elementType a))
                    (array_elementType a)) l [] ;;
     Ok (T_Array a l')).
Proof. reflexivity. Qed.

(** A storable tag converts to itself. *)
Lemma construct_same (t : tag) :
  storable t = true -> is_End t = false -> construct (type_of t) t = Ok t.
Proof.
  induction t as [|c v|s|a l IH|l IH|d IH] using tag_induction; intros S E.
  - discriminate.
  - now apply Number_init_same.
  - cbn [type_of construct]. unfold String_init. cbn [str_of bind].
    now apply String_new_ok.
  - apply storable_Array in S as (_ & F).
    cbn [type_of]. rewrite construct_Array.
    rewrite (Array_append_all _ (array_elementType a) l); [reflexivity|].
    eapply Forall_impl; [|exact F]. cbn beta.
    intros e (v & -> & N). now apply Number_init_same.
  - apply storable_List in S as (_ & F).
    cbn [type_of]. rewrite construct_List.
    destruct l as [|e0 l]; [reflexivity|].
    cbn [foldM]. unfold List_append_to at 1. cbn [List_elementType cls_eqb bind app].
    inversion F as [|? ? (E0 & _ & S0) F']; subst.
    inversion IH as [|? ? IH0 IH']; subst.
    rewrite (List_append_all e0 l E0); [reflexivity|].
    apply Forall_forall. intros e I.
    rewrite Forall_forall in F', IH'.
    destruct (F' e I) as (Ee & Te & Se). cbn [List_elementType] in Te.
    rewrite <- Te. now apply IH'.
  - reflexivity.
Qed.

(** *** Dicts *)

Lemma str_eqb_eq (a b : str) : str_eqb a b = true <-> a = b.
Proof.
  revert b. induction a as [|x a IH]; intros [|y b]; cbn [str_eqb];
    try (split; congruence).
  rewrite andb_true_iff, Z.eqb_eq, IH. split; [intros (-> & ->)|intros [= -> ->]]; auto.
Qed.

Lemma str_eqb_sym (a b : str) : str_eqb a b = str_eqb b a.
Proof.
  destruct (str_eqb a b) eqn:E1, (str_eqb b a) eqn:E2; try reflexivity.
  - apply str_eqb_eq in E1. subst. assert (str_eqb b b = true) by now apply str_eqb_eq.
    congruence.
  - apply str_eqb_eq in E2. subst. assert (str_eqb a a = true) by now apply str_eqb_eq.
    congruence.
Qed.

Lemma dict_set_fresh {V} (d : list (str * V)) (k : str) (v : V) :
  dict_has d k = false -> dict_set d k v = d ++ [(k, v)].
Proof.
  induction d as [|(k', v') d IH]; cbn [dict_has dict_set app]; [reflexivity|].
  intros H. apply orb_false_iff in H as (E & H). rewrite E. now rewrite IH.
Qed.

Lemma dict_has_app {V} (d1 d2 : list (str * V)) (k : str) :
  dict_has (d1 ++ d2) k = dict_has d1 k || dict_has d2 k.
Proof.
  induction d1 as [|(k', v') d1 IH]; cbn [dict_has app]; [reflexivity|].
  now rewrite IH, orb_assoc.
Qed.

Lemma dict_has_false {V} (d : list (str * V)) (k : str) :
  dict_has d k = false -> forall kv, In kv d -> str_eqb k (fst kv) = false.
Proof.
  induction d as [|(k', v') d IH]; cbn [dict_has]; intros H kv I; [destruct I|].
  apply orb_false_iff in H as (E & H). destruct I as [<-|I].
  - cbn [fst]. now rewrite str_eqb_sym.
  - now apply IH.
Qed.

(** *** The loops of the codec *)

Lemma type_of_not_End (t : tag) : is_End t = false -> cls_eqb (type_of t) TAG_End = false.
Proof. destruct t as [|[]| |[]| |]; try reflexivity; discriminate. Qed.

Lemma list_max_cons (x : nat) (l : list nat) :
  list_max (x :: l) = Nat.max x (list_max l).
Proof. reflexivity. Qed.

Lemma elements_round_trip (c : cls) (l : list tag) :
  Forall round_trips l ->
  Forall (fun e => is_End e = false /\ type_of e = c /\ storable e = true) l ->
  exists b, elements_to_bytes to_bytes l = Ok b /\
    forall fuel rest, (list_max (map fuel_for l) <= fuel)%nat ->
      elements_from_bytes (from_bytes fuel) c (List.length l) (b ++ rest) = Ok (l, rest).
Proof.
  induction l as [|e l IH]; intros R St.
  - exists []. split; [reflexivity|]. intros fuel rest _. reflexivity.
  - inversion R as [|? ? Re R']; subst. inversion St as [|? ? (Ee & Te & Se) S']; subst.
    destruct (Re Se Ee) as (be & Be & De).
    destruct (IH R' S') as (bl & Bl & Dl).
    exists (be ++ terminator e ++ bl). split.
    + cbn [elements_to_bytes]. rewrite Be, Bl. reflexivity.
    + intros fuel rest F. cbn [map] in F. rewrite list_max_cons in F.
      cbn [List.length elements_from_bytes].
      rewrite <- !app_assoc.
      destruct (De fuel ltac:(lia)) as (D1 & _). rewrite D1. cbn [bind].
      rewrite (Dl fuel rest ltac:(lia)). reflexivity.
Qed.

Lemma items_round_trip (d : list (str * tag)) :
  Forall (fun kv => round_trips (snd kv)) d ->
  Forall (fun kv => str_ok (fst kv) = true /\ is_End (snd kv) = false
                    /\ storable (snd kv) = true) d ->
  dict_ok d = true ->
  exists b, items_to_bytes to_bytes d = Ok b /\
    forall fuel n acc,
      (list_max (map (fun kv => fuel_for (snd kv)) d) <= fuel)%nat ->
      (List.length d < n)%nat ->
      (forall kv, In kv d -> dict_has acc (fst kv) = false) ->
      (forall rest,
         items_from_bytes (from_bytes fuel) n (b ++ x00 :: rest) acc
         = Ok (acc ++ d, rest)) /\
      items_from_bytes (from_bytes fuel) n b acc = Ok (acc ++ d, []).
Proof.
  induction d as [|(k, v) d IH]; intros R St O.
  - exists []. split; [reflexivity|]. intros fuel n acc _ N _.
    destruct n as [|n]; [inversion N|]. rewrite app_nil_r. split; [|reflexivity].
    intros rest. cbn [items_from_bytes app].
    change (x00 :: rest) with ([x00] ++ rest).
    rewrite (Number_from_bytes_to_bytes TAG_Byte 0 [x00] rest eq_refl).
    reflexivity.
  - inversion R as [|? ? Rv R']; subst.
    inversion St as [|? ? (Kk & Ev & Sv) S']; subst. cbn [fst snd] in *.
    cbn [dict_ok] in O. apply andb_true_iff in O as (Nk & O).
    apply negb_true_iff in Nk.
    destruct (Rv Sv Ev) as (bv & Bv & Dv).
    destruct (IH R' S' O) as (bd & Bd & Dd).
    apply str_ok_encode in Kk as (ek & Ek & Lk).
    pose proof (len_nonneg ek) as Hk.
    pose proof (String_to_bytes_fits k ek Ek Lk) as TB.
    cbn [to_bytes] in TB.
    exists (be_bytes 1 (ID (type_of v)) ++ (be_bytes 2 (len ek) ++ ek)
            ++ bv ++ terminator v ++ bd).
    split.
    + cbn [items_to_bytes]. unfold Number_to_bytes. cbn [fmt_of].
      rewrite pack_ID. cbn [bind]. rewrite TB. cbn [bind].
      rewrite Bv, Bd. reflexivity.
    + intros fuel n acc F N A.
      cbn [map snd] in F. rewrite list_max_cons in F. cbn [List.length] in N.
      destruct n as [|n]; [inversion N|].
      assert (Step : forall tail,
                 items_from_bytes (from_bytes fuel) (S n)
                   ((be_bytes 1 (ID (type_of v)) ++ (be_bytes 2 (len ek) ++ ek)
                     ++ bv ++ terminator v ++ bd) ++ tail) acc
                 = items_from_bytes (from_bytes fuel) n (bd ++ tail)
                     (acc ++ [(k, v)])).
      { intros tail. cbn [items_from_bytes].
        rewrite <- !app_assoc.
        rewrite (Number_from_bytes_to_bytes TAG_Byte (ID (type_of v))
                   (be_bytes 1 (ID (type_of v)))) by apply pack_ID.
        cbn [bind int_of is_integer]. rewrite from_ID_ID. cbn [bind].
        rewrite (type_of_not_End v Ev).
        rewrite (String_from_bytes_fits k ek _ Ek Lk). cbn [bind].
        destruct (Dv fuel ltac:(lia)) as (D1 & _). rewrite D1. cbn [bind].
        rewrite dict_set_fresh by (apply (A (k, v)); now left).
        reflexivity. }
      assert (A' : forall kv, In kv d -> dict_has (acc ++ [(k, v)]) (fst kv) = false).
      { intros kv I. rewrite dict_has_app, (A kv (or_intror I)).
        cbn [dict_has orb]. rewrite (dict_has_false d k Nk kv I). reflexivity. }
      destruct (Dd fuel n (acc ++ [(k, v)]) ltac:(lia) ltac:(lia) A') as (D2 & D3).
      split.
      * intros rest. rewrite Step, D2. now rewrite <- app_assoc.
      * rewrite <- (app_nil_r (_ ++ _ ++ _ ++ _ ++ bd)) at 1.
        rewrite Step, app_nil_r, D3. now rewrite <- app_assoc.
Qed.

Lemma list_max_In (f : tag -> nat) (l : list tag) (fuel : nat) :
  (list_max (map f l) <= fuel)%nat -> forall e, In e l -> (f e <= fuel)%nat.
Proof.
  intros H e I. apply list_max_le in H. rewrite Forall_forall in H.
  apply H. now apply in_map.
Qed.

Lemma decode_elements (fuel : nat) (c : cls) (l : list tag) (b rest : list byte) :
  0 <= len l < 2 ^ 31 ->
  elements_from_bytes (from_bytes fuel) c (List.length l) (b ++ rest) = Ok (l, rest) ->
  decode_bytes (from_bytes fuel) (be_bytes 4 (len l) ++ b ++ rest) c = Ok (l, rest).
Proof.
  intros L E. unfold decode_bytes.
  rewrite (Number_from_bytes_to_bytes TAG_Int (len l) (be_bytes 4 (len l)))
    by (apply pack_len; assumption).
  cbn [bind int_of is_integer]. unfold len at 1. rewrite Nat2Z.id. exact E.
Qed.

(** Every storable tag but End makes the round trip. *)
Lemma all_round_trip (t : tag) : round_trips t.
Proof.
  induction t as [|c v|s|a l IH|l IH|d IH] using tag_induction;
    intros St E; try discriminate.
  - (* a number *)
    pose proof St as P. apply number_ok_pack in P as (b & P).
    exists b. split; [exact P|]. intros fuel F. cbn [fuel_for] in F.
    destruct fuel as [|fuel]; [inversion F|].
    cbn [from_bytes type_of terminator is_Compound app]. split.
    + intros rest. now apply Number_from_bytes_to_bytes.
    + rewrite <- (app_nil_r b) at 1. now apply Number_from_bytes_to_bytes.
  - (* a string *)
    pose proof St as P. apply str_ok_encode in P as (e & Ee & Le).
    exists (be_bytes 2 (len e) ++ e). split.
    + now apply String_to_bytes_fits.
    + intros fuel F. cbn [fuel_for] in F. destruct fuel as [|fuel]; [inversion F|].
      cbn [from_bytes type_of terminator is_Compound app]. split.
      * intros rest. rewrite <- app_assoc.
        now apply String_from_bytes_fits.
      * pose proof (String_from_bytes_fits s e [] Ee Le) as B.
        now rewrite app_nil_r in B.
  - (* an Array *)
    pose proof (storable_Array _ _ St) as (L & F).
    assert (F' : Forall (fun e => is_End e = false
                                  /\ type_of e = TAG_Number (array_elementType a)
                                  /\ storable e = true) l).
    { eapply Forall_impl; [|exact F]. cbn beta. intros e (v & -> & N). auto. }
    destruct (elements_round_trip _ l IH F') as (b & B & D).
    exists (be_bytes 4 (len l) ++ b). split.
    + cbn [to_bytes]. unfold MutableSequence_to_bytes, Number_to_bytes. cbn [fmt_of].
      rewrite pack_len by assumption. cbn [bind]. now rewrite B.
    + intros fuel Fu. cbn [fuel_for] in Fu. destruct fuel as [|fuel]; [inversion Fu|].
      assert (N : Array_new a l = Ok (T_Array a l)).
      { unfold Array_new. rewrite (Array_append_all construct _ l); [reflexivity|].
        eapply Forall_impl; [|exact F']. cbn beta. intros e (Ee & Te & Se).
        rewrite <- Te. now apply construct_same. }
      assert (G : forall rest,
                 from_bytes (S fuel) (TAG_Array a) ((be_bytes 4 (len l) ++ b) ++ rest)
                 = Ok (T_Array a l, rest)).
      { intros rest. cbn [from_bytes]. rewrite <- app_assoc.
        rewrite (decode_elements fuel _ l b rest L (D fuel rest ltac:(lia))).
        cbn [bind]. now rewrite N. }
      cbn [type_of terminator is_Compound app]. split; [exact G|].
      rewrite <- (app_nil_r (_ ++ b)) at 1. apply G.
  - (* a List *)
    pose proof (storable_List _ St) as (L & F).
    destruct (elements_round_trip _ l IH F) as (b & B & D).
    exists (be_bytes 1 (ID (List_elementType l)) ++ be_bytes 4 (len l) ++ b). split.
    + cbn [to_bytes]. unfold MutableSequence_to_bytes, Number_to_bytes. cbn [fmt_of].
      rewrite pack_ID, pack_len by assumption. cbn [bind]. now rewrite B.
    + intros fuel Fu. cbn [fuel_for] in Fu. destruct fuel as [|fuel]; [inversion Fu|].
      assert (N : List_new l = Ok (T_List l)).
      { unfold List_new. rewrite <- construct_List.
        now apply (construct_same (T_List l)). }
      assert (G : forall rest,
                 from_bytes (S fuel) TAG_List
                   ((be_bytes 1 (ID (List_elementType l)) ++ be_bytes 4 (len l) ++ b)
                    ++ rest)
                 = Ok (T_List l, rest)).
      { intros rest. cbn [from_bytes]. rewrite <- !app_assoc.
        rewrite (Number_from_bytes_to_bytes TAG_Byte (ID (List_elementType l))
                   (be_bytes 1 (ID (List_elementType l)))) by apply pack_ID.
        cbn [bind int_of is_integer]. rewrite from_ID_ID. cbn [bind].
        rewrite (decode_elements fuel _ l b rest L (D fuel rest ltac:(lia))).
        cbn [bind]. now rewrite N. }
      cbn [type_of terminator is_Compound app]. split; [exact G|].
      rewrite <- (app_nil_r (_ ++ _ ++ b)) at 1. apply G.
  - (* a Compound *)
    pose proof (storable_Compound _ St) as (O & F).
    destruct (items_round_trip d IH F O) as (b & B & D).
    exists b. split; [exact B|].
    intros fuel Fu. cbn [fuel_for] in Fu. destruct fuel as [|fuel]; [inversion Fu|].
    destruct (D fuel fuel [] ltac:(lia) ltac:(lia) ltac:(reflexivity)) as (D1 & D2).
    cbn [from_bytes type_of terminator is_Compound app]. split.
    + intros rest. now rewrite D1.
    + now rewrite D2.
Qed.

(** C1, as amended: every tag that the constructors build and that holds no
    End inside a List or a Compound and no NaN has bytes, and [from_bytes]
    returns from them a tag equal to it, with the keys of every Compound in
    their order and the nested Compounds restored; inside a container the End
    byte that [to_bytes] writes after a Compound is what ends it, and a
    Compound on its own ends with its bytes. *)
Theorem round_trip (t : tag) :
  storable t = true ->
  exists b, to_bytes t = Ok b /\
    forall fuel, (fuel_for t <= fuel)%nat ->
      decode fuel (type_of t) b = Ok t /\
      (is_End t = false ->
       forall rest,
         from_bytes fuel (type_of t) (b ++ terminator t ++ rest) = Ok (t, rest)).
Proof.
  intros St. destruct (is_End t) eqn:E.
  - destruct t; try discriminate. exists [x00]. split; [reflexivity|].
    intros fuel F. cbn [fuel_for] in F. destruct fuel as [|fuel]; [inversion F|].
    split; [reflexivity|discriminate].
  - destruct (all_round_trip t St E) as (b & B & D).
    exists b. split; [exact B|]. intros fuel F.
    destruct (D fuel F) as (D1 & D2). split.
    + unfold decode. now rewrite D2.
    + intros _. exact D1.
Qed.

Lemma round_trip_witness :
  exists b, to_bytes sample_tag = Ok b /\
            decode (fuel_for sample_tag) (type_of sample_tag) b = Ok sample_tag.
Proof.
  destruct (round_trip sample_tag ltac:(vm_compute; reflexivity)) as (b & B & D).
  exists b. split; [exact B|]. exact (proj1 (D _ (le_n _))).
Defined.

(** C1, as stated, fails: an End that is the value of a key is written as the
    End byte that ends the Compound, so that the Compound comes back empty. *)
Lemma End_in_Compound_is_lost :
  to_bytes (T_Compound [(lit "a", T_End)]) = Ok [x00; x00; x01; x61; x00] /\
  decode 2 TAG_Compound [x00; x00; x01; x61; x00] = Ok (T_Compound []) /\
  T_Compound [] <> T_Compound [(lit "a", T_End)].
Proof.
  split; [vm_compute; reflexivity|]. split; [vm_compute; reflexivity|discriminate].
Qed.
(** ** Writes that are read back, repeated writes and new files *)

(** The comparisons of a goal are decided from the bounds at hand. *)
Ltac on_bounds :=
  repeat match goal with
         | |- context [?a <=? ?b] => destruct (Z.leb_spec a b); try lia
         | |- context [?a <? ?b] => destruct (Z.ltb_spec a b); try lia
         | |- context [?a =? ?b] => destruct (Z.eqb_spec a b); try lia
         end;
  cbn [andb orb negb].

Lemma len_be_bytes (n : nat) (v : Z) : len (be_bytes n v) = Z.of_nat n.
Proof. unfold len. now rewrite length_be_bytes. Qed.

Lemma int_to_bytes_fits (v : Z) (n : nat) :
  0 <= v < 256 ^ Z.of_nat n -> int_to_bytes v n = Ok (be_bytes n v).
Proof. intros H. unfold int_to_bytes. on_bounds; reflexivity. Qed.

Lemma mmap_set_slice_fits (m : mmap) (a b : Z) (d : list byte) :
  0 <= a -> b = a + len d -> b <= len m ->
  mmap_set_slice m a b d = Ok (splice m a d).
Proof.
  intros Ha -> Hb. unfold mmap_set_slice. pose proof (len_nonneg d) as Hd.
  assert (E : len (py_slice m a (a + len d)) = len d).
  { unfold py_slice. rewrite !slice_bound_nonneg by lia.
    unfold len in *. rewrite length_firstn, length_skipn. lia. }
  rewrite E, Z.eqb_refl, slice_bound_nonneg by lia. reflexivity.
Qed.

Lemma mmap_set_slice_short (m : mmap) (a b : Z) (d : list byte) :
  0 <= a -> a <= len m -> b = a + len d -> len m < b ->
  mmap_set_slice m a b d = Raise IndexError.
Proof.
  intros Ha Hm -> Hb. unfold mmap_set_slice. pose proof (len_nonneg d) as Hd.
  assert (E : len (py_slice m a (a + len d)) = len m - a).
  { unfold py_slice. rewrite !slice_bound_nonneg by lia.
    unfold len in *. rewrite length_firstn, length_skipn. lia. }
  rewrite E. on_bounds; reflexivity.
Qed.

Lemma mmap_set_fits (m : mmap) (i v : Z) :
  0 <= i < len m -> 0 <= v <= 255 ->
  mmap_set m i v = Ok (splice m i [byte_of_Z v]).
Proof.
  intros Hi Hv. unfold mmap_set. destruct (Z.ltb_spec i 0) as [N|N]; [lia|].
  destruct (item_at_inside m i Hi) as (b & ->). on_bounds; reflexivity.
Qed.

Lemma mmap_get_fits (m : mmap) (i : Z) (b : byte) :
  0 <= i -> item_at m i = Some b -> mmap_get m i = Ok (Z_of_byte b).
Proof. intros Hi E. apply mmap_get_item_at; [assumption|]. eauto. Qed.

(** What a returning [commit_slot] tells of its arguments. *)
Lemma commit_slot_ranges (h o n ts c : Z) (data : list byte) (m m' : mmap) :
  0 <= h -> 0 <= o ->
  commit_slot h o n ts (len data + 1) c data m = Ok m' ->
  0 <= ts < 256 ^ 4 /\ 0 <= c <= 255 /\ o * 4096 + 5 + len data <= len m.
Proof.
  intros Hh Ho H. unfold commit_slot in H.
  inv_bind H. apply int_to_bytes_Ok in H0 as (-> & R0 & L0 & _).
  inv_bind H. apply mmap_set_slice_Ok in H0 as (L1 & _ & _); [|lia].
  inv_bind H. apply mmap_set_Ok in H0 as (_ & _ & L2 & _); [|lia].
  inv_bind H. apply int_to_bytes_Ok in H0 as (-> & R3 & L3 & _).
  inv_bind H. apply mmap_set_slice_Ok in H0 as (L4 & _ & _); [|lia].
  inv_bind H. apply int_to_bytes_Ok in H0 as (-> & R5 & L5 & _).
  inv_bind H. apply mmap_set_slice_Ok in H0 as (L6 & _ & _); [|lia].
  inv_bind H. apply mmap_set_Ok in H0 as (F7 & R7 & L7 & _); [|lia].
  apply mmap_set_slice_Ok in H as (L8 & F8 & _); [|lia].
  split; [exact R3|]. split; [exact R7|].
  destruct data as [|b data]; [cbn [len List.length Z.of_nat] in *; lia|].
  specialize (F8 ltac:(discriminate)). lia.
Qed.

(** [commit_slot] returns when its arguments fit the file. *)
Lemma commit_slot_fits (h o n ts c : Z) (data : list byte) (m : mmap) :
  0 <= h -> h + 4100 <= len m -> 0 <= o < 256 ^ 3 -> 0 <= n <= 255 ->
  0 <= ts < 256 ^ 4 -> len data + 1 < 256 ^ 4 -> 0 <= c <= 255 ->
  o * 4096 + 5 + len data <= len m ->
  exists m', commit_slot h o n ts (len data + 1) c data m = Ok m'.
Proof.
  intros Hh Hm Ho Hn Hts Hl Hc Hd. pose proof (len_nonneg data) as D.
  unfold commit_slot.
  rewrite (int_to_bytes_fits o 3) by exact Ho. cbn [bind].
  rewrite (mmap_set_slice_fits m h (h + 3)) by (rewrite ?len_be_bytes; lia).
  cbn [bind].
  set (m1 := splice m h (be_bytes 3 o)).
  assert (L1 : len m1 = len m) by (apply len_splice; rewrite ?len_be_bytes; lia).
  rewrite (mmap_set_fits m1) by lia. cbn [bind].
  set (m2 := splice m1 (h + 3) [byte_of_Z n]).
  assert (L2 : len m2 = len m)
    by (unfold m2; rewrite len_splice; cbn [len List.length Z.of_nat]; lia).
  rewrite (int_to_bytes_fits ts 4) by exact Hts. cbn [bind].
  rewrite (mmap_set_slice_fits m2 (h + 4096) (h + 4100))
    by (rewrite ?len_be_bytes; lia).
  cbn [bind].
  set (m3 := splice m2 (h + 4096) (be_bytes 4 ts)).
  assert (L3 : len m3 = len m)
    by (unfold m3; rewrite len_splice; rewrite ?len_be_bytes; lia).
  rewrite (int_to_bytes_fits (len data + 1) 4) by (change (Z.of_nat 4) with 4; lia).
  cbn [bind].
  rewrite (mmap_set_slice_fits m3 (o * 4096) (o * 4096 + 4))
    by (rewrite ?len_be_bytes; lia).
  cbn [bind].
  set (m4 := splice m3 (o * 4096) (be_bytes 4 (len data + 1))).
  assert (L4 : len m4 = len m)
    by (unfold m4; rewrite len_splice; rewrite ?len_be_bytes; lia).
  rewrite (mmap_set_fits m4) by lia. cbn [bind].
  set (m5 := splice m4 (o * 4096 + 4) [byte_of_Z c]).
  assert (L5 : len m5 = len m)
    by (unfold m5; rewrite len_splice; cbn [len List.length Z.of_nat]; lia).
  rewrite (mmap_set_slice_fits m5 (o * 4096 + 5) (o * 4096 + (len data + 1) + 4))
    by lia.
  eauto.
Qed.

(** The slot that [commit_slot] wrote is the one that [Chunk.open] reads,
    when the payload lies past the header. *)
Lemma open_after_commit (x z o n ts c : Z) (data : list byte) (m m' : mmap) :
  2 <= o -> 1 <= n ->
  commit_slot (header_of x z) o n ts (len data + 1) c data m = Ok m' ->
  open_mapped x z m' = Ok (ts, c, data).
Proof.
  intros Ho Hn C.
  destruct (header_of_range x z) as (Hh & _).
  assert (Ho0 : 0 <= o) by lia.
  destruct (commit_slot_ranges _ _ _ _ _ _ _ _ (proj1 Hh) Ho0 C) as (Rts & Rc & Fit).
  apply commit_slot_Ok in C as (L & Ro & Rn & Rl & Fh & I); [|lia|lia].
  set (h := header_of x z) in *. pose proof (len_nonneg data) as D.
  assert (E1 : py_slice m' h (h + 3) = be_bytes 3 o).
  { replace (h + 3) with (h + len (be_bytes 3 o)) by (now rewrite len_be_bytes).
    apply py_slice_window; [lia|]. intros p Hp. rewrite len_be_bytes in Hp.
    rewrite I. on_bounds; reflexivity. }
  assert (E2 : mmap_get m' (h + 3) = Ok n).
  { rewrite (mmap_get_fits m' (h + 3) (byte_of_Z n)).
    - now rewrite Z_of_byte_of_Z by lia.
    - lia.
    - rewrite I. on_bounds; reflexivity. }
  assert (E3 : py_slice m' (h + 4096) (h + 4100) = be_bytes 4 ts).
  { replace (h + 4100) with (h + 4096 + len (be_bytes 4 ts))
      by (rewrite len_be_bytes; lia).
    apply py_slice_window; [lia|]. intros p Hp. rewrite len_be_bytes in Hp.
    rewrite I. on_bounds; reflexivity. }
  assert (E4 : py_slice m' (4096 * o) (4096 * o + 4) = be_bytes 4 (len data + 1)).
  { replace (4096 * o + 4) with (4096 * o + len (be_bytes 4 (len data + 1)))
      by (now rewrite len_be_bytes).
    apply py_slice_window; [lia|]. intros p Hp. rewrite len_be_bytes in Hp.
    rewrite I. on_bounds; f_equal; lia. }
  assert (E5 : mmap_get m' (4096 * o + 4) = Ok c).
  { rewrite (mmap_get_fits m' (4096 * o + 4) (byte_of_Z c)).
    - now rewrite Z_of_byte_of_Z by lia.
    - lia.
    - rewrite I. on_bounds; reflexivity. }
  assert (E6 : py_slice m' (4096 * o + 5) (4096 * o + (len data + 1) + 4) = data).
  { replace (4096 * o + (len data + 1) + 4) with (4096 * o + 5 + len data) by lia.
    apply py_slice_window; [lia|]. intros p Hp.
    rewrite I. on_bounds; f_equal; lia. }
  unfold open_mapped. fold h. cbv zeta.
  rewrite E1, E2, E3. cbn [bind].
  rewrite !int_from_be_bytes, !Z.mod_small by assumption.
  rewrite E4, E5, int_from_be_bytes, Z.mod_small by assumption. cbn [bind].
  rewrite E6.
  destruct (Z.gtb_spec n 0); [|lia].
  destruct (Z.geb_spec (4096 * o) 2); [|lia]. reflexivity.
Qed.

Section RegionReading.

Variable compress : list byte -> Z -> list byte.

(** The header entry [h] of the file that a returning write of a slot
    leaves. *)
Lemma written_entry (h o n ts c : Z) (data : list byte) (m m' : mmap) :
  0 <= h < 1024 -> 1 <= o ->
  commit_slot h o n ts (len data + 1) c data m = Ok m' ->
  int_from_bytes (py_slice m' h (h + 3)) = o /\
  mmap_get m' (h + 3) = Ok n /\
  mmap_get m' (4096 * o + 4) = Ok c.
Proof.
  intros Hh Ho C.
  assert (Ho0 : 0 <= o) by lia.
  destruct (commit_slot_ranges _ _ _ _ _ _ _ _ (proj1 Hh) Ho0 C) as (Rts & Rc & Fit).
  apply commit_slot_Ok in C as (L & Ro & Rn & Rl & Fh & I); [|lia|lia].
  pose proof (len_nonneg data) as D.
  split; [|split].
  - replace (h + 3) with (h + len (be_bytes 3 o)) by (now rewrite len_be_bytes).
    rewrite py_slice_window.
    + rewrite int_from_be_bytes. now apply Z.mod_small.
    + lia.
    + intros p Hp. rewrite len_be_bytes in Hp. rewrite I. on_bounds; reflexivity.
  - rewrite (mmap_get_fits m' (h + 3) (byte_of_Z n)).
    + now rewrite Z_of_byte_of_Z by lia.
    + lia.
    + rewrite I. on_bounds; reflexivity.
  - rewrite (mmap_get_fits m' (4096 * o + 4) (byte_of_Z c)).
    + now rewrite Z_of_byte_of_Z by lia.
    + lia.
    + rewrite I. on_bounds; reflexivity.
Qed.

(** A chunk that was written is read back: when a write returns and the
    offset field of the slot was not 1, [Chunk.open] finds in the file the
    timestamp of the write, the compression scheme that the write chose and
    the compressed bytes themselves. *)
Theorem open_after_write (x z : Z) (nbt : list byte) (ts : Z) (MCA MCA' : mmap) :
  write_mapped compress x z nbt ts MCA = Ok MCA' ->
  int_from_bytes (py_slice MCA (header_of x z) (header_of x z + 3)) <> 1 ->
  exists offset compression,
    find_slot MCA (header_of x z) = Ok (offset, compression) /\
    open_mapped x z MCA' = Ok (ts, compression, compress nbt compression).
Proof.
  intros H N. apply write_mapped_Ok in H as (o & c & old & m1 & F & G & R & C).
  exists o, c. split; [exact F|].
  pose proof (find_slot_offset _ _ _ _ F) as Ho.
  assert (Ho2 : 2 <= o).
  { apply find_slot_Ok in F. cbv zeta in F.
    destruct F as [(_ & _ & F & _)|(_ & -> & _)]; lia. }
  pose proof (len_nonneg (compress nbt c)) as D.
  pose proof (Z.div_pos (len (compress nbt c) + 1) 4096 ltac:(lia) ltac:(lia)).
  apply (open_after_commit x z o (1 + (len (compress nbt c) + 1) / 4096) ts c
           (compress nbt c) m1); [lia|lia|exact C].
Qed.

(** Writing the same chunk again: after a write that returned, a second
    write of the same data returns as well, with any timestamp of 32 bits; it
    leaves the length of the file and every byte outside the four timestamp
    bytes of the slot as they were, and with the same timestamp the file is
    the same. *)
Theorem write_twice (x z : Z) (nbt : list byte) (ts ts' : Z) (MCA MCA' : mmap) :
  write_mapped compress x z nbt ts MCA = Ok MCA' ->
  0 <= ts' < 2 ^ 32 ->
  exists MCA'',
    write_mapped compress x z nbt ts' MCA' = Ok MCA'' /\
    len MCA'' = len MCA' /\
    (forall p, ~ (header_of x z + 4096 <= p < header_of x z + 4100) ->
               item_at MCA'' p = item_at MCA' p) /\
    (ts' = ts -> MCA'' = MCA').
Proof.
  intros H Hts. apply write_mapped_Ok in H as (o & c & old & m1 & F & G & R & C).
  pose proof (find_slot_offset _ _ _ _ F) as Ho.
  destruct (header_of_range x z) as (Hh & _).
  set (h := header_of x z) in *.
  set (data := compress nbt c) in *.
  pose proof (len_nonneg data) as D.
  set (n := 1 + (len data + 1) / 4096) in *.
  destruct (written_entry h o n ts c data m1 MCA' Hh Ho C) as (W1 & W2 & W3).
  assert (Ho0 : 0 <= o) by lia.
  destruct (commit_slot_ranges _ _ _ _ _ _ _ _ (proj1 Hh) Ho0 C) as (Rts & Rc & Fit).
  pose proof C as C1.
  apply commit_slot_Ok in C1 as (L & Ro & Rn & Rl & Fh & I); [|lia|lia].
  destruct (commit_slot_fits h o n ts' c data MCA') as (m2 & C2); try lia.
  exists m2.
  assert (W : write_mapped compress x z nbt ts' MCA' = Ok m2).
  { unfold write_mapped. fold h. cbv zeta.
    unfold find_slot. rewrite W1.
    destruct (Z.eqb_spec o 0); [lia|]. rewrite W3. cbn [bind]. fold data.
    rewrite W2. cbn [bind]. fold n. unfold resize_slot.
    rewrite Z.sub_diag, Z.eqb_refl. cbn [bind]. exact C2. }
  pose proof C2 as C3.
  apply commit_slot_Ok in C3 as (L' & _ & _ & _ & _ & I'); [|lia|lia].
  split; [exact W|]. split; [exact L'|]. split.
  - intros p Hp. rewrite I'. specialize (I p).
    destruct ((o * 4096 + 5 <=? p) && (p <? o * 4096 + 5 + len data));
      [now rewrite I|].
    destruct (p =? o * 4096 + 4); [now rewrite I|].
    destruct ((o * 4096 <=? p) && (p <? o * 4096 + 4)); [now rewrite I|].
    destruct (Z.leb_spec (h + 4096) p); destruct (Z.ltb_spec p (h + 4096 + 4));
      cbn [andb] in *; try lia.
    + destruct (p =? h + 3); [now rewrite I|].
      destruct ((h <=? p) && (p <? h + 3)); now rewrite I.
    + destruct (p =? h + 3); [now rewrite I|].
      destruct ((h <=? p) && (p <? h + 3)); now rewrite I.
  - intros ->. apply item_at_ext. intros p. rewrite I'. specialize (I p).
    destruct ((o * 4096 + 5 <=? p) && (p <? o * 4096 + 5 + len data));
      [now rewrite I|].
    destruct (p =? o * 4096 + 4); [now rewrite I|].
    destruct ((o * 4096 <=? p) && (p <? o * 4096 + 4)); [now rewrite I|].
    destruct ((h + 4096 <=? p) && (p <? h + 4096 + 4)); [now rewrite I|].
    destruct (p =? h + 3); [now rewrite I|].
    destruct ((h <=? p) && (p <? h + 3)); now rewrite I.
Qed.

End RegionReading.
(** ** New files, writes in place and the end of the slot *)

Lemma len_zeros (n : Z) : 0 <= n -> len (zeros n) = n.
Proof. intros H. unfold zeros, len. rewrite repeat_length. lia. Qed.

Lemma item_at_repeat (b : byte) (k : nat) (p : Z) :
  0 <= p < Z.of_nat k -> item_at (repeat b k) p = Some b.
Proof.
  intros H. unfold item_at. destruct (Z.ltb_spec p 0) as [N|N]; [lia|].
  apply nth_error_repeat. lia.
Qed.

Lemma py_slice_zeros (n a k : Z) :
  0 <= a -> 0 <= k -> a + k <= n ->
  py_slice (zeros n) a (a + k) = repeat x00 (Z.to_nat k).
Proof.
  intros Ha Hk Hn.
  assert (L : len (repeat x00 (Z.to_nat k)) = k)
    by (unfold len; rewrite repeat_length; lia).
  rewrite <- L at 1. apply py_slice_window; [lia|]. intros p Hp. rewrite L in Hp.
  unfold zeros. rewrite !item_at_repeat by lia. reflexivity.
Qed.

Lemma entry_offset_zeros (n i : Z) :
  0 <= i -> i * 4 + 3 <= n -> entry_offset (zeros n) i = 0.
Proof.
  intros Hi Hn. unfold entry_offset. now rewrite (py_slice_zeros n (i * 4) 3) by lia.
Qed.

Lemma mmap_get_zeros (n p : Z) : 0 <= p < n -> mmap_get (zeros n) p = Ok 0.
Proof.
  intros H. rewrite (mmap_get_fits (zeros n) p x00); [reflexivity|lia|].
  unfold zeros. apply item_at_repeat. lia.
Qed.

Lemma mapM_const {A B} (f : A -> result B) (y : B) (l : list A) :
  (forall x, In x l -> f x = Ok y) -> mapM f l = Ok (repeat y (List.length l)).
Proof.
  induction l as [|x l IH]; intros H; [reflexivity|].
  cbn [mapM]. rewrite (H x) by now left. cbn [bind].
  rewrite IH by (intros; apply H; now right). reflexivity.
Qed.

Lemma fold_max_zeros (k : nat) (a : Z) : 0 <= a -> fold_left Z.max (repeat 0 k) a = a.
Proof.
  intros Ha. induction k as [|k IH]; [reflexivity|].
  cbn [repeat fold_left]. now rewrite Z.max_l by lia.
Qed.

(** An all-zero header has no slot in use: the first free sector is 2. *)
Lemma find_slot_zeros (n h : Z) :
  4096 <= n -> 0 <= h < 1024 -> find_slot (zeros n) h = Ok (2, 2).
Proof.
  intros Hn Hh. unfold find_slot.
  rewrite (py_slice_zeros n h 3) by lia.
  change (int_from_bytes (repeat x00 (Z.to_nat 3)) =? 0) with true. cbv iota.
  rewrite (mapM_const _ 0).
  - cbn [bind]. now rewrite fold_max_zeros.
  - intros i Hi. apply In_range in Hi. unfold entry_end.
    rewrite entry_offset_zeros, mmap_get_zeros by lia. reflexivity.
Qed.

(** The loop of lines 181-185 changes nothing when no entry lies past the
    slot. *)
Lemma bump_entries_none (offset change : Z) (l : list Z) (m : mmap) :
  (forall i, In i l -> entry_offset m i <= offset) ->
  foldM (bump_entry offset change) l m = Ok m.
Proof.
  induction l as [|i l IH]; intros H; [reflexivity|].
  cbn [foldM]. unfold bump_entry at 1.
  destruct (Z.gtb_spec (entry_offset m i) offset) as [G|G].
  - specialize (H i ltac:(now left)). lia.
  - cbn [bind]. apply IH. intros j Hj. apply H. now right.
Qed.

(** Lines 188-192 for a slot that ends the file: the file grows by the new
    sectors, and nothing is moved. *)
Lemma move_following_end (offset oldCount change : Z) (m : mmap) :
  0 < change -> 0 < len m -> 4096 * (offset + oldCount) = len m ->
  move_following offset oldCount change m = Ok (m ++ zeros (change * 4096)).
Proof.
  intros Hc Hm E. unfold move_following, mmap_resize. on_bounds. cbn [bind].
  replace (len m + change * 4096 - len m) with (change * 4096) by lia.
  fold (zeros (change * 4096)).
  assert (L : len (m ++ zeros (change * 4096)) = len m + change * 4096)
    by (rewrite len_app, len_zeros; lia).
  unfold mmap_set_from, py_slice_from.
  rewrite !slice_bound_nonneg by lia. rewrite E.
  replace (Z.to_nat (len m)) with (List.length m) by (unfold len; lia).
  rewrite skipn_all.
  replace (Z.to_nat (len m + 4096 * change))
    with (List.length (m ++ zeros (change * 4096))) by (unfold len in *; lia).
  rewrite skipn_all. cbn [len List.length Z.of_nat Z.eqb].
  now rewrite splice_nil.
Qed.

(** [commit_slot] raises at its last step when the payload ends past the
    end of the file. *)
Lemma commit_slot_short (h o n ts c : Z) (data : list byte) (m : mmap) :
  0 <= h -> h + 4100 <= len m -> 0 <= o < 256 ^ 3 -> 0 <= n <= 255 ->
  0 <= ts < 256 ^ 4 -> len data + 1 < 256 ^ 4 -> 0 <= c <= 255 ->
  o * 4096 + 5 <= len m -> len m < o * 4096 + 5 + len data ->
  commit_slot h o n ts (len data + 1) c data m = Raise IndexError.
Proof.
  intros Hh Hm Ho Hn Hts Hl Hc Hd Hs. pose proof (len_nonneg data) as D.
  unfold commit_slot.
  rewrite (int_to_bytes_fits o 3) by exact Ho. cbn [bind].
  rewrite (mmap_set_slice_fits m h (h + 3)) by (rewrite ?len_be_bytes; lia).
  cbn [bind].
  set (m1 := splice m h (be_bytes 3 o)).
  assert (L1 : len m1 = len m) by (apply len_splice; rewrite ?len_be_bytes; lia).
  rewrite (mmap_set_fits m1) by lia. cbn [bind].
  set (m2 := splice m1 (h + 3) [byte_of_Z n]).
  assert (L2 : len m2 = len m)
    by (unfold m2; rewrite len_splice; cbn [len List.length Z.of_nat]; lia).
  rewrite (int_to_bytes_fits ts 4) by exact Hts. cbn [bind].
  rewrite (mmap_set_slice_fits m2 (h + 4096) (h + 4100))
    by (rewrite ?len_be_bytes; lia).
  cbn [bind].
  set (m3 := splice m2 (h + 4096) (be_bytes 4 ts)).
  assert (L3 : len m3 = len m)
    by (unfold m3; rewrite len_splice; rewrite ?len_be_bytes; lia).
  rewrite (int_to_bytes_fits (len data + 1) 4) by (change (Z.of_nat 4) with 4; lia).
  cbn [bind].
  rewrite (mmap_set_slice_fits m3 (o * 4096) (o * 4096 + 4))
    by (rewrite ?len_be_bytes; lia).
  cbn [bind].
  set (m4 := splice m3 (o * 4096) (be_bytes 4 (len data + 1))).
  assert (L4 : len m4 = len m)
    by (unfold m4; rewrite len_splice; rewrite ?len_be_bytes; lia).
  rewrite (mmap_set_fits m4) by lia. cbn [bind].
  set (m5 := splice m4 (o * 4096 + 4) [byte_of_Z c]).
  assert (L5 : len m5 = len m)
    by (unfold m5; rewrite len_splice; cbn [len List.length Z.of_nat]; lia).
  apply mmap_set_slice_short; lia.
Qed.

Section RegionFiles.

Variable compress : list byte -> Z -> list byte.

(** Lines 150-156: a missing file is created with an empty header and then
    mapped. *)
Lemma write_file_new (x z : Z) (nbt : list byte) (ts : Z) :
  write_file compress false x z nbt ts None
  = write_mapped compress x z nbt ts (zeros 8192).
Proof.
  unfold write_file, zeros.
  destruct (repeat x00 (Z.to_nat 8192)) eqn:E; [|reflexivity].
  apply (f_equal (@List.length byte)) in E. rewrite repeat_length in E.
  cbn [List.length] in E. lia.
Qed.

(** Lines 158-192 on the new file: the slot is at sector 2 and the file has
    grown by the sectors of the chunk. *)
Lemma write_mapped_new (x z : Z) (nbt : list byte) (ts : Z) :
  write_mapped compress x z nbt ts (zeros 8192)
  = commit_slot (header_of x z) 2 (1 + (len (compress nbt 2) + 1) / 4096) ts
      (len (compress nbt 2) + 1) 2 (compress nbt 2)
      (zeros 8192 ++ zeros ((1 + (len (compress nbt 2) + 1) / 4096) * 4096)).
Proof.
  destruct (header_of_range x z) as (Hh & _).
  pose proof (len_nonneg (compress nbt 2)) as D.
  pose proof (Z.div_pos (len (compress nbt 2) + 1) 4096 ltac:(lia) ltac:(lia)) as Q.
  unfold write_mapped. cbv zeta.
  rewrite find_slot_zeros by lia. cbn [bind].
  rewrite mmap_get_zeros by lia. cbn [bind].
  rewrite Z.sub_0_r. unfold resize_slot.
  destruct (Z.eqb_spec (1 + (len (compress nbt 2) + 1) / 4096) 0) as [E|E]; [lia|].
  rewrite bump_entries_none.
  - cbn [bind]. rewrite move_following_end; [reflexivity|lia| |].
    + rewrite len_zeros; lia.
    + rewrite len_zeros; lia.
  - intros i Hi. apply In_range in Hi. rewrite entry_offset_zeros; lia.
Qed.

(** Writing into a folder that has no file for the region yet: the write
    returns exactly when the payload does not run past its last sector, that
    is when the length field [L + 1] leaves a remainder of at most 4092; then
    the file has the two header sectors and the sectors of the chunk, and
    [Chunk.open] reads the chunk back from it.  Otherwise the write raises
    IndexError at its last slice assignment. *)
Theorem write_creates_file (x z : Z) (nbt : list byte) (ts : Z) :
  0 <= ts < 2 ^ 32 ->
  1 + (len (compress nbt 2) + 1) / 4096 <= 255 ->
  ((len (compress nbt 2) + 1) mod 4096 <= 4092 ->
   exists MCA',
     write_file compress false x z nbt ts None = Ok MCA' /\
     len MCA' = 8192 + 4096 * (1 + (len (compress nbt 2) + 1) / 4096) /\
     open_mapped x z MCA' = Ok (ts, 2, compress nbt 2)) /\
  (4092 < (len (compress nbt 2) + 1) mod 4096 ->
   write_file compress false x z nbt ts None = Raise IndexError).
Proof.
  intros Hts Hn.
  destruct (header_of_range x z) as (Hh & _).
  set (data := compress nbt 2) in *.
  pose proof (len_nonneg data) as D.
  pose proof (Z.div_pos (len data + 1) 4096 ltac:(lia) ltac:(lia)) as Q.
  pose proof (Z.div_mod (len data + 1) 4096 ltac:(lia)) as M.
  pose proof (Z.mod_pos_bound (len data + 1) 4096 ltac:(lia)) as B.
  rewrite write_file_new, write_mapped_new. fold data.
  set (n := 1 + (len data + 1) / 4096) in *.
  set (m := zeros 8192 ++ zeros (n * 4096)).
  assert (L : len m = 8192 + n * 4096)
    by (unfold m; rewrite len_app, !len_zeros; lia).
  split.
  - intros Fit.
    destruct (commit_slot_fits (header_of x z) 2 n ts 2 data m) as (m' & C); try lia.
    exists m'. split; [exact C|]. split.
    + apply commit_slot_Ok in C as (L' & _); lia.
    + apply (open_after_commit x z 2 n ts 2 data m m'); [lia|lia|exact C].
  - intros Over. apply commit_slot_short; lia.
Qed.

(** A write that keeps the sector count of the slot keeps the length of the
    file and every byte outside the entry of the slot, its timestamp and its
    payload. *)
Theorem write_in_place (x z : Z) (nbt : list byte) (ts : Z) (MCA MCA' : mmap)
    (offset compression : Z) :
  find_slot MCA (header_of x z) = Ok (offset, compression) ->
  mmap_get MCA (header_of x z + 3)
  = Ok (1 + (len (compress nbt compression) + 1) / 4096) ->
  write_mapped compress x z nbt ts MCA = Ok MCA' ->
  len MCA' = len MCA /\
  forall p,
    ~ (header_of x z <= p < header_of x z + 4) ->
    ~ (header_of x z + 4096 <= p < header_of x z + 4100) ->
    ~ (offset * 4096 <= p < offset * 4096 + 5 + len (compress nbt compression)) ->
    item_at MCA' p = item_at MCA p.
Proof.
  intros F G H. apply write_mapped_Ok in H as (o & c & old & m1 & F' & G' & R & C).
  rewrite F in F'. injection F' as <- <-.
  rewrite G in G'. injection G' as <-.
  pose proof (find_slot_offset _ _ _ _ F) as Ho.
  destruct (header_of_range x z) as (Hh & _).
  unfold resize_slot in R. rewrite Z.sub_diag, Z.eqb_refl in R. injection R as <-.
  apply commit_slot_Ok in C as (L & _ & _ & _ & _ & I); [|lia|lia].
  pose proof (len_nonneg (compress nbt compression)) as D.
  split; [exact L|]. intros p P1 P2 P3. rewrite I. on_bounds; reflexivity.
Qed.

(** The payload of a slot takes [4 + (L + 1)] bytes and the slot
    [1 + (L + 1) // 4096] sectors: when [L + 1] leaves a remainder above 4092,
    a write that returns has put the last bytes of the compressed data into
    the first bytes of the sector that follows the slot. *)
Theorem write_overruns_slot (x z : Z) (nbt : list byte) (ts : Z) (MCA MCA' : mmap)
    (offset compression : Z) :
  find_slot MCA (header_of x z) = Ok (offset, compression) ->
  write_mapped compress x z nbt ts MCA = Ok MCA' ->
  let data := compress nbt compression in
  let newCount := 1 + (len data + 1) / 4096 in
  4092 < (len data + 1) mod 4096 ->
  4096 * (offset + newCount) < offset * 4096 + 5 + len data /\
  forall p, 4096 * (offset + newCount) <= p < offset * 4096 + 5 + len data ->
    exists b, item_at MCA' p = Some b /\
              item_at data (p - (offset * 4096 + 5)) = Some b.
Proof.
  intros F H data newCount Over.
  apply write_mapped_Ok in H as (o & c & old & m1 & F' & G' & R & C).
  rewrite F in F'. injection F' as <- <-. fold data in C. fold newCount in C.
  pose proof (find_slot_offset _ _ _ _ F) as Ho.
  destruct (header_of_range x z) as (Hh & _).
  pose proof (len_nonneg data) as D.
  pose proof (Z.div_mod (len data + 1) 4096 ltac:(lia)) as M.
  pose proof (Z.mod_pos_bound (len data + 1) 4096 ltac:(lia)) as B.
  apply commit_slot_Ok in C as (L & _ & _ & _ & _ & I); [|lia|lia].
  split; [unfold newCount; lia|].
  intros p Hp.
  destruct (item_at_inside data (p - (offset * 4096 + 5))) as (b & E);
    [unfold newCount in Hp; lia|].
  exists b. split; [|exact E]. rewrite I. on_bounds; exact E.
Qed.

End RegionFiles.

(** ** The sample files, read back *)

Lemma first_region_written :
  write_mapped store_raw 0 0 [x01; x02] 7 empty_region = Ok first_region.
Proof. vm_cast_no_check (eq_refl (Ok first_region)). Qed.

Lemma overrun_region_written :
  write_mapped store_raw 0 0 (repeat x07 (Z.to_nat 4094)) 0 two_chunk_region
  = Ok overrun_region.
Proof. vm_cast_no_check (eq_refl (Ok overrun_region)). Qed.

Lemma open_after_write_witness :
  exists offset compression,
    find_slot empty_region (header_of 0 0) = Ok (offset, compression) /\
    open_mapped 0 0 first_region
    = Ok (7, compression, store_raw [x01; x02] compression).
Proof.
  apply (open_after_write store_raw 0 0 [x01; x02] 7 empty_region first_region).
  - exact first_region_written.
  - vm_compute. discriminate.
Defined.

Lemma write_twice_witness :
  exists MCA'',
    write_mapped store_raw 0 0 [x01; x02] 9 first_region = Ok MCA'' /\
    len MCA'' = len first_region.
Proof.
  destruct (write_twice store_raw 0 0 [x01; x02] 7 9 empty_region first_region)
    as (m & W & L & _).
  - exact first_region_written.
  - lia.
  - exists m. split; [exact W|exact L].
Defined.

Lemma write_creates_file_witness :
  exists MCA',
    write_file store_raw false 0 0 [x01; x02] 7 None = Ok MCA' /\
    len MCA' = 8192 + 4096 * (1 + (len (store_raw [x01; x02] 2) + 1) / 4096) /\
    open_mapped 0 0 MCA' = Ok (7, 2, store_raw [x01; x02] 2).
Proof.
  apply (write_creates_file store_raw 0 0 [x01; x02] 7).
  - lia.
  - vm_compute. discriminate.
  - vm_compute. discriminate.
Defined.

Lemma write_in_place_witness :
  len overrun_region = len two_chunk_region /\
  item_at overrun_region 4 = item_at two_chunk_region 4.
Proof.
  assert (P1 : ~ (header_of 0 0 <= 4 < header_of 0 0 + 4))
    by (vm_compute; intros (A & B); discriminate).
  assert (P2 : ~ (header_of 0 0 + 4096 <= 4 < header_of 0 0 + 4100))
    by (vm_compute; intros (A & B); now apply A).
  assert (P3 : ~ (2 * 4096 <= 4
                  < 2 * 4096 + 5 + len (store_raw (repeat x07 (Z.to_nat 4094)) 3)))
    by (vm_compute; intros (A & B); now apply A).
  assert (F : find_slot two_chunk_region (header_of 0 0) = Ok (2, 3))
    by (vm_compute; reflexivity).
  assert (G : mmap_get two_chunk_region (header_of 0 0 + 3)
              = Ok (1 + (len (store_raw (repeat x07 (Z.to_nat 4094)) 3) + 1) / 4096))
    by (vm_compute; reflexivity).
  destruct (write_in_place store_raw 0 0 (repeat x07 (Z.to_nat 4094)) 0
              two_chunk_region overrun_region 2 3 F G overrun_region_written)
    as (L & I).
  split; [exact L|exact (I 4 P1 P2 P3)].
Defined.

Lemma write_overruns_slot_witness :
  exists b, item_at overrun_region 12288 = Some b /\
            item_at (store_raw (repeat x07 (Z.to_nat 4094)) 3) 4091 = Some b.
Proof.
  assert (F : find_slot two_chunk_region (header_of 0 0) = Ok (2, 3))
    by (vm_compute; reflexivity).
  assert (O : 4092 < (len (store_raw (repeat x07 (Z.to_nat 4094)) 3) + 1) mod 4096)
    by (vm_compute; reflexivity).
  assert (P : 4096 * (2 + (1 + (len (store_raw (repeat x07 (Z.to_nat 4094)) 3) + 1)
                               / 4096))
              <= 12288
              < 2 * 4096 + 5 + len (store_raw (repeat x07 (Z.to_nat 4094)) 3))
    by (vm_compute; split; [discriminate|reflexivity]).
  exact (proj2 (write_overruns_slot store_raw 0 0 (repeat x07 (Z.to_nat 4094)) 0
                  two_chunk_region overrun_region 2 3 F overrun_region_written O)
           12288 P).
Defined.
(** ** The other chunks of a file that is written *)

Lemma mmap_get_at (m m' : mmap) (p p' : Z) :
  0 <= p -> 0 <= p' -> item_at m p = item_at m' p' -> mmap_get m p = mmap_get m' p'.
Proof.
  intros Hp Hp' E. unfold mmap_get. rewrite !py_getitem_eq by assumption.
  now rewrite E.
Qed.

(** A slice of bytes that have moved by [d]. *)
Lemma py_slice_at {A} (l l' : list A) (a b d : Z) :
  0 <= a -> 0 <= b -> 0 <= a + d -> 0 <= b + d ->
  (forall p, a <= p < b -> item_at l' (p + d) = item_at l p) ->
  py_slice l' (a + d) (b + d) = py_slice l a b.
Proof.
  intros Ha Hb Ha' Hb' H. apply nth_error_ext. intros k.
  rewrite !nth_error_py_slice by assumption.
  replace (b + d - (a + d)) with (b - a) by lia.
  destruct (Z.ltb_spec (Z.of_nat k) (b - a)); [|reflexivity].
  replace (a + d + Z.of_nat k) with (a + Z.of_nat k + d) by lia. apply H. lia.
Qed.

Lemma bumped_0 (offset old : Z) : bumped offset 0 old = old.
Proof. unfold bumped. destruct (old >? offset); lia. Qed.

Section RegionOthers.

Variable compress : list byte -> Z -> list byte.

(** The bytes of the file that a returning write leaves, outside the slot
    that was written: the entries of the other chunks, the bytes before the
    slot and the bytes after it. *)
Lemma write_mapped_bytes (x z : Z) (nbt : list byte) (ts : Z) (MCA MCA' : mmap)
    (offset compression oldCount : Z) :
  8192 <= len MCA -> 2 <= offset ->
  find_slot MCA (header_of x z) = Ok (offset, compression) ->
  mmap_get MCA (header_of x z + 3) = Ok oldCount ->
  write_mapped compress x z nbt ts MCA = Ok MCA' ->
  let length := len (compress nbt compression) + 1 in
  let change := 1 + length / 4096 - oldCount in
  (forall i, 0 <= i < 1024 -> i * 4 <> header_of x z ->
     entry_offset MCA' i = bumped offset change (entry_offset MCA i) /\
     item_at MCA' (i * 4 + 3) = item_at MCA (i * 4 + 3) /\
     forall p, i * 4 + 4096 <= p < i * 4 + 4100 -> item_at MCA' p = item_at MCA p) /\
  (forall p, 8192 <= p < 4096 * offset -> p < len MCA ->
             item_at MCA' p = item_at MCA p) /\
  (forall p, 4096 * (offset + oldCount) <= p ->
             offset * 4096 + 4 + length <= p + change * 4096 ->
             item_at MCA' (p + change * 4096) = item_at MCA p).
Proof.
  intros HL Ho2 F G H length change.
  apply write_mapped_Ok in H as (o & c & old & m1 & F' & G' & R & C).
  rewrite F in F'. injection F' as <- <-.
  rewrite G in G'. injection G' as <-.
  fold length in R, C. fold change in R.
  pose proof (mmap_get_range _ _ _ G) as Hold.
  destruct (header_of_range x z) as (Hh & H4).
  set (h := header_of x z) in *.
  set (data := compress nbt compression) in *.
  pose proof (len_nonneg data) as Hd.
  set (newCount := 1 + length / 4096) in *.
  assert (Hn : 1 <= newCount).
  { unfold newCount, length. pose proof (Z.div_pos (len data + 1) 4096). lia. }
  assert (Ho0 : 0 <= offset) by lia.
  destruct (commit_slot_ranges _ _ _ _ _ _ _ _ (proj1 Hh) Ho0 C) as (_ & _ & Fit).
  apply commit_slot_Ok in C as (L & Ro & Rn & Rl & Fh & I); [|lia|lia].
  assert (LD : len data = length - 1) by (unfold length; lia).
  unfold resize_slot in R.
  destruct (Z.eqb_spec change 0) as [E0|N0].
  - (* the sector count stays *)
    injection R as <-. rewrite E0.
    split; [|split].
    + intros i Hi Ni. split; [|split].
      * rewrite bumped_0. apply entry_offset_ext; [lia|].
        intros p Hp. rewrite I. on_bounds; reflexivity.
      * rewrite I. on_bounds; reflexivity.
      * intros p Hp. rewrite I. on_bounds; reflexivity.
    + intros p Hp Hp'. rewrite I. on_bounds; reflexivity.
    + intros p Hp Hq. rewrite Z.mul_0_l, Z.add_0_r in *.
      rewrite I. on_bounds; reflexivity.
  - (* lines 179-192 *)
    inv_bind R.
    apply bump_entries_Ok in R0 as (Lb & Fb & Eb);
      [|apply NoDup_range|intros i Hi; apply In_range in Hi; lia].
    apply move_following_Ok in R as (Lm & Fm & Sm); [|lia|unfold change; lia].
    assert (Frame : forall p, 4096 <= p -> item_at a p = item_at MCA p).
    { intros p Hp. apply Fb. intros i Hi. apply In_range in Hi. lia. }
    split; [|split].
    + intros i Hi Ni.
      assert (Keep : forall p, i * 4 <= p < i * 4 + 4 -> item_at MCA' p = item_at a p).
      { intros p Hp. rewrite I. on_bounds; apply Fm; unfold change; lia. }
      split; [|split].
      * rewrite <- Eb by (apply In_range; lia).
        apply entry_offset_ext; [lia|]. intros p Hp. apply Keep. lia.
      * rewrite Keep by lia. apply Fb. intros j Hj. lia.
      * intros p Hp. rewrite <- Frame by lia. rewrite I.
        on_bounds; apply Fm; unfold change; lia.
    + intros p Hp Hp'. rewrite <- Frame by lia. rewrite I.
      on_bounds; apply Fm; unfold change; lia.
    + intros p Hp Hq. rewrite <- Frame by lia. rewrite <- Sm by assumption.
      rewrite I. on_bounds; reflexivity.
Qed.

(** A write leaves the other chunks of the file as they were: [Chunk.open] of
    a chunk with another header entry returns after the write what it
    returned before it, when that chunk is absent, or lies before the slot
    that is written (a slot that starts inside the file), or lies after that
    slot and the payload that is written fits its sectors.  The bytes of a
    chunk that follows have moved with the sector count, and its entry in the
    location table has followed them. *)
Theorem write_keeps_other_chunks (x z x' z' : Z) (nbt : list byte) (ts : Z)
    (MCA MCA' : mmap) (offset compression oldCount : Z) :
  8192 <= len MCA -> 2 <= offset ->
  find_slot MCA (header_of x z) = Ok (offset, compression) ->
  mmap_get MCA (header_of x z + 3) = Ok oldCount ->
  write_mapped compress x z nbt ts MCA = Ok MCA' ->
  header_of x' z' <> header_of x z ->
  let length := len (compress nbt compression) + 1 in
  let newCount := 1 + length / 4096 in
  let other := int_from_bytes (py_slice MCA (header_of x' z') (header_of x' z' + 3)) in
  let otherLength := int_from_bytes (py_slice MCA (4096 * other) (4096 * other + 4)) in
  other = 0 \/
  (2 <= other /\ 4096 * other + 4 + otherLength <= 4096 * offset <= len MCA) \/
  (offset < other /\ offset + oldCount <= other /\ 4 + length <= 4096 * newCount) ->
  open_mapped x' z' MCA' = open_mapped x' z' MCA.
Proof.
  intros HL Ho2 F G H Nh length newCount other otherLength Cases.
  destruct (write_mapped_bytes x z nbt ts MCA MCA' offset compression oldCount
              HL Ho2 F G H) as (Hd & Lo & Hi).
  fold length in Hd, Hi. fold newCount in Hd, Hi.
  assert (Hn : 1 <= newCount).
  { unfold newCount, length.
    pose proof (len_nonneg (compress nbt compression)).
    pose proof (Z.div_pos (len (compress nbt compression) + 1) 4096). lia. }
  pose proof (mmap_get_range _ _ _ G) as Hold.
  set (change := newCount - oldCount) in *.
  destruct (header_of_range x' z') as (Hh & H4).
  set (i := header_of x' z' / 4) in *.
  assert (Ri : 0 <= i < 1024) by lia.
  destruct (Hd i Ri ltac:(lia)) as (Eo & Ec & Et).
  assert (OL : 0 <= otherLength)
    by (pose proof (int_from_bytes_range (py_slice MCA (4096 * other) (4096 * other + 4)));
        unfold otherLength; lia).
  assert (Oo : 0 <= other)
    by (pose proof (int_from_bytes_range
                      (py_slice MCA (header_of x' z') (header_of x' z' + 3)));
        unfold other; lia).
  assert (EO : entry_offset MCA i = other)
    by (unfold entry_offset, other; now rewrite <- H4).
  unfold open_mapped. cbv zeta. fold other. fold otherLength.
  rewrite H4.
  change (int_from_bytes (py_slice MCA' (i * 4) (i * 4 + 3))) with (entry_offset MCA' i).
  rewrite Eo, EO.
  rewrite (mmap_get_at MCA' MCA (i * 4 + 3) (i * 4 + 3)) by (try lia; exact Ec).
  rewrite (py_slice_ext MCA' MCA (i * 4 + 4096) (i * 4 + 4100)) by (try lia; exact Et).
  destruct (mmap_get MCA (i * 4 + 3)) as [sc|e]; cbn [bind]; [|reflexivity].
  destruct Cases as [Z0|[(O2 & Before & Inside)|(After & Slot & Fits)]].
  - rewrite Z0. unfold bumped.
    destruct (Z.gtb_spec 0 offset); [lia|].
    now rewrite !andb_false_r.
  - assert (B : bumped offset change other = other)
      by (unfold bumped; destruct (Z.gtb_spec other offset); lia).
    rewrite B.
    rewrite (py_slice_ext MCA' MCA (4096 * other) (4096 * other + 4))
      by (try lia; intros p Hp; apply Lo; lia).
    fold otherLength.
    rewrite (mmap_get_at MCA' MCA (4096 * other + 4) (4096 * other + 4))
      by (try lia; apply Lo; lia).
    rewrite (py_slice_ext MCA' MCA (4096 * other + 5) (4096 * other + otherLength + 4))
      by (try lia; intros p Hp; apply Lo; lia).
    reflexivity.
  - assert (B : bumped offset change other = other + change)
      by (unfold bumped; destruct (Z.gtb_spec other offset); lia).
    rewrite B.
    assert (M : forall p, 4096 * other <= p ->
                          item_at MCA' (p + change * 4096) = item_at MCA p)
      by (intros p Hp; apply Hi; unfold change; lia).
    replace (4096 * (other + change)) with (4096 * other + change * 4096) by lia.
    replace (4096 * other + change * 4096 + 4)
      with (4096 * other + 4 + change * 4096) by lia.
    rewrite (py_slice_at MCA MCA' (4096 * other) (4096 * other + 4) (change * 4096))
      by (unfold change; try lia; intros p Hp; apply M; lia).
    fold otherLength.
    rewrite (mmap_get_at MCA' MCA (4096 * other + 4 + change * 4096) (4096 * other + 4))
      by (unfold change; try lia; apply M; lia).
    replace (4096 * other + change * 4096 + 5)
      with (4096 * other + 5 + change * 4096) by lia.
    replace (4096 * other + change * 4096 + otherLength + 4)
      with (4096 * other + otherLength + 4 + change * 4096) by lia.
    rewrite (py_slice_at MCA MCA' (4096 * other + 5) (4096 * other + otherLength + 4)
               (change * 4096))
      by (unfold change; try lia; intros p Hp; apply M; lia).
    destruct (Z.geb_spec (4096 * other + change * 4096) 2); [|unfold change in *; lia].
    destruct (Z.geb_spec (4096 * other) 2); [|lia].
    reflexivity.
Qed.

End RegionOthers.

Lemma grown_region_written :
  write_mapped store_raw 0 0 (repeat x07 (Z.to_nat 5000)) 0 two_chunk_region
  = Ok grown_region.
Proof. vm_cast_no_check (eq_refl (Ok grown_region)). Qed.

Lemma write_keeps_other_chunks_witness :
  open_mapped 1 0 grown_region = Ok (0, 3, [xaa]).
Proof.
  assert (HL : 8192 <= len two_chunk_region) by (vm_compute; discriminate).
  assert (Ho : 2 <= 2) by lia.
  assert (F : find_slot two_chunk_region (header_of 0 0) = Ok (2, 3))
    by (vm_compute; reflexivity).
  assert (G : mmap_get two_chunk_region (header_of 0 0 + 3) = Ok 1)
    by (vm_compute; reflexivity).
  assert (Nh : header_of 1 0 <> header_of 0 0) by (vm_compute; discriminate).
  assert (B : open_mapped 1 0 two_chunk_region = Ok (0, 3, [xaa]))
    by (vm_compute; reflexivity).
  refine (eq_trans
            (write_keeps_other_chunks store_raw 0 0 1 0 (repeat x07 (Z.to_nat 5000)) 0
               two_chunk_region grown_region 2 3 1 HL Ho F G grown_region_written Nh _)
            B).
  right. right. vm_compute. repeat split; discriminate.
Defined.
(** ** The unsigned view and the table of the classes *)

(** The range that [struct.pack] accepts. *)
Lemma pack_range (f : fmt) (v : Z) (b : list byte) :
  pack f v = Ok b ->
  (if signed f then - (256 ^ Z.of_nat (calcsize f) / 2) else 0) <= v
  < (if signed f then 256 ^ Z.of_nat (calcsize f) / 2 else 256 ^ Z.of_nat (calcsize f)).
Proof.
  unfold pack. intros H.
  destruct (Z.leb_spec (if signed f then - (256 ^ Z.of_nat (calcsize f) / 2) else 0) v);
    [|discriminate].
  destruct (Z.ltb_spec v (if signed f then 256 ^ Z.of_nat (calcsize f) / 2
                          else 256 ^ Z.of_nat (calcsize f)));
    [|discriminate].
  lia.
Qed.

Lemma unsigned_mod (c : number_cls) (v : Z) (b : list byte) :
  is_integer c = true -> pack (fmt_of c) v = Ok b ->
  unsigned (T_Number c v) = Ok (v mod 256 ^ Z.of_nat (calcsize (fmt_of c))).
Proof.
  intros I P. unfold unsigned. rewrite I, P. cbn [bind].
  apply pack_Ok in P as (-> & _). unfold unpack. rewrite length_be_bytes.
  destruct c; try discriminate I;
    cbn [fmt_of fmt_upper calcsize signed Nat.eqb negb andb];
    now rewrite int_from_be_bytes.
Qed.

(** [unsigned] reads the bytes of an integer tag again, without a sign: the
    value itself when it is not negative, and the value plus 2 to the number
    of bits of the class when it is. *)
Theorem unsigned_reinterprets (c : number_cls) (v : Z) (b : list byte) :
  is_integer c = true -> pack (fmt_of c) v = Ok b ->
  exists u, unsigned (T_Number c v) = Ok u /\
            0 <= u < 256 ^ Z.of_nat (calcsize (fmt_of c)) /\
            (0 <= v -> u = v) /\
            (v < 0 -> u = v + 256 ^ Z.of_nat (calcsize (fmt_of c))).
Proof.
  intros I P. exists (v mod 256 ^ Z.of_nat (calcsize (fmt_of c))).
  split; [now apply (unsigned_mod c v b)|].
  apply pack_range in P.
  destruct c; try discriminate I; cbn [fmt_of calcsize signed] in *; pow256;
    repeat split; intros; Z.div_mod_to_equations; lia.
Qed.

Lemma unsigned_reinterprets_witness :
  exists u, unsigned (T_Number TAG_Long (-1)) = Ok u /\
            0 <= u < 256 ^ Z.of_nat (calcsize (fmt_of TAG_Long)) /\
            (0 <= -1 -> u = -1) /\
            (-1 < 0 -> u = -1 + 256 ^ Z.of_nat (calcsize (fmt_of TAG_Long))).
Proof.
  apply (unsigned_reinterprets TAG_Long (-1) (be_bytes 8 (-1))); reflexivity.
Defined.

Lemma Number_from_bytes_Byte (b : byte) (rest : list byte) :
  Number_from_bytes TAG_Byte (b :: rest) = Ok (T_Number TAG_Byte (Z_of_byte b), rest).
Proof.
  pose proof (Z_of_byte_range b) as R.
  apply (Number_from_bytes_to_bytes TAG_Byte (Z_of_byte b) [b] rest).
  unfold Number_to_bytes, pack. cbn [fmt_of calcsize signed]. pow256.
  destruct (Z.leb_spec 0 (Z_of_byte b)); [|lia].
  destruct (Z.ltb_spec (Z_of_byte b) 256); [|lia].
  cbn [andb be_bytes]. change (256 ^ Z.of_nat 0) with 1.
  now rewrite Z.div_1_r, byte_of_Z_of_byte.
Qed.

(** [TAG.from_ID] returns the class that has the ID, for the IDs 0 to 12; as
    the table is a Python list, a negative index from -13 on counts from its
    end, and any other index raises IndexError.  The type byte of an item of
    a Compound or of the elements of a List is read without a sign: a byte
    above 12 makes [from_bytes] raise that IndexError. *)
Theorem from_ID_table (n : Z) :
  (0 <= n <= 12 -> exists c, from_ID n = Ok c /\ ID c = n) /\
  (-13 <= n < 0 -> exists c, from_ID n = Ok c /\ ID c = n + 13) /\
  (n < -13 \/ 12 < n -> from_ID n = Raise IndexError) /\
  (12 < n <= 255 -> forall fuel rest,
     from_bytes (S fuel) TAG_List (byte_of_Z n :: rest) = Raise IndexError /\
     from_bytes (S (S fuel)) TAG_Compound (byte_of_Z n :: rest) = Raise IndexError).
Proof.
  assert (Out : n < -13 \/ 12 < n -> from_ID n = Raise IndexError).
  { intros H. unfold from_ID, py_getitem.
    rewrite item_at_outside; [reflexivity|].
    change (len IDtable) with 13. destruct (Z.ltb_spec n 0); lia. }
  split; [|split; [|split; [exact Out|]]].
  - intros H. rewrite <- (Z2Nat.id n) by lia.
    assert (K : (Z.to_nat n < 13)%nat) by lia.
    revert K. generalize (Z.to_nat n) as k. intros k K.
    do 13 (destruct k as [|k]; [eexists; split; reflexivity|]). lia.
  - intros H. replace n with (- Z.of_nat (Z.to_nat (- n))) by lia.
    assert (K : (0 < Z.to_nat (- n) < 14)%nat) by lia.
    revert K. generalize (Z.to_nat (- n)) as k. intros k K.
    destruct k as [|k]; [lia|].
    do 13 (destruct k as [|k]; [eexists; split; reflexivity|]). lia.
  - intros H fuel rest.
    assert (N : Number_from_bytes TAG_Byte (byte_of_Z n :: rest)
                = Ok (T_Number TAG_Byte n, rest)).
    { rewrite Number_from_bytes_Byte. now rewrite Z_of_byte_of_Z by lia. }
    split.
    + cbn [from_bytes]. rewrite N. cbn [bind int_of is_integer].
      now rewrite Out by lia.
    + cbn [from_bytes items_from_bytes]. rewrite N. cbn [bind int_of is_integer].
      now rewrite Out by lia.
Qed.
(** ** Index assignment, deletion and the kind of a sequence *)





Lemma insert_lands {A} (l : list A) (key : Z) (x : A) :
  let k := Z.min (slice_bound l key) (len l) in
  0 <= k /\
  py_getitem (py_slice_to l key ++ [x] ++ py_slice_from l key) k = Ok x /\
  py_delitem (py_slice_to l key ++ [x] ++ py_slice_from l key) k = Ok l.
Proof.
  intros k.
  assert (B : 0 <= slice_bound l key)
    by (unfold slice_bound; destruct (Z.ltb_spec key 0); lia).
  pose proof (len_nonneg l) as Hl.
  assert (K : 0 <= k) by (unfold k; lia).
  unfold py_slice_to, py_slice_from.
  set (n := Z.to_nat (slice_bound l key)).
  set (a := firstn n l). set (b := skipn n l).
  assert (La : List.length a = Z.to_nat k)
    by (unfold a, k, len; rewrite length_firstn; lia).
  assert (E : l = a ++ b) by (unfold a, b; symmetry; apply firstn_skipn).
  assert (I : item_at (a ++ [x] ++ b) k = Some x).
  { unfold item_at. destruct (Z.ltb_spec k 0) as [N|N]; [lia|].
    rewrite nth_error_app2 by lia. rewrite La, Nat.sub_diag. reflexivity. }
  split; [exact K|]. split.
  - unfold py_getitem. destruct (Z.ltb_spec k 0) as [N|N]; [lia|]. now rewrite I.
  - unfold py_delitem. destruct (Z.ltb_spec k 0) as [N|N]; [lia|]. rewrite I.
    rewrite <- La. f_equal. transitivity (a ++ b); [|symmetry; exact E]. f_equal.
    + rewrite firstn_app, firstn_all, Nat.sub_diag. cbn [firstn]. apply app_nil_r.
    + rewrite skipn_app, skipn_all2 by lia.
      replace (S (List.length a) - List.length a)%nat with 1%nat by lia.
      reflexivity.
Qed.

(** Deleting undoes inserting: the value that [insert(key, value)] puts in
    lands at the index [min(key, len)], counted from the end for a negative
    [key], and [del] of that index gives the sequence back; [del] of an index
    outside the sequence raises IndexError and leaves it as it is. *)
Theorem insert_then_delete (l : list tag) (key : Z) (value : tag) (a : array_cls) :
  let k := Z.min (slice_bound l key) (len l) in
  getitem_int (fst (insert (T_List l) key value)) k = Ok value /\
  delitem (fst (insert (T_List l) key value)) k = (T_List l, Ok tt) /\
  getitem_int (fst (insert (T_Array a l) key value)) k = Ok value /\
  delitem (fst (insert (T_Array a l) key value)) k = (T_Array a l, Ok tt) /\
  (0 <= key <= len l -> k = key) /\
  (- len l <= key < 0 -> k = key + len l) /\
  (forall i, i < - len l \/ len l <= i ->
     delitem (T_List l) i = (T_List l, Raise IndexError)).
Proof.
  intros k. destruct (insert_lands l key value) as (K & G & D). fold k in G, D.
  pose proof (len_nonneg l) as Hl.
  cbn [insert fst getitem_int delitem]. rewrite G, D.
  repeat split; try reflexivity.
  - intros H. unfold k, slice_bound. destruct (Z.ltb_spec key 0); lia.
  - intros H. unfold k, slice_bound. destruct (Z.ltb_spec key 0); lia.
  - intros i H. unfold py_delitem.
    rewrite item_at_outside; [reflexivity|]. destruct (Z.ltb_spec i 0); lia.
Qed.

(** ** The constructors keep a sequence of one kind *)



(** ** Converting twice, concatenation and assignment into a Compound *)








Lemma mapM_length {A B} (f : A -> result B) (l : list A) :
  forall ys, mapM f l = Ok ys -> List.length ys = List.length l.
Proof.
  induction l as [|x l IH]; intros ys H.
  - apply Ok_inj in H. now subst.
  - cbn [mapM] in H. do 2 inv_bind H. apply Ok_inj in H. subst ys.
    cbn [List.length]. f_equal. now apply IH.
Qed.


Lemma List_new_Ends (n : nat) : List_new (repeat T_End n) = Ok (T_List (repeat T_End n)).
Proof.
  unfold List_new.
  assert (F : forall acc, Forall (fun e => e = T_End) acc ->
                foldM (List_append_to construct) (repeat T_End n) acc
                = Ok (acc ++ repeat T_End n)).
  { induction n as [|n IH]; intros acc A; [now rewrite app_nil_r|].
    cbn [repeat foldM]. unfold List_append_to at 1.
    assert (E : cls_eqb (List_elementType acc) TAG_End = true).
    { destruct acc as [|e acc]; [reflexivity|]. inversion A; subst. reflexivity. }
    rewrite E. cbn [bind]. rewrite IH.
    - now rewrite <- app_assoc.
    - apply Forall_app. split; [exact A|]. now constructor. }
  rewrite F by constructor. reflexivity.
Qed.


(** ** The text form of the tags *)




(** *** Strings *)

Lemma escape_no_quote (s : str) :
  forallb (fun c => negb (c =? 34)) s = true ->
  flat_map (fun c => if c =? 34 then [92; 34] else [c]) s = s.
Proof.
  induction s as [|c s IH]; [reflexivity|]. cbn [forallb flat_map].
  intros H. apply andb_prop in H as (H1 & H2).
  destruct (c =? 34); [discriminate|]. cbn [app]. now rewrite IH.
Qed.

Lemma lstrip_kept (chars : list Z) (s : str) :
  match s with
  | [] => True
  | c :: _ => existsb (Z.eqb c) chars = false
  end -> str_lstrip chars s = s.
Proof. destruct s as [|c s]; [reflexivity|]. cbn [str_lstrip]. now intros ->. Qed.

Lemma lstrip_head (chars : list Z) (s : str) :
  match str_lstrip chars s with
  | [] => True
  | c :: _ => existsb (Z.eqb c) chars = false
  end.
Proof.
  induction s as [|c s IH]; [exact I|]. cbn [str_lstrip].
  destruct (existsb (Z.eqb c) chars) eqn:E; [exact IH|exact E].
Qed.

Lemma lstrip_app_kept (chars : list Z) (c : Z) (s : str) :
  existsb (Z.eqb c) chars = false ->
  exists y, str_lstrip chars (s ++ [c]) = y ++ [c].
Proof.
  intros E. induction s as [|d s IH].
  - exists []. cbn [app str_lstrip]. now rewrite E.
  - cbn [app str_lstrip]. destruct (existsb (Z.eqb d) chars); [exact IH|].
    now exists (d :: s).
Qed.

(** What [strip] returns neither starts nor ends with one of the [chars]. *)
Lemma strip_ends (chars : list Z) (s : str) :
  match str_strip chars s with
  | [] => True
  | c :: _ => existsb (Z.eqb c) chars = false
  end /\
  (str_strip chars s <> [] ->
   existsb (Z.eqb (last (str_strip chars s) 0)) chars = false).
Proof.
  unfold str_strip, str_rstrip.
  pose proof (lstrip_head chars s) as H.
  set (x := str_lstrip chars s) in *.
  pose proof (lstrip_head chars (rev x)) as T.
  destruct (str_lstrip chars (rev x)) as [|d y] eqn:Y.
  - split; [exact I|]. intros N. now contradiction N.
  - split.
    + destruct x as [|c x']; [discriminate Y|].
      cbn [rev] in Y. destruct (lstrip_app_kept chars c (rev x') H) as (w & W).
      rewrite W in Y. rewrite <- Y, rev_app_distr. exact H.
    + intros _. cbn [rev]. now rewrite last_last.
Qed.

Lemma count_lstrip (chars : list Z) (k : Z) (s : str) :
  existsb (Z.eqb k) chars = false ->
  count_occ Z.eq_dec (str_lstrip chars s) k = count_occ Z.eq_dec s k.
Proof.
  intros E. induction s as [|c s IH]; [reflexivity|]. cbn [str_lstrip].
  destruct (existsb (Z.eqb c) chars) eqn:C; [|reflexivity].
  rewrite IH. cbn [count_occ]. destruct (Z.eq_dec c k) as [->|N]; [congruence|reflexivity].
Qed.

Lemma count_strip (chars : list Z) (k : Z) (s : str) :
  existsb (Z.eqb k) chars = false ->
  count_occ Z.eq_dec (str_strip chars s) k = count_occ Z.eq_dec s k.
Proof.
  intros E. unfold str_strip, str_rstrip.
  now rewrite count_occ_rev, count_lstrip, count_occ_rev, count_lstrip.
Qed.

Lemma count_escape (s : str) :
  count_occ Z.eq_dec (flat_map (fun c => if c =? 34 then [92; 34] else [c]) s) 92
  = (count_occ Z.eq_dec s 92%Z + count_occ Z.eq_dec s 34%Z)%nat.
Proof.
  induction s as [|c s IH]; [reflexivity|]. cbn [flat_map].
  rewrite count_occ_app, IH. cbn [count_occ].
  destruct (Z.eqb_spec c 34) as [->|N].
  - cbn [count_occ]. destruct (Z.eq_dec 92 92); [|congruence].
    destruct (Z.eq_dec 34 92); [discriminate|].
    destruct (Z.eq_dec 34 34); [|congruence]. lia.
  - cbn [count_occ]. destruct (Z.eq_dec c 92); destruct (Z.eq_dec c 34); lia.
Qed.

Lemma lstrip_quote (s : str) : str_lstrip [34; 39] (34 :: s) = str_lstrip [34; 39] s.
Proof. reflexivity. Qed.

Lemma String_new_value (s : str) (t : tag) : String_new s = Ok t -> t = T_String s.
Proof.
  unfold String_new. intros H. do 2 inv_bind H. apply Ok_inj in H. now subst.
Qed.

(** The text form of a String and [from_snbt]: the String that comes back
    from its own text is the String itself exactly when it holds no double
    quote (which [to_snbt] escapes and [from_snbt] does not unescape) and
    neither starts nor ends with an apostrophe (which [strip] takes away with
    the quotes). *)
Theorem String_snbt_round_trip (s : str) :
  exists q, to_snbt (T_String s) = Ok q /\
    (forallb (fun c => negb (c =? 34)) s = true ->
     hd 0 s <> 39 -> last s 0 <> 39 ->
     String_from_snbt q = String_new s) /\
    (In 34 s -> String_from_snbt q <> Ok (T_String s)) /\
    (hd 0 s = 39 \/ last s 0 = 39 -> String_from_snbt q <> Ok (T_String s)).
Proof.
  eexists. split; [reflexivity|].
  set (esc := flat_map (fun c => if c =? 34 then [92; 34] else [c]) s).
  split; [|split].
  - intros Q Hh Hl. unfold String_from_snbt. f_equal.
    unfold esc. rewrite (escape_no_quote s Q).
    unfold str_strip, str_rstrip. cbn [app]. rewrite lstrip_quote.
    destruct s as [|c s]; [reflexivity|].
    cbn [forallb hd] in *. apply andb_prop in Q as (Q1 & Q2).
    rewrite (lstrip_kept [34; 39] ((c :: s) ++ [34])).
    + rewrite rev_app_distr. cbn [rev app]. rewrite lstrip_quote.
      rewrite lstrip_kept; [apply (rev_involutive (c :: s))|].
      destruct (rev s ++ [c]) as [|d r] eqn:R; [exact I|].
      assert (L : last (c :: s) 0 = d).
      { rewrite <- (rev_involutive (c :: s)). cbn [rev]. rewrite R.
        cbn [rev]. apply last_last. }
      rewrite L in Hl. cbn [existsb orb].
      assert (In d (c :: s)).
      { apply in_rev. cbn [rev]. rewrite R. now left. }
      assert (forallb (fun c => negb (c =? 34)) (c :: s) = true) as F
        by (cbn [forallb]; now rewrite Q1, Q2).
      rewrite forallb_forall in F. specialize (F d H).
      destruct (Z.eqb_spec d 34); [discriminate|].
      destruct (Z.eqb_spec d 39); [contradiction|]. reflexivity.
    + cbn [app existsb orb].
      destruct (Z.eqb_spec c 34); [discriminate|].
      destruct (Z.eqb_spec c 39); [contradiction|]. reflexivity.
  - intros Hin E. unfold String_from_snbt in E. apply String_new_value in E.
    injection E as E.
    assert (C : count_occ Z.eq_dec (str_strip [34; 39] ([34] ++ esc ++ [34])) 92
                = (count_occ Z.eq_dec s 92%Z + count_occ Z.eq_dec s 34%Z)%nat).
    { rewrite count_strip by reflexivity.
      rewrite !count_occ_app. unfold esc. rewrite count_escape.
      cbn [count_occ]. destruct (Z.eq_dec 34 92); [discriminate|]. lia. }
    rewrite <- E in C at 1.
    apply (count_occ_In Z.eq_dec) in Hin. lia.
  - intros Ends E. unfold String_from_snbt in E. apply String_new_value in E.
    injection E as E.
    destruct (strip_ends [34; 39] (34 :: esc ++ [34])) as (Hd & Lt).
    rewrite <- E in Hd, Lt.
    destruct s as [|c s]; [cbn [hd last] in Ends; destruct Ends; discriminate|].
    specialize (Lt ltac:(discriminate)).
    destruct Ends as [Hc|Hc].
    + cbn [hd] in Hc. subst c. discriminate Hd.
    + rewrite Hc in Lt. discriminate Lt.
Qed.
(** ** Assignment into a Compound *)














(** *** The dict *)


Lemma str_eqb_refl (k : str) : str_eqb k k = true.
Proof. now apply str_eqb_eq. Qed.

Lemma dict_get_set {V} (d : list (str * V)) (k : str) (v : V) :
  dict_get (dict_set d k v) k = Ok v.
Proof.
  induction d as [|(k', v') d IH]; cbn [dict_set dict_get].
  - now rewrite str_eqb_refl.
  - destruct (str_eqb k' k) eqn:E; cbn [dict_get]; rewrite E; [reflexivity|exact IH].
Qed.

Lemma dict_get_set_other {V} (d : list (str * V)) (k k' : str) (v : V) :
  str_eqb k k' = false -> dict_get (dict_set d k v) k' = dict_get d k'.
Proof.
  intros N. induction d as [|(k0, v0) d IH]; cbn [dict_set dict_get].
  - rewrite N. reflexivity.
  - destruct (str_eqb k0 k) eqn:E; cbn [dict_get].
    + apply str_eqb_eq in E. subst k0. rewrite N. reflexivity.
    + destruct (str_eqb k0 k'); [reflexivity|exact IH].
Qed.



(** ** What [from_bytes] reads *)

Lemma read_bytes_Ok (it : list byte) (n : Z) (b rest : list byte) :
  read_bytes it n = Ok (b, rest) -> it = b ++ rest /\ (0 <= n -> len b = n).
Proof.
  unfold read_bytes. destruct (Z.ltb_spec (len it) n) as [L|L]; [discriminate|].
  intros H. apply Ok_inj in H. injection H as <- <-.
  split; [symmetry; apply firstn_skipn|].
  intros Hn. unfold len in *. rewrite length_firstn. lia.
Qed.

Lemma Number_from_bytes_Ok (c : number_cls) (it : list byte) (t : tag)
    (rest : list byte) :
  Number_from_bytes c it = Ok (t, rest) ->
  exists v used, t = T_Number c v /\ it = used ++ rest /\
                 List.length used = calcsize (fmt_of c) /\
                 unpack (fmt_of c) used = Ok v /\ Number_new c v = Ok t.
Proof.
  unfold Number_from_bytes. intros H.
  inv_bind H. destruct a as (used, r). inv_bind H. inv_bind H.
  apply Ok_inj in H. injection H as <- <-.
  apply read_bytes_Ok in H0 as (E & L).
  pose proof H2 as N. unfold Number_new in N. inv_bind N. apply Ok_inj in N.
  exists a, used. repeat split; auto.
  specialize (L ltac:(lia)). unfold len in L. lia.
Qed.

Lemma String_from_bytes_Ok (it : list byte) (t : tag) (rest : list byte) :
  String_from_bytes it = Ok (t, rest) ->
  (exists s, t = T_String s) /\ exists used, it = used ++ rest.
Proof.
  unfold String_from_bytes. intros H.
  inv_bind H. destruct a as (n, r1). inv_bind H. inv_bind H.
  destruct a0 as (b, r2). inv_bind H. inv_bind H.
  apply Ok_inj in H. injection H as <- <-.
  apply Number_from_bytes_Ok in H0 as (v & u1 & _ & E1 & _).
  apply read_bytes_Ok in H2 as (E2 & _).
  apply String_new_value in H4.
  split; [eauto|]. exists (u1 ++ b). rewrite <- app_assoc. congruence.
Qed.

Section Prefix.

Variable from_bytes' : cls -> list byte -> result (tag * list byte).
Hypothesis reads_prefix :
  forall c it t rest, from_bytes' c it = Ok (t, rest) -> exists used, it = used ++ rest.

Lemma elements_prefix (c : cls) (n : nat) :
  forall it l rest,
    elements_from_bytes from_bytes' c n it = Ok (l, rest) ->
    exists used, it = used ++ rest.
Proof.
  induction n as [|n IH]; intros it l rest H; cbn [elements_from_bytes] in H.
  - apply Ok_inj in H. injection H as <- <-. now exists [].
  - inv_bind H. destruct a as (e, r1). inv_bind H. destruct a as (l', r2).
    apply Ok_inj in H. injection H as <- <-.
    apply reads_prefix in H0 as (u1 & ->). apply IH in H1 as (u2 & ->).
    exists (u1 ++ u2). now rewrite <- app_assoc.
Qed.

Lemma decode_bytes_prefix (c : cls) (it : list byte) (l : list tag) (rest : list byte) :
  decode_bytes from_bytes' it c = Ok (l, rest) -> exists used, it = used ++ rest.
Proof.
  unfold decode_bytes. intros H. inv_bind H. destruct a as (n, r1). inv_bind H.
  apply Number_from_bytes_Ok in H0 as (v & u1 & _ & -> & _).
  apply elements_prefix in H as (u2 & ->).
  exists (u1 ++ u2). now rewrite <- app_assoc.
Qed.

Lemma items_prefix (n : nat) :
  forall it acc d rest,
    items_from_bytes from_bytes' n it acc = Ok (d, rest) ->
    exists used, it = used ++ rest.
Proof.
  induction n as [|n IH]; intros it acc d rest H; cbn [items_from_bytes] in H;
    [discriminate|].
  destruct (Number_from_bytes TAG_Byte it) as [(i, r1)|e] eqn:N.
  - apply Number_from_bytes_Ok in N as (v & u1 & _ & -> & _).
    inv_bind H. inv_bind H. destruct (cls_eqb a0 TAG_End).
    + apply Ok_inj in H. injection H as <- <-. eauto.
    + inv_bind H. destruct a1 as (name, r2).
      apply String_from_bytes_Ok in H2 as ((s & ->) & u2 & ->).
      inv_bind H. destruct a1 as (v', r3).
      apply reads_prefix in H2 as (u3 & ->). apply IH in H as (u4 & ->).
      exists (u1 ++ u2 ++ u3 ++ u4). now rewrite <- !app_assoc.
  - destruct e; try discriminate. apply Ok_inj in H. injection H as <- <-.
    now exists [].
Qed.

End Prefix.

(** [from_bytes] returns a tag of the class that was asked for, and what it
    leaves of the bytes is their end: it reads a prefix, in order, and never
    looks behind or past what it returns. *)
Theorem from_bytes_reads_a_prefix (fuel : nat) (c : cls) (it : list byte)
    (t : tag) (rest : list byte) :
  from_bytes fuel c it = Ok (t, rest) ->
  type_of t = c /\ exists used, it = used ++ rest.
Proof.
  revert c it t rest. induction fuel as [|fuel IH]; intros c it t rest H;
    [discriminate|].
  assert (P : forall c it t rest,
             from_bytes fuel c it = Ok (t, rest) -> exists used, it = used ++ rest)
    by (intros c' it' t' rest' H'; now apply (IH c' it' t' rest')).
  cbn [from_bytes] in H. destruct c as [|n|a| | |].
  - apply Ok_inj in H. injection H as <- <-. split; [reflexivity|now exists []].
  - apply Number_from_bytes_Ok in H as (v & u & -> & -> & _). eauto.
  - inv_bind H. destruct a0 as (l, r). inv_bind H. apply Ok_inj in H.
    injection H as <- <-. split.
    + match goal with
      | N : Array_new _ _ = Ok _ |- _ =>
        unfold Array_new in N; inv_bind N; apply Ok_inj in N; now subst
      end.
    + match goal with
      | N : decode_bytes _ _ _ = Ok _ |- _ => now apply (decode_bytes_prefix _ P _ _ _ _ N)
      end.
  - apply String_from_bytes_Ok in H as ((s & ->) & U). auto.
  - inv_bind H. destruct a as (i, r1). inv_bind H. inv_bind H. inv_bind H.
    destruct a1 as (l, r2). inv_bind H. apply Ok_inj in H. injection H as <- <-.
    split.
    + match goal with
      | N : List_new _ = Ok _ |- _ =>
        unfold List_new in N; inv_bind N; apply Ok_inj in N; now subst
      end.
    + match goal with
      | N : Number_from_bytes _ _ = Ok _ |- _ =>
        apply Number_from_bytes_Ok in N as (v & u1 & _ & -> & _)
      end.
      match goal with
      | N : decode_bytes _ _ _ = Ok _ |- _ =>
        apply (decode_bytes_prefix _ P) in N as (u2 & ->)
      end.
      exists (u1 ++ u2). now rewrite <- app_assoc.
  - inv_bind H. destruct a as (d, r). apply Ok_inj in H. injection H as <- <-.
    split; [reflexivity|].
    match goal with
    | N : items_from_bytes _ _ _ _ = Ok _ |- _ => now apply (items_prefix _ P _ _ _ _ _ N)
    end.
Qed.

Lemma from_bytes_reads_a_prefix_witness :
  type_of (T_String (lit "hi")) = TAG_String /\
  exists used, [x00; x02; x68; x69; x07] = used ++ [x07].
Proof.
  apply (from_bytes_reads_a_prefix 1 TAG_String [x00; x02; x68; x69; x07]).
  reflexivity.
Defined.

(** *** Counts that are not positive, and Lists of End *)

Lemma pack_i (n : Z) : - 2 ^ 31 <= n < 2 ^ 31 -> pack fmt_i n = Ok (be_bytes 4 n).
Proof.
  intros H. unfold pack. cbn [calcsize signed]. pow256.
  change (4294967296 / 2) with 2147483648. change (2 ^ 31) with 2147483648 in H.
  destruct (Z.leb_spec (Z.opp 2147483648) n); [|lia].
  destruct (Z.ltb_spec n 2147483648); [reflexivity|lia].
Qed.

Lemma decode_count (fb : cls -> list byte -> result (tag * list byte)) (n : Z)
    (c : cls) (rest : list byte) :
  - 2 ^ 31 <= n < 2 ^ 31 ->
  decode_bytes fb (be_bytes 4 n ++ rest) c = elements_from_bytes fb c (Z.to_nat n) rest.
Proof.
  intros H. unfold decode_bytes.
  rewrite (Number_from_bytes_to_bytes TAG_Int n (be_bytes 4 n)) by now apply pack_i.
  reflexivity.
Qed.

(** The count of a sequence is a signed Int and the elements are read in a
    loop over [range(count)]: with a count that is negative or zero,
    [from_bytes] reads no element and returns an empty Array or List, and the
    element kind that the bytes gave for the List is lost with the count
    ([to_bytes] of an empty List writes the kind End and the count 0). *)
Theorem nonpositive_count_is_empty (n : Z) (a : array_cls) (c : cls) (fuel : nat)
    (rest : list byte) :
  - 2 ^ 31 <= n <= 0 ->
  from_bytes (S fuel) (TAG_Array a) (be_bytes 4 n ++ rest) = Ok (T_Array a [], rest) /\
  from_bytes (S fuel) TAG_List (be_bytes 1 (ID c) ++ be_bytes 4 n ++ rest)
  = Ok (T_List [], rest) /\
  to_bytes (T_List []) = Ok (be_bytes 1 0 ++ be_bytes 4 0).
Proof.
  intros H. split; [|split; [|reflexivity]].
  - cbn [from_bytes]. rewrite decode_count by lia.
    replace (Z.to_nat n) with 0%nat by lia. reflexivity.
  - cbn [from_bytes].
    rewrite (Number_from_bytes_to_bytes TAG_Byte (ID c) (be_bytes 1 (ID c)))
      by apply pack_ID.
    cbn [bind int_of is_integer]. rewrite from_ID_ID. cbn [bind].
    rewrite decode_count by lia.
    replace (Z.to_nat n) with 0%nat by lia. reflexivity.
Qed.

Lemma nonpositive_count_is_empty_witness :
  from_bytes 1 (TAG_Array TAG_Int_Array) (be_bytes 4 (-1) ++ [x07])
  = Ok (T_Array TAG_Int_Array [], [x07]) /\
  from_bytes 1 TAG_List (be_bytes 1 (ID TAG_Int) ++ be_bytes 4 (-1) ++ [x07])
  = Ok (T_List [], [x07]) /\
  to_bytes (T_List []) = Ok (be_bytes 1 0 ++ be_bytes 4 0).
Proof.
  apply (nonpositive_count_is_empty (-1) TAG_Int_Array TAG_Int 0 [x07]). lia.
Defined.

Lemma elements_End (fb : cls -> list byte -> result (tag * list byte)) (k : nat)
    (rest : list byte) :
  (forall it, fb TAG_End it = Ok (T_End, it)) ->
  elements_from_bytes fb TAG_End k rest = Ok (repeat T_End k, rest).
Proof.
  intros E. induction k as [|k IH]; [reflexivity|].
  cbn [elements_from_bytes]. rewrite E. cbn [bind]. now rewrite IH.
Qed.

(** An End takes no byte: a List whose bytes give the kind End and the count
    [n] is decoded from five bytes into [n] End tags, whatever follows. *)
Theorem List_of_End_reads_nothing (n : Z) (fuel : nat) (rest : list byte) :
  0 <= n < 2 ^ 31 ->
  from_bytes (S (S fuel)) TAG_List (x00 :: be_bytes 4 n ++ rest)
  = Ok (T_List (repeat T_End (Z.to_nat n)), rest).
Proof.
  intros H. cbn [from_bytes].
  change (x00 :: be_bytes 4 n ++ rest) with ([x00] ++ be_bytes 4 n ++ rest).
  rewrite (Number_from_bytes_to_bytes TAG_Byte 0 [x00]) by reflexivity.
  cbn [bind int_of is_integer]. change (from_ID 0) with (Ok TAG_End). cbn [bind].
  rewrite decode_count by lia. rewrite elements_End by reflexivity. cbn [bind].
  now rewrite List_new_Ends.
Qed.

Lemma List_of_End_reads_nothing_witness :
  from_bytes 2 TAG_List (x00 :: be_bytes 4 3 ++ [x07])
  = Ok (T_List (repeat T_End (Z.to_nat 3)), [x07]).
Proof. apply (List_of_End_reads_nothing 3 0 [x07]). lia. Defined.

(** *** A name that comes twice *)

Lemma dict_has_set {V} (d : list (str * V)) (k k' : str) (v : V) :
  dict_has (dict_set d k v) k' = dict_has d k' || str_eqb k k'.
Proof.
  induction d as [|(k0, v0) d IH]; cbn [dict_set dict_has].
  - now rewrite orb_false_r.
  - destruct (str_eqb k0 k) eqn:E; cbn [dict_has].
    + apply str_eqb_eq in E. subst k0.
      destruct (str_eqb k k'); [reflexivity|]. cbn [orb]. now rewrite orb_false_r.
    + rewrite IH. now rewrite orb_assoc.
Qed.

Lemma dict_set_ok {V} (d : list (str * V)) (k : str) (v : V) :
  dict_ok d = true -> dict_ok (dict_set d k v) = true.
Proof.
  induction d as [|(k0, v0) d IH]; cbn [dict_set dict_ok]; [reflexivity|].
  intros H. apply andb_prop in H as (H1 & H2).
  destruct (str_eqb k0 k) eqn:E; cbn [dict_ok].
  - now rewrite H1, H2.
  - rewrite dict_has_set, IH by assumption.
    apply negb_true_iff in H1. rewrite H1.
    rewrite str_eqb_sym, E. reflexivity.
Qed.

Lemma fold_set_ok {V} (d acc : list (str * V)) :
  dict_ok acc = true ->
  dict_ok (fold_left (fun a kv => dict_set a (fst kv) (snd kv)) d acc) = true.
Proof.
  revert acc. induction d as [|(k, v) d IH]; intros acc H; [exact H|].
  cbn [fold_left fst snd]. apply IH. now apply dict_set_ok.
Qed.

Lemma fold_set_other {V} (d acc : list (str * V)) (k : str) :
  dict_has d k = false ->
  dict_get (fold_left (fun a kv => dict_set a (fst kv) (snd kv)) d acc) k
  = dict_get acc k.
Proof.
  revert acc. induction d as [|(k0, v0) d IH]; intros acc H; [reflexivity|].
  cbn [dict_has] in H. apply orb_false_iff in H as (H1 & H2).
  cbn [fold_left fst snd]. rewrite IH by exact H2.
  now apply dict_get_set_other.
Qed.

Lemma items_decode (d : list (str * tag)) :
  Forall (fun kv => str_ok (fst kv) = true /\ is_End (snd kv) = false
                    /\ storable (snd kv) = true) d ->
  exists b, items_to_bytes to_bytes d = Ok b /\
    forall fuel n acc,
      (list_max (map (fun kv => fuel_for (snd kv)) d) <= fuel)%nat ->
      (List.length d < n)%nat ->
      (forall rest,
         items_from_bytes (from_bytes fuel) n (b ++ x00 :: rest) acc
         = Ok (fold_left (fun a kv => dict_set a (fst kv) (snd kv)) d acc, rest)) /\
      items_from_bytes (from_bytes fuel) n b acc
      = Ok (fold_left (fun a kv => dict_set a (fst kv) (snd kv)) d acc, []).
Proof.
  induction d as [|(k, v) d IH]; intros St.
  - exists []. split; [reflexivity|]. intros fuel n acc _ N.
    destruct n as [|n]; [inversion N|]. split; [|reflexivity].
    intros rest. cbn [items_from_bytes app fold_left].
    change (x00 :: rest) with ([x00] ++ rest).
    rewrite (Number_from_bytes_to_bytes TAG_Byte 0 [x00] rest eq_refl).
    reflexivity.
  - inversion St as [|? ? (Kk & Ev & Sv) S']; subst. cbn [fst snd] in *.
    destruct (all_round_trip v Sv Ev) as (bv & Bv & Dv).
    destruct (IH S') as (bd & Bd & Dd).
    apply str_ok_encode in Kk as (ek & Ek & Lk).
    pose proof (String_to_bytes_fits k ek Ek Lk) as TB.
    cbn [to_bytes] in TB.
    exists (be_bytes 1 (ID (type_of v)) ++ (be_bytes 2 (len ek) ++ ek)
            ++ bv ++ terminator v ++ bd).
    split.
    + cbn [items_to_bytes]. unfold Number_to_bytes. cbn [fmt_of].
      rewrite pack_ID. cbn [bind]. rewrite TB. cbn [bind].
      rewrite Bv, Bd. reflexivity.
    + intros fuel n acc F N.
      cbn [map snd] in F. rewrite list_max_cons in F. cbn [List.length] in N.
      destruct n as [|n]; [inversion N|].
      assert (Step : forall tail,
                 items_from_bytes (from_bytes fuel) (S n)
                   ((be_bytes 1 (ID (type_of v)) ++ (be_bytes 2 (len ek) ++ ek)
                     ++ bv ++ terminator v ++ bd) ++ tail) acc
                 = items_from_bytes (from_bytes fuel) n (bd ++ tail)
                     (dict_set acc k v)).
      { intros tail. cbn [items_from_bytes].
        rewrite <- !app_assoc.
        rewrite (Number_from_bytes_to_bytes TAG_Byte (ID (type_of v))
                   (be_bytes 1 (ID (type_of v)))) by apply pack_ID.
        cbn [bind int_of is_integer]. rewrite from_ID_ID. cbn [bind].
        rewrite (type_of_not_End v Ev).
        rewrite (String_from_bytes_fits k ek _ Ek Lk). cbn [bind].
        destruct (Dv fuel ltac:(lia)) as (D1 & _). rewrite D1. cbn [bind].
        reflexivity. }
      destruct (Dd fuel n (dict_set acc k v) ltac:(lia) ltac:(lia)) as (D2 & D3).
      cbn [fold_left fst snd]. split.
      * intros rest. now rewrite Step, D2.
      * rewrite <- (app_nil_r (_ ++ _ ++ _ ++ _ ++ bd)) at 1.
        now rewrite Step, app_nil_r, D3.
Qed.

(** The bytes of items whose names are not all distinct: [from_bytes] assigns
    the items to a dict one after the other, so that the Compound holds each
    name once and, for each name, the value of its last item. *)
Theorem Compound_keeps_last_of_a_name (d : list (str * tag)) :
  forallb (fun kv => str_ok (fst kv) && negb (is_End (snd kv)) && storable (snd kv)) d
  = true ->
  exists b value,
    items_to_bytes to_bytes d = Ok b /\
    value = fold_left (fun a kv => dict_set a (fst kv) (snd kv)) d [] /\
    (forall fuel rest,
       (Nat.max (List.length d) (list_max (map (fun kv => fuel_for (snd kv)) d)) < fuel)%nat ->
       from_bytes (S fuel) TAG_Compound (b ++ x00 :: rest) = Ok (T_Compound value, rest) /\
       from_bytes (S fuel) TAG_Compound b = Ok (T_Compound value, [])) /\
    dict_ok value = true /\
    (forall d1 k v d2, d = d1 ++ (k, v) :: d2 -> dict_has d2 k = false ->
                       dict_get value k = Ok v).
Proof.
  intros St.
  assert (F : Forall (fun kv => str_ok (fst kv) = true /\ is_End (snd kv) = false
                                /\ storable (snd kv) = true) d).
  { rewrite forallb_forall in St. apply Forall_forall. intros kv I.
    specialize (St kv I). apply andb_prop in St as (St & S3).
    apply andb_prop in St as (S1 & S2). apply negb_true_iff in S2. auto. }
  destruct (items_decode d F) as (b & B & D).
  exists b, (fold_left (fun a kv => dict_set a (fst kv) (snd kv)) d []).
  split; [exact B|]. split; [reflexivity|]. split; [|split].
  - intros fuel rest Fu. destruct (D fuel fuel [] ltac:(lia) ltac:(lia)) as (D1 & D2).
    cbn [from_bytes]. split.
    + now rewrite D1.
    + now rewrite D2.
  - now apply fold_set_ok.
  - intros d1 k v d2 -> N. rewrite fold_left_app. cbn [fold_left fst snd].
    rewrite fold_set_other by exact N. apply dict_get_set.
Qed.

Lemma Compound_keeps_last_of_a_name_witness :
  exists b value,
    items_to_bytes to_bytes
      [(lit "a", T_Number TAG_Byte 1); (lit "b", T_Number TAG_Byte 2);
       (lit "a", T_Number TAG_Byte 3)] = Ok b /\
    value = [(lit "a", T_Number TAG_Byte 3); (lit "b", T_Number TAG_Byte 2)] /\
    from_bytes 5 TAG_Compound b = Ok (T_Compound value, []).
Proof.
  destruct (Compound_keeps_last_of_a_name
              [(lit "a", T_Number TAG_Byte 1); (lit "b", T_Number TAG_Byte 2);
               (lit "a", T_Number TAG_Byte 3)] eq_refl)
    as (b & value & B & V & D & _).
  exists b, value. split; [exact B|]. split; [exact V|].
  apply (D 4%nat []). vm_compute. lia.
Defined.

(** *** Bytes, decoded and encoded again *)

Lemma byte_of_Z_add (a x : Z) : byte_of_Z (a + x * 256) = byte_of_Z a.
Proof. unfold byte_of_Z. now rewrite Z.mod_add by lia. Qed.

Lemma be_bytes_shift (n : nat) :
  forall w x, be_bytes n (w + x * 256 ^ Z.of_nat n) = be_bytes n w.
Proof.
  induction n as [|n IH]; intros w x; [reflexivity|]. cbn [be_bytes].
  rewrite Nat2Z.inj_succ, Z.pow_succ_r by lia.
  assert (P : 0 < 256 ^ Z.of_nat n) by (apply Z.pow_pos_nonneg; lia).
  replace (w + x * (256 * 256 ^ Z.of_nat n))
    with (w + (x * 256) * 256 ^ Z.of_nat n) by lia.
  rewrite IH. f_equal. rewrite Z.div_add by lia. apply byte_of_Z_add.
Qed.

Lemma be_bytes_int_from_bytes (b : list byte) :
  be_bytes (List.length b) (int_from_bytes b) = b.
Proof.
  induction b as [|b0 b IH]; [reflexivity|].
  cbn [List.length be_bytes]. rewrite int_from_bytes_cons.
  pose proof (int_from_bytes_range b) as R. unfold len in *.
  assert (P : 0 < 256 ^ Z.of_nat (List.length b)) by (apply Z.pow_pos_nonneg; lia).
  f_equal.
  - rewrite Z.add_comm, Z.div_add, Z.div_small, Z.add_0_l by lia.
    apply byte_of_Z_of_byte.
  - rewrite Z.add_comm, be_bytes_shift. exact IH.
Qed.

(** Every byte string of the width of an integer class is the encoding of
    one tag of the class: [from_bytes] reads exactly the width, or raises
    StopIteration when fewer bytes are left, and [to_bytes] of the tag that
    it returns gives the bytes that were read. *)
Theorem integer_bytes_round_trip (c : number_cls) (it : list byte) :
  is_integer c = true ->
  let n := calcsize (fmt_of c) in
  ((List.length it < n)%nat -> Number_from_bytes c it = Raise StopIteration) /\
  ((n <= List.length it)%nat ->
   exists v, Number_from_bytes c it = Ok (T_Number c v, skipn n it) /\
             to_bytes (T_Number c v) = Ok (firstn n it)).
Proof.
  intros I n. split.
  - intros L. unfold Number_from_bytes, read_bytes. fold n. unfold len.
    destruct (Z.ltb_spec (Z.of_nat (List.length it)) (Z.of_nat n)); [reflexivity|lia].
  - intros L.
    set (b := firstn n it).
    assert (Lb : List.length b = n) by (unfold b; rewrite length_firstn; lia).
    pose proof (int_from_bytes_range b) as R. unfold len in R. rewrite Lb in R.
    pose proof (be_bytes_int_from_bytes b) as E. rewrite Lb in E.
    assert (exists v, unpack (fmt_of c) b = Ok v /\ pack (fmt_of c) v = Ok b)
      as (v & U & P).
    { unfold unpack, pack. rewrite Lb. fold n. rewrite Nat.eqb_refl. cbn [negb].
      pose proof (be_bytes_shift n (int_from_bytes b) (-1)) as Sh. rewrite E in Sh.
      unfold n in *.
      destruct c; try discriminate I; cbn [fmt_of calcsize signed andb] in *;
        pow256; change (Z.of_nat 1) with 1 in *; change (256 ^ 1) with 256 in *;
        repeat match goal with
               | |- context [?a <=? ?b] => destruct (Z.leb_spec a b)
               | |- context [?a <? ?b] => destruct (Z.ltb_spec a b)
               end; cbn [andb];
        eexists; (split; [reflexivity|]);
        repeat match goal with
               | |- context [?a <=? ?b] => destruct (Z.leb_spec a b)
               | |- context [?a <? ?b] => destruct (Z.ltb_spec a b)
               end; cbn [andb];
        try (exfalso; Z.div_mod_to_equations; lia);
        first [ now rewrite E
              | replace (int_from_bytes b - 65536)
                  with (int_from_bytes b + -1 * 65536) by lia; now rewrite Sh
              | replace (int_from_bytes b - 4294967296)
                  with (int_from_bytes b + -1 * 4294967296) by lia; now rewrite Sh
              | replace (int_from_bytes b - 18446744073709551616)
                  with (int_from_bytes b + -1 * 18446744073709551616) by lia;
                now rewrite Sh ]. }
    exists v. split.
    + unfold Number_from_bytes, read_bytes. fold n. unfold len.
      destruct (Z.ltb_spec (Z.of_nat (List.length it)) (Z.of_nat n)); [lia|].
      rewrite Nat2Z.id. fold b. cbn [bind]. rewrite U. cbn [bind].
      now rewrite (Number_new_Ok c v b P).
    + exact P.
Qed.

Lemma integer_bytes_round_trip_witness :
  exists v, Number_from_bytes TAG_Short [xff; xfe; x07]
            = Ok (T_Number TAG_Short v, skipn 2 [xff; xfe; x07]) /\
            to_bytes (T_Number TAG_Short v) = Ok (firstn 2 [xff; xfe; x07]).
Proof.
  apply (proj2 (integer_bytes_round_trip TAG_Short [xff; xfe; x07] eq_refl)).
  cbn [List.length calcsize fmt_of]. lia.
Defined.
(** ** The order in which the offsets are tried (merge_worlds.py) *)

Lemma In_range_from (a b i : Z) : In i (range_from a b) <-> a <= i < b.
Proof.
  unfold range_from. rewrite in_map_iff. split.
  - intros (k & <- & Hk). apply in_seq in Hk. lia.
  - intros H. exists (Z.to_nat (i - a)). split; [lia|]. apply in_seq. lia.
Qed.

Lemma NoDup_range_from (a b : Z) : NoDup (range_from a b).
Proof.
  unfold range_from. apply Injective_map_NoDup; [|apply seq_NoDup].
  intros x y H. lia.
Qed.

Lemma range_from_last (a b : Z) : a <= b -> range_from a (b + 1) = range_from a b ++ [b].
Proof.
  intros H. unfold range_from.
  replace (Z.to_nat (b + 1 - a)) with (S (Z.to_nat (b - a))) by lia.
  rewrite seq_S, map_app. cbn [map Nat.add]. do 2 f_equal. lia.
Qed.

Lemma NoDup_app_disjoint {A} (l1 l2 : list A) :
  NoDup l1 -> NoDup l2 -> (forall b, In b l1 -> ~ In b l2) -> NoDup (l1 ++ l2).
Proof.
  induction 1 as [|a l1 Na N1 IH]; intros N2 D; [exact N2|].
  cbn [app]. constructor.
  - rewrite in_app_iff. intros [I|I]; [contradiction|].
    apply (D a); [now left|exact I].
  - apply IH; [exact N2|]. intros b I. apply D. now right.
Qed.

Lemma NoDup_flat_map {A B} (f : A -> list B) (l : list A) :
  NoDup l -> (forall x, In x l -> NoDup (f x)) ->
  (forall x y b, In x l -> In y l -> In b (f x) -> In b (f y) -> x = y) ->
  NoDup (flat_map f l).
Proof.
  induction 1 as [|a l Na N IH]; intros F D; [constructor|].
  cbn [flat_map]. apply NoDup_app_disjoint.
  - apply F. now left.
  - apply IH; [intros x I; apply F; now right|].
    intros x y b Ix Iy. apply D; now right.
  - intros b Ib I. apply in_flat_map in I as (y & Iy & Iby).
    assert (a = y) by (apply (D a y b); auto; now left + now right).
    subst y. contradiction.
Qed.

Lemma In_square_column (radius x : Z) (p : Z * Z) :
  0 <= radius -> - radius <= x <= radius ->
  (In p (square_column radius x) <->
   fst p = x /\ - radius <= snd p <= radius
   /\ (Z.abs x = radius \/ Z.abs (snd p) = radius)).
Proof.
  intros Hr Hx. unfold square_column. destruct p as (px, pz). cbn [fst snd].
  destruct (Z.eqb_spec (Z.abs x) (Z.abs radius)) as [E|E].
  - rewrite in_map_iff. split.
    + intros (z & Ez & Iz). injection Ez as <- <-. apply In_range_from in Iz. lia.
    + intros (-> & Bz & _). exists pz. split; [reflexivity|].
      apply In_range_from. lia.
  - cbn [In]. split.
    + intros [H|[H|[]]]; injection H as <- <-; lia.
    + intros (-> & Bz & [A|A]); [lia|].
      destruct (Z.eq_dec pz radius) as [->|N]; [right; now left|].
      left. f_equal. lia.
Qed.

Lemma NoDup_square_column (radius x : Z) :
  0 <= radius -> - radius <= x <= radius -> NoDup (square_column radius x).
Proof.
  intros Hr Hx. unfold square_column.
  destruct (Z.eqb_spec (Z.abs x) (Z.abs radius)) as [E|E].
  - apply Injective_map_NoDup; [|apply NoDup_range_from].
    intros a b H. now injection H.
  - constructor; [|constructor; [intros []|constructor]].
    intros [H|[]]. injection H as H. lia.
Qed.

Lemma In_square (radius x z : Z) :
  0 <= radius ->
  (In (x, z) (square radius) <-> Z.max (Z.abs x) (Z.abs z) = radius).
Proof.
  intros Hr. unfold square. rewrite in_flat_map. split.
  - intros (x0 & I0 & I). apply In_range_from in I0.
    apply In_square_column in I; [|lia|lia]. cbn [fst snd] in I. lia.
  - intros H. exists x. split; [apply In_range_from; lia|].
    apply In_square_column; [lia|lia|]. cbn [fst snd]. lia.
Qed.

Lemma NoDup_square (radius : Z) : 0 <= radius -> NoDup (square radius).
Proof.
  intros Hr. unfold square. apply NoDup_flat_map.
  - apply NoDup_range_from.
  - intros x I. apply In_range_from in I. apply NoDup_square_column; lia.
  - intros x y b Ix Iy Bx By. apply In_range_from in Ix, Iy.
    apply In_square_column in Bx, By; lia.
Qed.

(** [generate_offsets] yields every offset whose larger coordinate is, in
    absolute value, below [maxRadius], each one once, and in squares around
    the origin: the offsets of the square of a radius are those whose larger
    coordinate is the radius, and they come after all the offsets of the
    smaller squares. *)
Theorem generate_offsets_order (maxRadius : Z) :
  NoDup (generate_offsets maxRadius) /\
  (forall x z, In (x, z) (generate_offsets maxRadius)
               <-> Z.max (Z.abs x) (Z.abs z) < maxRadius) /\
  (forall radius x z, 0 <= radius ->
     (In (x, z) (square radius) <-> Z.max (Z.abs x) (Z.abs z) = radius)) /\
  (forall radius, 0 <= radius ->
     generate_offsets (radius + 1) = generate_offsets radius ++ square radius) /\
  generate_offsets 1 = [(0, 0)].
Proof.
  split; [|split; [|split; [|split]]].
  - unfold generate_offsets. apply NoDup_flat_map.
    + apply NoDup_range_from.
    + intros r I. apply In_range_from in I. apply NoDup_square. lia.
    + intros r r' (x, z) I I' B B'. apply In_range_from in I, I'.
      apply In_square in B, B'; lia.
  - intros x z. unfold generate_offsets. rewrite in_flat_map. split.
    + intros (r & I & B). apply In_range_from in I. apply In_square in B; lia.
    + intros H. exists (Z.max (Z.abs x) (Z.abs z)).
      split; [apply In_range_from; lia|]. apply In_square; lia.
  - intros radius x z Hr. now apply In_square.
  - intros radius Hr. unfold generate_offsets.
    rewrite range_from_last by lia. rewrite flat_map_app. cbn [flat_map].
    now rewrite app_nil_r.
  - reflexivity.
Qed.
(** ** The bounds and the bit windows of [get_block] *)

Lemma in_chunk_bounds (x y z : Z) :
  in_chunk x y z = true <-> 0 <= x <= 15 /\ 0 <= y <= 255 /\ 0 <= z <= 15.
Proof.
  unfold in_chunk. rewrite !andb_true_iff, !Z.leb_le. lia.
Qed.

(** [get_block] tests the coordinates before it looks at the chunk: outside
    of 0..15, 0..255, 0..15 it raises IndexError whatever the chunk holds;
    inside, a chunk without the key [''], ['Level'] or ['Sections'] makes it
    raise the error of that lookup. *)
Theorem get_block_checks_bounds (self : Chunk) (x y z : Z) :
  if in_chunk x y z
  then (forall e, getitem (value self) (lit "") = Raise e ->
                  get_block self x y z = Raise e) /\
       (forall root e, getitem (value self) (lit "") = Ok root ->
                       getitem root (lit "Level") = Raise e ->
                       get_block self x y z = Raise e) /\
       (forall root Level e, getitem (value self) (lit "") = Ok root ->
                             getitem root (lit "Level") = Ok Level ->
                             getitem Level (lit "Sections") = Raise e ->
                             get_block self x y z = Raise e)
  else get_block self x y z = Raise IndexError.
Proof.
  destruct (in_chunk x y z) eqn:B.
  - apply in_chunk_bounds in B. unfold get_block.
    assert (C : negb ((0 <=? x) && (x <=? 15)) || negb ((0 <=? y) && (y <=? 255))
                || negb ((0 <=? z) && (z <=? 15)) = false).
    { destruct (Z.leb_spec 0 x); [|lia]. destruct (Z.leb_spec x 15); [|lia].
      destruct (Z.leb_spec 0 y); [|lia]. destruct (Z.leb_spec y 255); [|lia].
      destruct (Z.leb_spec 0 z); [|lia]. destruct (Z.leb_spec z 15); [|lia].
      reflexivity. }
    rewrite C. cbv zeta. split; [|split].
    + intros e ->. reflexivity.
    + intros root e -> E. cbn [bind]. now rewrite E.
    + intros root Level e -> L E. cbn [bind]. rewrite L. cbn [bind]. now rewrite E.
  - unfold get_block.
    assert (C : negb ((0 <=? x) && (x <=? 15)) || negb ((0 <=? y) && (y <=? 255))
                || negb ((0 <=? z) && (z <=? 15)) = true).
    { unfold in_chunk in B.
      destruct (0 <=? x), (x <=? 15), (0 <=? y), (y <=? 255), (0 <=? z), (z <=? 15);
        try reflexivity; discriminate B. }
    now rewrite C.
Qed.

Lemma triple_inj {A B C} (a a' : A) (b b' : B) (c c' : C) :
  (a, b, c) = (a', b', c') -> a = a' /\ b = b' /\ c = c'.
Proof. intros H. now injection H. Qed.

Lemma bit_length_bounds (n : Z) : 0 <= n < 2 ^ 64 -> 0 <= bit_length n <= 64.
Proof.
  intros H. unfold bit_length. destruct (Z.eqb_spec n 0) as [E|E]; [lia|].
  rewrite Z.abs_eq by lia.
  pose proof (Z.log2_nonneg n).
  assert (Z.log2 n < 64) by (apply Z.log2_lt_pow2; lia). lia.
Qed.

(** The windows of the blocks of a section: for a palette of fewer than
    2^64 entries the window of a block lies inside the 64 bits of its entry
    and is [bitLen] bits wide, no window runs over two entries, and two
    blocks of one section never share a bit. *)
Theorem bit_windows_are_disjoint (n x y z x' y' z' : Z)
    (index start end_ index' start' end' : Z) :
  0 <= n < 2 ^ 64 ->
  in_chunk x y z = true -> in_chunk x' y' z' = true ->
  bit_window n x y z = (index, start, end_) ->
  bit_window n x' y' z' = (index', start', end') ->
  0 <= index < 4096 /\ 0 <= start /\ end_ <= 64 /\
  end_ - start = Z.max 4 (bit_length n) /\
  (forall BlockStates,
     block_state_ID n BlockStates x y z
     = (entry <- getitem_int BlockStates index ;;
        num <- unsigned entry ;;
        Ok (get_bits num start end_))) /\
  (y / 16 = y' / 16 -> (x, y, z) <> (x', y', z') ->
   index <> index' \/ end_ <= start' \/ end' <= start).
Proof.
  intros Hn B B' W W'. apply in_chunk_bounds in B, B'.
  pose proof (bit_length_bounds n Hn) as L.
  unfold bit_window in W, W'. cbv zeta in W, W'.
  apply triple_inj in W as (<- & <- & <-). apply triple_inj in W' as (<- & <- & <-).
  assert (ID : forall BlockStates,
             block_state_ID n BlockStates x y z
             = (entry <- getitem_int BlockStates
                           ((y mod 16 * 16 * 16 + z * 16 + x)
                            / (64 / Z.max 4 (bit_length n))) ;;
                num <- unsigned entry ;;
                Ok (get_bits num
                      (64 - (y mod 16 * 16 * 16 + z * 16 + x)
                            mod (64 / Z.max 4 (bit_length n))
                            * Z.max 4 (bit_length n) - Z.max 4 (bit_length n))
                      (64 - (y mod 16 * 16 * 16 + z * 16 + x)
                            mod (64 / Z.max 4 (bit_length n))
                            * Z.max 4 (bit_length n)))))
    by reflexivity.
  set (b := Z.max 4 (bit_length n)) in *.
  assert (Hb : 4 <= b <= 64) by (unfold b; lia).
  set (per := 64 / b) in *.
  assert (Hper : 1 <= per /\ per * b <= 64).
  { unfold per. split.
    - apply Z.div_le_lower_bound; lia.
    - rewrite Z.mul_comm. apply Z.mul_div_le. lia. }
  set (block := y mod 16 * 16 * 16 + z * 16 + x) in *.
  set (block' := y' mod 16 * 16 * 16 + z' * 16 + x') in *.
  assert (Hk : 0 <= block < 4096)
    by (unfold block; pose proof (Z.mod_pos_bound y 16); lia).
  assert (Hk' : 0 <= block' < 4096)
    by (unfold block'; pose proof (Z.mod_pos_bound y' 16); lia).
  pose proof (Z.div_mod block per ltac:(lia)) as D.
  pose proof (Z.mod_pos_bound block per ltac:(lia)) as M.
  pose proof (Z.div_mod block' per ltac:(lia)) as D'.
  pose proof (Z.mod_pos_bound block' per ltac:(lia)) as M'.
  set (q := block / per) in *. set (s := block mod per) in *.
  set (q' := block' / per) in *. set (s' := block' mod per) in *.
  assert (Hq : 0 <= q) by (unfold q; apply Z.div_pos; lia).
  assert (Hs : s * b + b <= 64).
  { pose proof (Z.mul_nonneg_nonneg (per - 1 - s) b ltac:(lia) ltac:(lia)). nia. }
  assert (Hs' : s' * b + b <= 64).
  { pose proof (Z.mul_nonneg_nonneg (per - 1 - s') b ltac:(lia) ltac:(lia)). nia. }
  assert (Hs0 : 0 <= s * b) by (apply Z.mul_nonneg_nonneg; lia).
  assert (Hs0' : 0 <= s' * b) by (apply Z.mul_nonneg_nonneg; lia).
  split; [nia|]. split; [lia|]. split; [nia|]. split; [lia|]. split; [exact ID|].
  intros Sec Ne.
  assert (Nb : block <> block').
  { intros E. apply Ne. unfold block, block' in E.
    pose proof (Z.div_mod y 16 ltac:(lia)). pose proof (Z.div_mod y' 16 ltac:(lia)).
    pose proof (Z.mod_pos_bound y 16 ltac:(lia)).
    pose proof (Z.mod_pos_bound y' 16 ltac:(lia)).
    assert (x = x') by lia. assert (z = z') by lia. assert (y = y') by lia.
    congruence. }
  destruct (Z.eq_dec q q') as [Eq|Nq]; [|now left]. right.
  assert (s <> s') by (intros Es; apply Nb; rewrite D, D'; congruence).
  destruct (Z.lt_total s s') as [Lt|[Eq'|Gt]]; [right; nia|contradiction|left; nia].
Qed.

Lemma bit_windows_are_disjoint_witness :
  0 <= 0 < 4096 /\ 0 <= 60 /\ 64 <= 64 /\
  64 - 60 = Z.max 4 (bit_length 3) /\
  (forall BlockStates,
     block_state_ID 3 BlockStates 0 0 0
     = (entry <- getitem_int BlockStates 0 ;;
        num <- unsigned entry ;;
        Ok (get_bits num 60 64))) /\
  (0 / 16 = 0 / 16 -> (0, 0, 0) <> (1, 0, 0) -> 0 <> 0 \/ 64 <= 56 \/ 60 <= 60).
Proof.
  apply (bit_windows_are_disjoint 3 0 0 0 1 0 0 0 60 64 0 56 60);
    first [reflexivity | lia].
Defined.
